(** * chilipiper: browser-session booking service

    A shallow embedding of the timezone utilities, of the book-slot route
    (session creation under the per-handle context lock, registry keys, test
    mode) and of the get-slots route (the max_slots limit), with the
    admission gate of the concurrency manager. *)

From Stdlib Require Import ZArith Lia Bool List Ascii String DecimalString.
From Stdlib Require QArith Qabs Qround.
From stdpp Require Import gmap strings list.
Import ListNotations.

Local Open Scope string_scope.
Local Open Scope Z_scope.

(** ** JavaScript primitives used by the routes *)

Module Js.

(** A JS number that holds an integer, or NaN (what [parseInt] yields on a
    string without digits). *)
Inductive number :=
| Int (z : Z)
| NaN.

(** Truthiness of a number: [0] and [NaN] are falsy. *)
Definition truthy (n : number) : bool :=
  match n with
  | Int z => negb (z =? 0)
  | NaN => false
  end.

(** [a < b] and [a > b]: every comparison with NaN is false. *)
Definition lt (a b : number) : bool :=
  match a, b with
  | Int x, Int y => x <? y
  | _, _ => false
  end.

Definition gt (a b : number) : bool := lt b a.

(** [a === b] on numbers (NaN is not equal to itself). *)
Definition strict_eq (a b : number) : bool :=
  match a, b with
  | Int x, Int y => x =? y
  | _, _ => false
  end.

Definition add (a b : number) : number :=
  match a, b with
  | Int x, Int y => Int (x + y)
  | _, _ => NaN
  end.

(** [\d] matches the ASCII digits only. *)
Definition is_digit (c : ascii) : bool :=
  let n := nat_of_ascii c in (48 <=? n)%nat && (n <=? 57)%nat.

(** [\s] restricted to the ASCII white space: TAB, LF, VT, FF, CR, SPACE. *)
Definition is_space (c : ascii) : bool :=
  let n := nat_of_ascii c in ((9 <=? n)%nat && (n <=? 13)%nat) || (n =? 32)%nat.

Definition is_upper (c : ascii) : bool :=
  let n := nat_of_ascii c in (65 <=? n)%nat && (n <=? 90)%nat.

Definition is_lower (c : ascii) : bool :=
  let n := nat_of_ascii c in (97 <=? n)%nat && (n <=? 122)%nat.

Definition upper_char (c : ascii) : ascii :=
  if is_lower c then ascii_of_nat (nat_of_ascii c - 32) else c.

Definition lower_char (c : ascii) : ascii :=
  if is_upper c then ascii_of_nat (nat_of_ascii c + 32) else c.

Fixpoint map_chars (f : ascii -> ascii) (s : string) : string :=
  match s with
  | EmptyString => EmptyString
  | String c r => String (f c) (map_chars f r)
  end.

(** [s.toUpperCase()] and [s.toLowerCase()] on ASCII text. *)
Definition toUpperCase (s : string) : string := map_chars upper_char s.
Definition toLowerCase (s : string) : string := map_chars lower_char s.

(** [s.startsWith(p)]. *)
Fixpoint startsWith (p s : string) : bool :=
  match p, s with
  | EmptyString, _ => true
  | String a p', String b s' => Ascii.eqb a b && startsWith p' s'
  | String _ _, EmptyString => false
  end.

(** [s.includes(p)]. *)
Fixpoint includes (s p : string) : bool :=
  startsWith p s ||
  match s with
  | EmptyString => false
  | String _ r => includes r p
  end.

(** Value of a run of decimal digits, most significant first. *)
Fixpoint digits_value (acc : Z) (s : string) : Z :=
  match s with
  | EmptyString => acc
  | String c r => digits_value (10 * acc + (Z.of_nat (nat_of_ascii c) - 48)) r
  end.

(** Longest prefix of characters satisfying [p], and the rest. *)
Fixpoint span (p : ascii -> bool) (s : string) : string * string :=
  match s with
  | EmptyString => (EmptyString, EmptyString)
  | String c r =>
      if p c then let '(a, b) := span p r in (String c a, b)
      else (EmptyString, s)
  end.

(** [parseInt(s, 10)]: leading white space is skipped, an optional sign is
    read, then the longest run of digits; no digit gives NaN and whatever
    follows the digits is ignored. *)
Definition parseInt (s : string) : number :=
  let s1 := snd (span is_space s) in
  let '(neg, s2) :=
    match s1 with
    | String "-" r => (true, r)
    | String "+" r => (false, r)
    | _ => (false, s1)
    end in
  match fst (span is_digit s2) with
  | EmptyString => NaN
  | ds => Int (if neg then - digits_value 0 ds else digits_value 0 ds)
  end.

(** [String(n)] for an integer (below the magnitude where JS switches to the
    exponent notation). *)
Definition toString (z : Z) : string := NilZero.string_of_int (Z.to_int z).

Fixpoint repeat_char (c : ascii) (n : nat) : string :=
  match n with
  | O => EmptyString
  | S k => String c (repeat_char c k)
  end.

(** [s.padStart(n, c)] with a one-character filler. *)
Definition padStart (n : nat) (c : ascii) (s : string) : string :=
  repeat_char c (n - String.length s) ++ s.

Definition is_letter (c : ascii) : bool := is_upper c || is_lower c.

Fixpoint all_chars (p : ascii -> bool) (s : string) : bool :=
  match s with
  | EmptyString => true
  | String c r => p c && all_chars p r
  end.

(** [s.trim()] on ASCII white space. *)
Fixpoint trimEnd (s : string) : string :=
  match s with
  | EmptyString => EmptyString
  | String c r =>
      match trimEnd r with
      | EmptyString => if is_space c then EmptyString else String c EmptyString
      | r' => String c r'
      end
  end.

Definition trim (s : string) : string := trimEnd (snd (span is_space s)).

(** The leftmost match of an unanchored pattern: [at_start] tells what the
    pattern captures when it matches at the start of its argument; the
    search gives the text before the match and the capture. *)
Fixpoint search {A} (at_start : string -> option A) (s : string) : option (string * A) :=
  match at_start s with
  | Some x => Some (EmptyString, x)
  | None =>
      match s with
      | EmptyString => None
      | String c r =>
          match search at_start r with
          | Some (before, x) => Some (String c before, x)
          | None => None
          end
      end
  end.

(** A prefix compared without regard to case: what follows it. *)
Fixpoint skip_prefix_ci (p s : string) : option string :=
  match p, s with
  | EmptyString, _ => Some s
  | String a p', String b s' =>
      if Ascii.eqb (lower_char a) (lower_char b) then skip_prefix_ci p' s' else None
  | String _ _, EmptyString => None
  end.

End Js.

(** ** Timezone utilities: parseTime and formatTime12h *)

Module TimezoneUtils.
Import Js.

Record Time := mkTime { hour : number; minute : number }.

(** Up to [n] leading digits of [s], as many as there are, and the rest. *)
Fixpoint digits_upto (n : nat) (s : string) : string * string :=
  match n, s with
  | S k, String c r =>
      if is_digit c then let '(a, b) := digits_upto k r in (String c a, b)
      else (EmptyString, s)
  | _, _ => (EmptyString, s)
  end.

(** The common head of both patterns, [^(\d{1,2}):(\d{2})]: the greedy
    [\d{1,2}] never has to give a digit back, since a [:] must follow it.
    Returns the two captures and what is left of the input. *)
Definition match_hh_mm (s : string) : option (string * string * string) :=
  match digits_upto 2 s with
  | (EmptyString, _) => None
  | (h, String ":" r) =>
      match r with
      | String a (String b rest) =>
          if is_digit a && is_digit b
          then Some (h, String a (String b EmptyString), rest)
          else None
      | _ => None
      end
  | _ => None
  end.

(** [/^(\d{1,2}):(\d{2})\s*(AM|PM)$/i]: the three captures. *)
Definition match12h (s : string) : option (string * string * string) :=
  match match_hh_mm s with
  | Some (h, m, rest) =>
      match snd (span is_space rest) with
      | String a (String b EmptyString) =>
          let ap := String a (String b EmptyString) in
          let u := toUpperCase ap in
          if String.eqb u "AM" || String.eqb u "PM"
          then Some (h, m, ap) else None
      | _ => None
      end
  | None => None
  end.

(** [/^(\d{1,2}):(\d{2})$/]: the two captures. *)
Definition match24h (s : string) : option (string * string) :=
  match match_hh_mm s with
  | Some (h, m, EmptyString) => Some (h, m)
  | _ => None
  end.

Definition parseTime (timeStr : string) : option Time :=
  match match12h timeStr with
  | Some (m1, m2, m3) =>
      let hour := parseInt m1 in
      let minute := parseInt m2 in
      let isPM := String.eqb (toUpperCase m3) "PM" in
      let hour := if isPM && negb (strict_eq hour (Int 12)) then add hour (Int 12) else hour in
      let hour := if negb isPM && strict_eq hour (Int 12) then Int 0 else hour in
      Some (mkTime hour minute)
  | None =>
      match match24h timeStr with
      | Some (m1, m2) => Some (mkTime (parseInt m1) (parseInt m2))
      | None => None
      end
  end.

Definition formatTime12h (hour minute : Z) : string :=
  let ampm := if 12 <=? hour then "PM" else "AM" in
  let displayHour := hour in
  let displayHour := if 12 <? displayHour then displayHour - 12 else displayHour in
  let displayHour := if displayHour =? 0 then 12 else displayHour in
  toString displayHour ++ ":" ++ padStart 2 "0" (toString minute) ++ " " ++ ampm.

(** Equality of numbers as values (NaN equal to itself), to compare results. *)
Definition number_eqb (a b : number) : bool :=
  match a, b with
  | Int x, Int y => (x =? y)%Z
  | NaN, NaN => true
  | _, _ => false
  end.

(** The round trip at one hour and minute, as a boolean. *)
Definition roundtrip_at (h m : nat) : bool :=
  match parseTime (formatTime12h (Z.of_nat h) (Z.of_nat m)) with
  | Some t => number_eqb (hour t) (Int (Z.of_nat h)) && number_eqb (minute t) (Int (Z.of_nat m))
  | None => false
  end.

End TimezoneUtils.

(** ** The admission gate of the concurrency manager *)

Module ConcurrencyManager.

(** Modelled from the spec: the concurrency manager ([@/lib/concurrency-manager])
    is imported by the routes but is not among the sources.  Its configuration
    is the capacity and the queue size of section 4.2. *)
Record Config := { capacity : nat; maxQueueSize : nat }.

(** Tasks are named by their submission number. *)
Record State := { active : list nat; queue : list nat }.

Definition idle : State := {| active := []; queue := [] |}.

Inductive Admission :=
| Started
| Queued
| QueueFullError.

(** Modelled from the spec: [execute(work, timeoutMs)], missing with the
    manager.  Section 4.2: "if fewer than capacity tasks are active, starts
    work immediately; else enqueues it (FIFO) up to maxQueueSize; else fails
    immediately with QueueFullError (never blocks, never silently drops)". *)
Definition execute (cfg : Config) (task : nat) (s : State) : Admission * State :=
  if (length (active s) <? capacity cfg)%nat
  then (Started, {| active := active s ++ [task]; queue := queue s |})
  else if (length (queue s) <? maxQueueSize cfg)%nat
  then (Queued, {| active := active s; queue := queue s ++ [task] |})
  else (QueueFullError, s).

(** Modelled from the spec: the settling of a task, missing with the
    manager: the oldest queued task, if any, starts ("queued tasks start
    strictly in submission order"). *)
Definition settle (task : nat) (s : State) : State :=
  let act := List.filter (fun t => negb (t =? task)%nat) (active s) in
  match queue s with
  | [] => {| active := act; queue := [] |}
  | next :: rest => {| active := act ++ [next]; queue := rest |}
  end.

(** Modelled from the spec: [getStatus()], missing with the manager: the
    snapshot {active, capacity, queued, queueSize}. *)
Definition getStatus (cfg : Config) (s : State) : nat * nat * nat * nat :=
  (length (active s), capacity cfg, length (queue s), maxQueueSize cfg).

(** The calls [execute(task first)], ..., [execute(task (first + n - 1))] made
    back to back, none of the tasks settling in between: the admissions in
    submission order and the state reached. *)
Fixpoint submit (cfg : Config) (n first : nat) (s : State) : list Admission * State :=
  match n with
  | O => ([], s)
  | S k =>
      let '(a, s1) := execute cfg first s in
      let '(rest, s2) := submit cfg k (S first) s1 in
      (a :: rest, s2)
  end.

End ConcurrencyManager.

(** ** The book-slot route: session creation *)

Module BookSlot.
Import Js.
Local Open Scope list_scope.

(** A thrown JS error: the name of its constructor and its message. *)
Record JsError := mkError { ctor : string; message : string }.

(** [new Error(msg)]. *)
Definition Error (msg : string) : JsError := mkError "Error" msg.

(** Calling a method on [null]. *)
Definition TypeError (msg : string) : JsError := mkError "TypeError" msg.

Inductive result (A : Type) :=
| Ok (a : A)
| Throw (e : JsError).
Arguments Ok {A} a.
Arguments Throw {A} e.

(** Browser handles, contexts, pages and lock-release callbacks are opaque
    objects; each is named by a number. *)
Definition handle := nat.
Definition contextId := nat.
Definition pageId := nat.
Definition lockId := nat.

(** What the [{ browser, context, page }] object holds; the fields are
    untyped in the source and may be null. *)
Record Instance := mkInstance {
  inst_browser : option handle;
  inst_context : option contextId;
  inst_page : option pageId
}.

(** The calls that leave the route, with what they were given and what came
    back. *)
Inductive event :=
| GetBrowser (r : result handle)
| AcquireContextLock (b : handle) (l : lockId)
| ReleaseLock (l : lockId)
| ReleaseBrowser (b : option handle)
| IsConnected (b : handle) (r : bool)
| NewContext (b : handle) (timezoneId : string) (r : result contextId)
| NewPage (c : contextId) (r : result pageId)
| Sleep (ms : Z)
| Navigate (p : pageId) (url : string) (r : result unit)
| PageIsClosed (p : pageId) (r : bool)
| PageClose (p : pageId)
| ContextClose (c : contextId)
| Execute (timeoutMs : Z)
| GetExistingInstance (key : string)
| RegisterInstance (key : string) (i : Instance)
| CleanupInstance (key : string)
| Interact (p : option pageId) (date time : string) (r : result unit).

(** The arguments of [createInstanceForEmail]. *)
Record Args := mkArgs {
  email : string;
  firstName : string;
  lastName : string;
  phone : string;
  chiliPiperUrl : string;
  customParams : list (string * string);
  userTimezone : option string
}.

(** Modelled from the spec: the browser pool ([@/lib/browser-pool]) and the
    automation library are not among the sources.  What they answer is left to
    an environment that sees every event so far (newest first): [acquire] may
    fail with a launch error, a handle answers [isConnected], [newContext] and
    [newPage] may fail, a page answers [isClosed].  As in the spec, taking the
    context lock, invoking a release callback, [release(handle)] and
    [isClosed()] raise nothing, and a wait for a handle or a lock ends.
    [env_buildUrl] stands for [buildParameterizedUrlOptional], which throws
    when [new URL] rejects the base URL; [env_navigate] for the navigation of
    lines 301-349, one answer for the whole of it; [env_interact] for the
    calendar clicks of the booking task (lines 628-830).  [env_registry]
    stands for the instance registry ([@/lib/browser-instance-manager],
    reached also through [scraper.getExistingInstance]), one object shared
    by all requests: it tells what the registry holds under a key at the
    moment it is asked, and other requests may have registered or cleaned up
    under that key at any await before. *)
Record Env := mkEnv {
  env_buildUrl : Args -> result string;
  env_getBrowser : list event -> result handle;
  env_isConnected : list event -> handle -> bool;
  env_newContext : list event -> handle -> string -> result contextId;
  env_newPage : list event -> contextId -> result pageId;
  env_navigate : list event -> pageId -> string -> result unit;
  env_pageIsClosed : list event -> pageId -> bool;
  env_interact : list event -> option pageId -> string -> string -> result unit;
  env_registry : list event -> string -> option Instance
}.

(** The local variables of [createInstanceForEmail]; they keep their values
    when an exception unwinds to a [catch]. *)
Record Locals := mkLocals {
  browser : option handle;
  context : option contextId;
  page : option pageId;
  releaseLock : option lockId
}.

Definition initLocals : Locals := mkLocals None None None None.

(** A computation reads the history (every event before it, newest first) and
    the locals; it yields a value or a thrown error, the locals, and the
    events it emitted (newest first). *)
Definition M (A : Type) : Type :=
  list event -> Locals -> result A * Locals * list event.

Definition ret {A} (a : A) : M A := fun _ l => (Ok a, l, []).

Definition throw {A} (e : JsError) : M A := fun _ l => (Throw e, l, []).

Definition bind {A B} (m : M A) (f : A -> M B) : M B :=
  fun h l =>
    match m h l with
    | (Ok a, l1, e1) =>
        let '(r, l2, e2) := f a (e1 ++ h) l1 in (r, l2, e2 ++ e1)
    | (Throw e, l1, e1) => (Throw e, l1, e1)
    end.

(** [try { m } catch (error) { handler error }]. *)
Definition try_catch {A} (m : M A) (handler : JsError -> M A) : M A :=
  fun h l =>
    match m h l with
    | (Throw e, l1, e1) =>
        let '(r, l2, e2) := handler e (e1 ++ h) l1 in (r, l2, e2 ++ e1)
    | ok => ok
    end.

Notation "x <- m ;; k" := (bind m (fun x => k))
  (at level 100, m at next level, right associativity).
Notation "m ;;; k" := (bind m (fun _ => k))
  (at level 100, right associativity).

Definition emit (ev : event) : M unit := fun _ l => (Ok tt, l, [ev]).

Definition gets {A} (f : Locals -> A) : M A := fun _ l => (Ok (f l), l, []).

Definition set_browser (b : handle) : M unit :=
  fun _ l => (Ok tt, mkLocals (Some b) (context l) (page l) (releaseLock l), []).
Definition set_context (c : contextId) : M unit :=
  fun _ l => (Ok tt, mkLocals (browser l) (Some c) (page l) (releaseLock l), []).
Definition set_page (p : pageId) : M unit :=
  fun _ l => (Ok tt, mkLocals (browser l) (context l) (Some p) (releaseLock l), []).
Definition set_releaseLock (k : option lockId) : M unit :=
  fun _ l => (Ok tt, mkLocals (browser l) (context l) (page l) k, []).

(** [await browserPool.getBrowser()]. *)
Definition getBrowser (env : Env) : M handle :=
  fun h l => let r := env_getBrowser env h in (r, l, [GetBrowser r]).

(** [await browserPool.acquireContextLock(b)]: the release callback that
    comes back is a new object, named by the length of the history. *)
Definition acquireContextLock (b : handle) : M lockId :=
  fun h l => (Ok (length h), l, [AcquireContextLock b (length h)]).

(** [if (releaseLock) releaseLock();] *)
Definition callReleaseLock : M unit :=
  fun _ l =>
    match releaseLock l with
    | Some k => (Ok tt, l, [ReleaseLock k])
    | None => (Ok tt, l, [])
    end.

(** [browserPool.releaseBrowser(browser);] *)
Definition releaseBrowser : M unit :=
  fun _ l => (Ok tt, l, [ReleaseBrowser (browser l)]).

(** [browser.m(...)]: a method call on the variable, a TypeError on null. *)
Definition the_browser : M handle :=
  fun _ l =>
    match browser l with
    | Some b => (Ok b, l, [])
    | None => (Throw (TypeError "Cannot read properties of null"), l, [])
    end.

Definition isConnected (env : Env) (b : handle) : M bool :=
  fun h l => let r := env_isConnected env h b in (Ok r, l, [IsConnected b r]).

Definition newContext (env : Env) (b : handle) (tz : string) : M contextId :=
  fun h l => let r := env_newContext env h b tz in (r, l, [NewContext b tz r]).

Definition newPage (env : Env) (c : contextId) : M pageId :=
  fun h l => let r := env_newPage env h c in (r, l, [NewPage c r]).

(** [await new Promise(resolve => setTimeout(resolve, ms))]. *)
Definition sleep (ms : Z) : M unit := emit (Sleep ms).

Definition navigate (env : Env) (p : pageId) (url : string) : M unit :=
  fun h l => let r := env_navigate env h p url in (r, l, [Navigate p url r]).

Definition pageIsClosed (env : Env) (p : pageId) : M bool :=
  fun h l => let r := env_pageIsClosed env h p in (Ok r, l, [PageIsClosed p r]).

(** [userTimezone || 'America/Chicago']. *)
Definition browserTimezone (userTimezone : option string) : string :=
  match userTimezone with
  | Some tz => if String.eqb tz "" then "America/Chicago" else tz
  | None => "America/Chicago"
  end.

(** The body of the inner [try] (lines 252-269): one attempt. *)
Definition attempt (env : Env) (userTimezone : option string) : M unit :=
  b <- the_browser ;;
  connected <- isConnected env b ;;
  (if negb connected then
     callReleaseLock ;;;
     releaseBrowser ;;;
     b' <- getBrowser env ;;
     set_browser b' ;;;
     k <- acquireContextLock b' ;;
     set_releaseLock (Some k)
   else ret tt) ;;;
  b <- the_browser ;;
  c <- newContext env b (browserTimezone userTimezone) ;;
  set_context c ;;;
  p <- newPage env c ;;
  set_page p.

(** The test of line 272, [retries] being the count after [retries--]:
    [error.message && error.message.includes('has been closed') && retries > 0]. *)
Definition retryable (error : JsError) (retries : nat) : bool :=
  negb (String.eqb (message error) "") &&
  includes (message error) "has been closed" &&
  (0 <? retries)%nat.

(** [while (retries > 0) { try { attempt; break } catch (error) { ... } }]
    (lines 250-288). *)
Fixpoint retryLoop (env : Env) (userTimezone : option string) (retries : nat) : M unit :=
  match retries with
  | O => ret tt
  | S retries' =>
      try_catch (attempt env userTimezone)
        (fun error =>
           if retryable error retries' then
             callReleaseLock ;;;
             releaseBrowser ;;;
             b <- getBrowser env ;;
             set_browser b ;;;
             k <- acquireContextLock b ;;
             set_releaseLock (Some k) ;;;
             sleep 100 ;;;
             retryLoop env userTimezone retries'
           else
             callReleaseLock ;;;
             releaseBrowser ;;;
             throw error)
  end.

(** The context-creation sequence (lines 243-294): acquire a handle and its
    lock, run the retry loop with [retries = 3], release the lock. *)
Definition createContext (env : Env) (userTimezone : option string) : M unit :=
  b <- getBrowser env ;;
  set_browser b ;;;
  k <- acquireContextLock b ;;
  set_releaseLock (Some k) ;;;
  retryLoop env userTimezone 3 ;;;
  k <- gets releaseLock ;;
  match k with
  | Some _ => callReleaseLock ;;; set_releaseLock None
  | None => ret tt
  end.

(** The [try] block of [createInstanceForEmail] (lines 237-351). *)
Definition createBody (env : Env) (a : Args) : M (option Instance) :=
  (if String.eqb (chiliPiperUrl a) "" then throw (Error "chili_piper_url is required")
   else ret tt) ;;;
  targetUrl <- (fun _ l => (env_buildUrl env a, l, [])) ;;
  createContext env (userTimezone a) ;;;
  p <- gets page ;;
  match p with
  | None =>
      releaseBrowser ;;;
      throw (Error "Failed to create browser context after retries")
  | Some pg =>
      navigate env pg targetUrl ;;;
      l <- gets (fun l => l) ;;
      ret (Some (mkInstance (browser l) (context l) (page l)))
  end.

(** The clean-up of the [catch] block (lines 357-368); a rejected [close()]
    is swallowed by its own [.catch]. *)
Definition cleanup (env : Env) : M unit :=
  callReleaseLock ;;;
  p <- gets page ;;
  match p with
  | Some pg =>
      closed <- pageIsClosed env pg ;;
      if negb closed then emit (PageClose pg) else ret tt
  | None => ret tt
  end ;;;
  c <- gets context ;;
  match c with
  | Some cx => emit (ContextClose cx)
  | None => ret tt
  end ;;;
  b <- gets browser ;;
  match b with
  | Some _ => releaseBrowser
  | None => ret tt
  end.

(** [createInstanceForEmail]: the instance, or [None] for the [null] that the
    [catch] block returns. *)
Definition createInstanceForEmail (env : Env) (a : Args) : M (option Instance) :=
  try_catch (createBody env a)
    (fun _ =>
       try_catch (cleanup env) (fun _ => ret tt) ;;;
       ret None).

(** A function call: the callee runs on locals of its own, the caller's are
    untouched. *)
Definition call {A} (m : M A) : M A :=
  fun h l => let '(r, _, evs) := m h initLocals in (r, l, evs).

(** A top-level call from a given history: the value returned and the events
    emitted. *)
Definition run {A} (m : M A) (h : list event) : result A * list event :=
  let '(r, _, evs) := m h initLocals in (r, evs).

(** *** The instance registry *)

(** Modelled from the spec: the instance registry is not among the sources.
    Section 4.3: [registerInstance] stores the session under the key,
    replacing any prior entry; [cleanupInstance] removes the entry.
    [registry h] is the map that the registrations and clean-ups of the
    history [h] leave when no other request writes to the registry: what a
    request reads that runs undisturbed.  The program does not read this
    map but the shared registry, [env_registry]. *)
Fixpoint registry (h : list event) : gmap string Instance :=
  match h with
  | [] => ∅
  | RegisterInstance key i :: older => <[key := i]> (registry older)
  | CleanupInstance key :: older => delete key (registry older)
  | _ :: older => registry older
  end.

(** Modelled from the spec: [registerInstance(key, handle, context, page)],
    missing with the registry: "stores the Session under key, replacing any
    prior entry (without closing it)". *)
Definition registerInstance (key : string) (i : Instance) : M unit :=
  emit (RegisterInstance key i).

(** Modelled from the spec: [cleanupInstance(key)], "if present, closes page
    and context, releases the handle to the Pool, removes the entry;
    idempotent when no entry exists". *)
Definition cleanupInstance (env : Env) (key : string) : M unit :=
  fun h l =>
    match env_registry env h key with
    | Some i =>
        (Ok tt, l,
         [CleanupInstance key; ReleaseBrowser (inst_browser i)]
           ++ match inst_context i with Some c => [ContextClose c] | None => [] end
           ++ match inst_page i with Some p => [PageClose p] | None => [] end)
    | None => (Ok tt, l, [])
    end.

(** Modelled from the spec: [getExistingInstance(key)] "returns the Session
    for key only if its page is open and its handle connected; otherwise
    returns absence"; a stale entry is cleaned up. *)
Definition getExistingInstance (env : Env) (key : string) : M (option Instance) :=
  emit (GetExistingInstance key) ;;;
  h <- (fun h l => (Ok h, l, [])) ;;
  match env_registry env h key with
  | Some i =>
      match inst_page i, inst_browser i with
      | Some p, Some b =>
          closed <- pageIsClosed env p ;;
          connected <- isConnected env b ;;
          if negb closed && connected then ret (Some i)
          else cleanupInstance env key ;;; ret None
      | _, _ => cleanupInstance env key ;;; ret None
      end
  | None => ret None
  end.

(** *** The booking task and the route *)

(** [a || b] on strings: the empty string and [undefined] are falsy. *)
Definition or_str (a : option string) (b : string) : string :=
  match a with
  | Some s => if String.eqb s "" then b else s
  | None => b
  end.

(** [params.name] on the custom_params object. *)
Fixpoint prop (name : string) (params : list (string * string)) : option string :=
  match params with
  | [] => None
  | (k, v) :: rest => if String.eqb k name then Some v else prop name rest
  end.

(** The sanitized request body of the book-slot route. *)
Record Body := mkBody {
  body_email : option string;
  body_firstName : option string;
  body_lastName : option string;
  body_phone : option string;
  body_custom_params : option (list (string * string));
  body_dateTime : string;
  body_chili_piper_url : string;
  body_timezone : option string
}.

(** The contact fields after the fall-back to custom_params (lines 448-459). *)
Definition contact_email (b : Body) : string :=
  let email := or_str (body_email b) "" in
  match body_custom_params b with
  | Some params => or_str (Some email) (or_str (prop "email" params) "")
  | None => email
  end.

Definition contact_firstName (b : Body) : string :=
  let firstName := or_str (body_firstName b) "" in
  match body_custom_params b with
  | Some params =>
      or_str (Some firstName)
        (or_str (prop "firstname" params) (or_str (prop "first_name" params) ""))
  | None => firstName
  end.

Definition contact_lastName (b : Body) : string :=
  let lastName := or_str (body_lastName b) "" in
  match body_custom_params b with
  | Some params =>
      or_str (Some lastName)
        (or_str (prop "lastname" params) (or_str (prop "last_name" params) ""))
  | None => lastName
  end.

Definition contact_phone (b : Body) : string :=
  let phone := or_str (body_phone b) "" in
  match body_custom_params b with
  | Some params => or_str (Some phone) (or_str (prop "phone" params) "")
  | None => phone
  end.

(** *** parseDateTime, as the route calls it *)

(** [/^(Monday|Tuesday|Wednesday|Thursday|Friday|Saturday|Sunday),\s*/i]
    replaced by the empty string. *)
Definition stripWeekday (s : string) : string :=
  let try_day (found : option string) (day : string) : option string :=
    match found with
    | Some _ => found
    | None =>
        match skip_prefix_ci day s with
        | Some (String "," r) => Some (snd (span is_space r))
        | _ => None
        end
    end in
  match fold_left try_day
          ["Monday"; "Tuesday"; "Wednesday"; "Thursday"; "Friday"; "Saturday"; "Sunday"]
          None with
  | Some r => r
  | None => s
  end.

Definition is_zone_char (c : ascii) : bool := is_letter c || Ascii.eqb c "_".

(** [\s] or a comma. *)
Definition is_sep (c : ascii) : bool := is_space c || Ascii.eqb c ",".

(** [/\s+([A-Za-z]+\/[A-Za-z_]+)[\s,]*$/] at the start of [s]: each greedy
    run is followed by a character outside its class, so none gives back. *)
Definition iana_at (s : string) : option string :=
  match span is_space s with
  | (EmptyString, _) => None
  | (_, r1) =>
      match span is_letter r1 with
      | (EmptyString, _) => None
      | (area, String "/" r2) =>
          match span is_zone_char r2 with
          | (EmptyString, _) => None
          | (city, r3) =>
              if all_chars is_sep r3
              then Some (String.append area (String "/" city)) else None
          end
      | _ => None
      end
  end.

(** [/\s+([A-Z]{2,4})[\s,]*$/i] at the start of [s]. *)
Definition abbreviation_at (s : string) : option string :=
  match span is_space s with
  | (EmptyString, _) => None
  | (_, r1) =>
      let '(name, r2) := span is_letter r1 in
      if (2 <=? String.length name)%nat && (String.length name <=? 4)%nat
         && all_chars is_sep r2
      then Some name else None
  end.

(** The captures of the date pattern: month name, day, year, hour, minute,
    AM or PM. *)
Record DateMatch := mkDateMatch {
  m_month : string; m_day : string; m_year : string;
  m_hour : string; m_minute : string; m_ampm : string
}.

(** [/^([A-Za-z]+)\s+(\d{1,2}),\s+(\d{4})\s+at\s+(\d{1,2}):(\d{2})\s*(AM|PM)$/i],
    and the same without [at\s+] when [with_at] is false. *)
Definition matchDate (with_at : bool) (s : string) : option DateMatch :=
  match span is_letter s with
  | (EmptyString, _) => None
  | (month, r1) =>
      match span is_space r1 with
      | (EmptyString, _) => None
      | (_, r2) =>
          match TimezoneUtils.digits_upto 2 r2 with
          | (EmptyString, _) => None
          | (day, String "," r3) =>
              match span is_space r3 with
              | (EmptyString, _) => None
              | (_, r4) =>
                  match TimezoneUtils.digits_upto 4 r4 with
                  | (year, r5) =>
                      if negb (String.length year =? 4)%nat then None else
                      match span is_space r5 with
                      | (EmptyString, _) => None
                      | (_, r6) =>
                          let clock :=
                            if with_at then
                              match skip_prefix_ci "at" r6 with
                              | Some r7 =>
                                  match span is_space r7 with
                                  | (EmptyString, _) => None
                                  | (_, r8) => Some r8
                                  end
                              | None => None
                              end
                            else Some r6 in
                          match clock with
                          | Some r =>
                              match TimezoneUtils.match12h r with
                              | Some (hh, mm, ap) =>
                                  Some (mkDateMatch month day year hh mm ap)
                              | None => None
                              end
                          | None => None
                          end
                      end
                  end
              end
          | _ => None
          end
      end
  end.

(** What [monthMap[name]] holds: a month number, or, for the name
    "constructor", the function that every object inherits. *)
Inductive MonthValue :=
| MonthNumber (n : Z)
| ObjectConstructor.

Definition monthMap (name : string) : option MonthValue :=
  let table :=
    [("january", 1); ("jan", 1); ("february", 2); ("feb", 2);
     ("march", 3); ("mar", 3); ("april", 4); ("apr", 4);
     ("may", 5); ("june", 6); ("jun", 6); ("july", 7); ("jul", 7);
     ("august", 8); ("aug", 8); ("september", 9); ("sep", 9); ("sept", 9);
     ("october", 10); ("oct", 10); ("november", 11); ("nov", 11);
     ("december", 12); ("dec", 12)] in
  match List.find (fun e => String.eqb (fst e) name) table with
  | Some (_, n) => Some (MonthNumber n)
  | None => if String.eqb name "constructor" then Some ObjectConstructor else None
  end.

(** [String(month)]. *)
Definition monthString (m : MonthValue) : string :=
  match m with
  | MonthNumber n => toString n
  | ObjectConstructor => "function Object() { [native code] }"
  end.

(** [parseDateTimeComponents(match, sourceTimezone, undefined)]: without a
    target time zone nothing is converted. *)
Definition parseDateTimeComponents (m : DateMatch) : option (string * string) :=
  match monthMap (toLowerCase (m_month m)) with
  | None => None
  | Some month =>
      let dateStr :=
        String.append (m_year m)
          (String.append "-"
             (String.append (padStart 2 "0" (monthString month))
                (String.append "-" (padStart 2 "0" (m_day m))))) in
      let timeStr :=
        String.append (m_hour m)
          (String.append ":"
             (String.append (m_minute m)
                (String.append " " (toUpperCase (m_ampm m))))) in
      Some (dateStr, timeStr)
  end.

(** [parseDateTime(dateTimeString)], the time zones left undefined as in the
    route: the date as YYYY-MM-DD and the time as written. *)
Definition parseDateTime (dateTimeString : string) : option (string * string) :=
  let cleaned :=
    match search iana_at dateTimeString with
    | Some (before, _) => trim before
    | None =>
        match search abbreviation_at dateTimeString with
        | Some (before, tz) =>
            let u := toUpperCase tz in
            if String.eqb u "AM" || String.eqb u "PM"
            then stripWeekday dateTimeString
            else trim before
        | None => stripWeekday dateTimeString
        end
    end in
  match matchDate true cleaned with
  | Some m => parseDateTimeComponents m
  | None =>
      match matchDate false cleaned with
      | Some m => parseDateTimeComponents m
      | None => None
      end
  end.

(** What the route needs from outside the pool: the request body as sent,
    the security middleware ([None] when it blocks the request, else the
    sanitized body), the clock, [formatDateTime] (the weekday comes from the
    [Date] object; kept abstract), and the answers of the concurrency
    manager: whether [execute] rejects the task before running it, and whether
    its deadline passes while the task runs. *)
Record Route := mkRoute {
  request : Body;
  secureRequest : Body -> option Body;
  now : Z;
  formatDateTime : string -> string -> option string -> string;
  accept_task : list event -> result unit;
  deadline : list event -> result unit
}.

(** [email || `booking_${Date.now()}`] (line 581); the task computes it and
    prints it in its log lines. *)
Definition instanceKey (email : string) (now : Z) : string :=
  or_str (Some email) (String.append "booking_" (toString now)).

(** [email ? scraper.getExistingInstance(email) : null] (line 583). *)
Definition lookupInstance (env : Env) (email : string) : M (option Instance) :=
  if String.eqb email "" then ret None else getExistingInstance env email.

(** [page.isClosed()] on the page variable of the task (line 624). *)
Definition taskPageIsClosed (env : Env) (pg : option pageId) : M bool :=
  match pg with
  | Some p => pageIsClosed env p
  | None => throw (TypeError "Cannot read properties of null")
  end.

(** The calendar clicks of lines 628-830, one answer for the whole of it. *)
Definition interact (env : Env) (pg : option pageId) (date time : string) : M unit :=
  fun h l => let r := env_interact env h pg date time in (r, l, [Interact pg date time r]).

(** The task once the registry has been asked (lines 588-837). *)
Definition bookWith (env : Env) (a : Args) (date time : string)
    (instance : option Instance) : M (string * string) :=
  pg <- match instance with
        | None =>
            newInstance <- call (createInstanceForEmail env a) ;;
            match newInstance with
            | None => throw (Error "Failed to create browser instance")
            | Some i =>
                registerInstance (email a) i ;;;
                ret (inst_page i)
            end
        | Some i => ret (inst_page i)
        end ;;
  closed <- taskPageIsClosed env pg ;;
  (if closed then throw (Error "Browser page was closed") else ret tt) ;;;
  interact env pg date time ;;;
  cleanupInstance env (email a) ;;;
  ret (date, time).

(** The work handed to [concurrencyManager.execute] (lines 576-838). *)
Definition bookingTask (env : Env) (a : Args) (date time : string)
  : M (string * string) :=
  instance <- lookupInstance env (email a) ;;
  bookWith env a date time instance.

(** Modelled from the spec: [await concurrencyManager.execute(task, timeoutMs)]
    as the route sees it, the manager being missing: the manager rejects the
    task at once, or runs it; when the deadline passes first the caller gets
    the time-out error while the task runs on ("the underlying work is not
    forcibly interrupted, it is merely no longer awaited"). *)
Definition execute {A} (rt : Route) (task : M A) (timeoutMs : Z) : M A :=
  emit (Execute timeoutMs) ;;;
  (fun h l => (accept_task rt h, l, [])) ;;;
  r <- (fun h l => let '(r, l1, evs) := task h l in (Ok r, l1, evs)) ;;
  (fun h l => (deadline rt h, l, [])) ;;;
  (fun _ l => (r, l, [])).

(** The data of a success response. *)
Record BookingData := mkBookingData {
  bd_message : string;
  bd_date : string;
  bd_time : string;
  bd_dateTime : string;
  bd_testMode : bool
}.

(** The responses of the route: a success ([ErrorHandler.createSuccess]), an
    error built by [ErrorHandler.createError] with its code, message and HTTP
    status ([None] where the status is left to [ErrorHandler.getStatusCode]),
    or [ErrorHandler.parseError] applied to the error caught. *)
Inductive Response :=
| Success (data : BookingData)
| Failure (code message : string) (status : option Z)
| ParsedError (e : JsError).

(** The [catch] block of the route (lines 906-993). *)
Definition errorResponse (error : JsError) : Response :=
  let m := message error in
  let has s := negb (String.eqb m "") && includes m s in
  if has "timeout" then Failure "REQUEST_TIMEOUT" "Booking timed out" (Some 504)
  else if has "queue is full" then Failure "QUEUE_FULL" "Request queue is full" (Some 503)
  else if has "Time slot button not found" || has "Time slot not found"
  then Failure "SLOT_NOT_FOUND" "Time slot not found" (Some 500)
  else if has "Day button not found" || has "day button not found"
  then Failure "DAY_BUTTON_NOT_FOUND" "Day button not found" (Some 500)
  else ParsedError error.

(** The route handler [POST] of book-slot. *)
Definition POST (env : Env) (rt : Route) : M Response :=
  match secureRequest rt (request rt) with
  | None => ret (Failure "UNAUTHORIZED" "Request blocked by security middleware" None)
  | Some body =>
      let email := contact_email body in
      let timezone := body_timezone body in
      match parseDateTime (body_dateTime body) with
      | None => ret (Failure "VALIDATION_ERROR" "Invalid date/time format" (Some 400))
      | Some (date, time) =>
          if includes (toLowerCase email) "test" then
            ret (Success (mkBookingData
                   "Slot booked successfully (TEST MODE - no actual booking performed)"
                   date time (formatDateTime rt date time timezone) true))
          else
            try_catch
              (let a := mkArgs email (contact_firstName body) (contact_lastName body)
                          (contact_phone body) (body_chili_piper_url body)
                          (match body_custom_params body with Some ps => ps | None => [] end)
                          timezone in
               r <- execute rt (bookingTask env a date time) 30000 ;;
               ret (Success (mkBookingData "Slot booked successfully"
                      (fst r) (snd r) (formatDateTime rt (fst r) (snd r) timezone) false)))
              (fun error => ret (errorResponse error))
      end
  end.

End BookSlot.

(** ** The get-slots route: validation and the max_slots limit *)

Module GetSlots.
Import Js.
Local Open Scope list_scope.

Record Slot := mkSlot { slot_date : string; slot_time : string; slot_gmt : string }.

(** The data of a scraping result, and of the response built from it. *)
Record Data := mkData {
  total_days : number;
  total_slots : number;
  slots : option (list Slot);
  calendar_timezone : option string;
  timezone : option string
}.

Record ScrapingResult := mkScrapingResult {
  success : bool;
  data : option Data;
  error : string
}.

(** The fields of the sanitized request body that the handler reads before
    it answers. *)
Record Body := mkBody {
  max_days : option string;
  max_slots_per_day : option string;
  max_slots : option string;
  body_timezone : option string;
  start_date : option string;
  end_date : option string
}.

(** [body.f ? parseInt(body.f.toString(), 10) : undefined], the field being a
    string as the API documents it (a number gives the same through
    [toString]). *)
Definition optInt (field : option string) : option number :=
  match field with
  | Some s => if String.eqb s "" then None else Some (parseInt s)
  | None => None
  end.

(** [n && (n < lo || n > hi)] for a number that may be undefined. *)
Definition outOfRange (n : option number) (lo hi : Z) : bool :=
  match n with
  | Some v => truthy v && (lt v (Int lo) || gt v (Int hi))
  | None => false
  end.

(** [body.f || undefined] on a string field. *)
Definition optStr (field : option string) : option string :=
  match field with
  | Some s => if String.eqb s "" then None else Some s
  | None => None
  end.

Fixpoint all_digits (n : nat) (s : string) : option string :=
  match n, s with
  | O, _ => Some s
  | S k, String c r => if is_digit c then all_digits k r else None
  | S _, EmptyString => None
  end.

(** [/^\d{4}-\d{2}-\d{2}$/.test(s)]. *)
Definition dateRegex (s : string) : bool :=
  match all_digits 4 s with
  | Some (String "-" r1) =>
      match all_digits 2 r1 with
      | Some (String "-" r2) =>
          match all_digits 2 r2 with
          | Some EmptyString => true
          | _ => false
          end
      | _ => false
      end
  | _ => false
  end.

(** [a > b] on strings: the order of the code units. *)
Fixpoint str_gt (a b : string) : bool :=
  match a, b with
  | EmptyString, _ => false
  | String _ _, EmptyString => true
  | String x a', String y b' =>
      if (nat_of_ascii y <? nat_of_ascii x)%nat then true
      else if (nat_of_ascii x <? nat_of_ascii y)%nat then false
      else str_gt a' b'
  end.

(** [l.slice(0, n)] for an integer [n]; a negative [n] counts from the end. *)
Definition slice0 {A} (n : Z) (l : list A) : list A :=
  if 0 <=? n then firstn (Z.to_nat n) l
  else firstn (length l - Z.to_nat (- n)) l.

Inductive Response :=
| Success (d : option Data)
| Failure (code message : string) (status : option Z)
| ParsedError (message : string).

(** The validation of lines 121-210: the error response, if any. *)
Definition validate (b : Body) : option Response :=
  let requestedDays := optInt (max_days b) in
  let maxSlotsPerDay := optInt (max_slots_per_day b) in
  let maxSlots := optInt (max_slots b) in
  let startDate := optStr (start_date b) in
  let endDate := optStr (end_date b) in
  if outOfRange requestedDays 1 30
  then Some (Failure "VALIDATION_ERROR" "Invalid max_days parameter" (Some 400))
  else if outOfRange maxSlotsPerDay 1 50
  then Some (Failure "VALIDATION_ERROR" "Invalid max_slots_per_day parameter" (Some 400))
  else if outOfRange maxSlots 1 100
  then Some (Failure "VALIDATION_ERROR" "Invalid max_slots parameter" (Some 400))
  else if match startDate with Some d => negb (dateRegex d) | None => false end
  then Some (Failure "VALIDATION_ERROR" "Invalid start_date format" (Some 400))
  else if match endDate with Some d => negb (dateRegex d) | None => false end
  then Some (Failure "VALIDATION_ERROR" "Invalid end_date format" (Some 400))
  else if match startDate, endDate with Some s, Some e => str_gt s e | _, _ => false end
  then Some (Failure "VALIDATION_ERROR" "Invalid date range" (Some 400))
  else None.

(** Lines 315-332: the max_slots limit on the data of a successful result. *)
Definition limitSlots (maxSlots : option number) (responseData : option Data) : option Data :=
  match maxSlots, responseData with
  | Some n, Some d =>
      match slots d with
      | Some l =>
          if truthy n && gt (Int (Z.of_nat (length l))) n then
            Some (mkData (total_days d) n
                    (Some (match n with Int z => slice0 z l | NaN => l end))
                    (calendar_timezone d) (timezone d))
          else responseData
      | None => responseData
      end
  | _, _ => responseData
  end.

(** Lines 334-340: the time zone of the request is added to the data. *)
Definition addTimezone (userTimezone : option string) (responseData : option Data) : option Data :=
  match userTimezone, responseData with
  | Some tz, Some d =>
      Some (mkData (total_days d) (total_slots d) (slots d) (calendar_timezone d) (Some tz))
  | _, _ => responseData
  end.

(** The [catch] block of the route (lines 382-439). *)
Definition errorResponse (message : string) : Response :=
  let has s := negb (String.eqb message "") && includes message s in
  if has "timeout" then Failure "REQUEST_TIMEOUT" "Request timed out" (Some 504)
  else if has "queue is full" then Failure "QUEUE_FULL" "Request queue is full" (Some 503)
  else ParsedError message.

(** The route handler [POST] of get-slots.  [secured] is the verdict of the
    security middleware ([None] when the request is blocked); [executed] is
    what [concurrencyManager.execute] gives for the scraping task: the
    scraping result, or the message of the error thrown (the scraper and the
    manager are not among the sources). *)
Definition POST (secured : option Body) (executed : ScrapingResult + string) : Response :=
  match secured with
  | None => Failure "UNAUTHORIZED" "Request blocked by security middleware" None
  | Some body =>
      match validate body with
      | Some response => response
      | None =>
          match executed with
          | inr message => errorResponse message
          | inl result =>
              if negb (success result) then ParsedError (error result)
              else
                Success (addTimezone (optStr (body_timezone body))
                           (limitSlots (optInt (max_slots body)) (data result)))
          end
      end
  end.

(** A sample request and scraping result. *)
Definition sampleSlots : list Slot :=
  [mkSlot "2026-01-22" "9:00 AM" "GMT-6"; mkSlot "2026-01-22" "9:30 AM" "GMT-6";
   mkSlot "2026-01-22" "10:00 AM" "GMT-6"].

Definition sampleBody : Body := mkBody (Some "3") (Some "5") (Some "2") None None None.

Definition sampleResult : ScrapingResult :=
  mkScrapingResult true (Some (mkData (Int 1) (Int 3) (Some sampleSlots) None None)) "".

End GetSlots.

(** ** Observations on the events of a call *)

Module Trace.
Import Js BookSlot.
Local Open Scope list_scope.
Local Open Scope nat_scope.

Fixpoint remove_one (x : nat) (l : list nat) : list nat :=
  match l with
  | [] => []
  | y :: r => if x =? y then r else y :: remove_one x r
  end.

(** The context locks held: a lock is held from the call that returns its
    release callback until that callback is invoked. *)
Definition lock_step (ev : event) (held : list lockId) : list lockId :=
  match ev with
  | AcquireContextLock _ k => k :: held
  | ReleaseLock k => remove_one k held
  | _ => held
  end.

(** The locks held after the events [evs] (newest first), [held] being held
    before them. *)
Definition locks (evs : list event) (held : list lockId) : list lockId :=
  fold_right lock_step held evs.

(** The handles on loan from the pool: from the [getBrowser] that hands one
    out to the [releaseBrowser] that takes it back. *)
Definition borrow_step (ev : event) (out : list handle) : list handle :=
  match ev with
  | GetBrowser (Ok b) => b :: out
  | ReleaseBrowser (Some b) => remove_one b out
  | _ => out
  end.

Definition borrowed (evs : list event) (out : list handle) : list handle :=
  fold_right borrow_step out evs.

(** The calls of [newContext]: the attempts at context creation. *)
Definition is_newContext (ev : event) : bool :=
  match ev with NewContext _ _ _ => true | _ => false end.

Definition attempt_step (ev : event) (n : nat) : nat :=
  if is_newContext ev then S n else n.

Definition attempts (evs : list event) : nat := fold_right attempt_step 0 evs.

(** The pace of the attempts: [Tried] after a call of [newContext], [Rested]
    again after a [Sleep 100]; a call of [newContext] in state [Tried], with
    no back-off since the one before, is [TooFast] (and stays so). *)
Inductive pace :=
| Rested
| Tried
| TooFast.

Definition pace_step (ev : event) (s : pace) : pace :=
  match ev, s with
  | NewContext _ _ _, Rested => Tried
  | NewContext _ _ _, Tried => TooFast
  | Sleep ms, Tried => if (ms =? 100)%Z then Rested else Tried
  | _, _ => s
  end.

Definition pacing (evs : list event) : pace := fold_right pace_step Rested evs.

(** The events by which the context-creation sequence goes on. *)
Definition goes_on (ev : event) : bool :=
  match ev with
  | GetBrowser _ | AcquireContextLock _ _ | IsConnected _ _
  | NewContext _ _ _ | NewPage _ _ | Sleep _ => true
  | _ => false
  end.

(** The error with which a call of the sequence failed. *)
Definition failure (ev : event) : option JsError :=
  match ev with
  | GetBrowser (Throw e) | NewContext _ _ (Throw e) | NewPage _ (Throw e) => Some e
  | _ => None
  end.

Definition closed_message (e : JsError) : bool :=
  includes (message e) "has been closed".

(** The retry policy: a call that fails with a message without "has been
    closed" is [Fatal]; the sequence going on after that is [Violated] (and
    stays so). *)
Inductive verdict :=
| Fine
| Fatal
| Violated.

Definition policy_step (ev : event) (s : verdict) : verdict :=
  match s with
  | Violated => Violated
  | Fatal => if goes_on ev then Violated else Fatal
  | Fine =>
      match failure ev with
      | Some e => if closed_message e then Fine else Fatal
      | None => Fine
      end
  end.

Definition policy (evs : list event) : verdict := fold_right policy_step Fine evs.

(** The connectivity check, handle by handle.  [Connected b]: the last
    answer of [isConnected] was that of handle [b], and it was [true];
    [Disconnected b]: it was [false]; [Replaced b]: the pool has since given
    the handle [b], which has not been asked; [Unasked]: no answer since the
    last [newContext] or since a handle was taken otherwise.  A call of
    [newContext] is in order on the handle found connected or on the handle
    that replaces one found disconnected; any other call is [Unsafe] (and
    stays so). *)
Inductive inspection :=
| Unasked
| Connected (b : handle)
| Disconnected (b : handle)
| Replaced (b : handle)
| Unsafe.

Definition check_step (ev : event) (s : inspection) : inspection :=
  match s with
  | Unsafe => Unsafe
  | _ =>
      match ev with
      | IsConnected b true => Connected b
      | IsConnected b false => Disconnected b
      | GetBrowser r =>
          match r, s with
          | Ok b, Disconnected _ => Replaced b
          | _, _ => Unasked
          end
      | NewContext b _ _ =>
          match s with
          | Connected b' | Replaced b' => if (b =? b')%nat then Unasked else Unsafe
          | _ => Unsafe
          end
      | _ => s
      end
  end.

Definition checking (evs : list event) : inspection := fold_right check_step Unasked evs.

(** [isConnected] is asked of handle [b]. *)
Definition asks (b : handle) (ev : event) : bool :=
  match ev with
  | IsConnected b' _ => (b' =? b)%nat
  | _ => false
  end.

(** Every context of the events (newest first) was created on a handle
    whose connectivity had been asked before. *)
Fixpoint contexts_checked (evs : list event) : bool :=
  match evs with
  | [] => true
  | NewContext b _ _ :: before => existsb (asks b) before && contexts_checked before
  | _ :: before => contexts_checked before
  end.

(** The registry keys: every registration and clean-up so far was made
    under [key]. *)
Definition key_step (key : string) (ev : event) (ok : bool) : bool :=
  match ev with
  | RegisterInstance k _ | CleanupInstance k => ok && String.eqb k key
  | _ => ok
  end.

Definition keyed_by (key : string) (evs : list event) : bool :=
  fold_right (key_step key) true evs.

(** A page was created. *)
Definition page_step (ev : event) (seen : bool) : bool :=
  match ev with
  | NewPage _ (Ok _) => true
  | _ => seen
  end.

End Trace.

(** ** Invariants of the session-creation sequence *)

Module Invariants.
Import Js BookSlot Trace.
Local Open Scope list_scope.
Local Open Scope nat_scope.

(** [wp step m Q h l s]: after [m] runs from history [h] and locals [l],
    [Q] holds of its result, of the locals, and of the state that the monitor
    [step] reaches from [s] over the events emitted, oldest first. *)
Definition wp {S A : Type} (step : event -> S -> S) (m : M A)
    (Q : result A -> Locals -> S -> Prop) (h : list event) (l : Locals) (s : S) : Prop :=
  let '(r, l1, evs) := m h l in Q r l1 (fold_right step s evs).

(** At most the lock whose release callback is in [releaseLock] is held. *)
Definition lock_inv (l : Locals) (held : list lockId) : Prop :=
  held = [] \/ releaseLock l = Some (hd 0 held) /\ length held = 1.

(** At most the handle in [browser] is on loan. *)
Definition borrow_inv (l : Locals) (out : list handle) : Prop :=
  out = [] \/ browser l = Some (hd 0 out) /\ length out = 1.

(** Exactly the handle in [browser] is on loan. *)
Definition holds (l : Locals) (out : list handle) : Prop :=
  exists b, browser l = Some b /\ out = [b].

(** The instance returned holds the one handle still on loan. *)
Definition keeps_handle (i : option Instance) (out : list handle) : Prop :=
  match i with
  | Some inst => exists b, inst_browser inst = Some b /\ out = [b]
  | None => False
  end.

(** After a failed call the verdict tells whether the failure may be
    retried. *)
Definition failed_with (e : JsError) (s : verdict) : Prop :=
  s = Fine \/ s = Fatal /\ closed_message e = false.

(** A page in the [page] variable has been created by [newPage]. *)
Definition page_inv (l : Locals) (seen : bool) : Prop :=
  page l <> None -> seen = true.

(** The events of the replacement of handle [b], whose lock is released by
    [k], by handle [b2] (newest first); the new release callback is named by
    the length of the history at its acquisition. *)
Definition swap (h : list event) (b : handle) (k : lockId) (b2 : handle) : list event :=
  [AcquireContextLock b2 (4 + length h); GetBrowser (Ok b2);
   ReleaseBrowser (Some b); ReleaseLock k; IsConnected b false].

(** What [newContext] then [newPage] give on handle [b] at history [h],
    with the locals and the events [pre] before them. *)
Definition createOn (env : Env) (tz : option string) (h pre : list event)
    (b : handle) (l : Locals) : result unit * Locals * list event :=
  match env_newContext env (pre ++ h) b (browserTimezone tz) with
  | Throw e => (Throw e, l, NewContext b (browserTimezone tz) (Throw e) :: pre)
  | Ok c =>
      let l1 := mkLocals (browser l) (Some c) (page l) (releaseLock l) in
      let evs := NewContext b (browserTimezone tz) (Ok c) :: pre in
      match env_newPage env (evs ++ h) c with
      | Throw e => (Throw e, l1, NewPage c (Throw e) :: evs)
      | Ok p =>
          (Ok tt, mkLocals (browser l) (Some c) (Some p) (releaseLock l),
           NewPage c (Ok p) :: evs)
      end
  end.

End Invariants.

(** ** Sample environments *)

Module Samples.
Import Js BookSlot.
Local Open Scope list_scope.

Definition closedError : JsError :=
  Error "browser.newContext: Target page, context or browser has been closed".

Definition is_IsConnected (ev : event) : bool :=
  match ev with IsConnected _ _ => true | _ => false end.

(** Everything succeeds; objects are named by the length of the history. *)
Definition env_ok : Env :=
  mkEnv (fun a => Ok (chiliPiperUrl a))
        (fun h => Ok (length h))
        (fun _ _ => true)
        (fun h _ _ => Ok (length h))
        (fun h _ => Ok (length h))
        (fun _ _ _ => Ok tt)
        (fun _ _ => false)
        (fun _ _ _ _ => Ok tt)
        (fun h key => registry h !! key).

(** As [env_ok], but every [newContext] fails with a closed-browser error. *)
Definition env_closed : Env :=
  mkEnv (fun a => Ok (chiliPiperUrl a))
        (fun h => Ok (length h))
        (fun _ _ => true)
        (fun _ _ _ => Throw closedError)
        (fun h _ => Ok (length h))
        (fun _ _ _ => Ok tt)
        (fun _ _ => false)
        (fun _ _ _ _ => Ok tt)
        (fun h key => registry h !! key).

(** As [env_ok], but every [newContext] fails with an error that is not
    retried. *)
Definition env_failing : Env :=
  mkEnv (fun a => Ok (chiliPiperUrl a))
        (fun h => Ok (length h))
        (fun _ _ => true)
        (fun _ _ _ => Throw (Error "browser.newContext: out of memory"))
        (fun h _ => Ok (length h))
        (fun _ _ _ => Ok tt)
        (fun _ _ => false)
        (fun _ _ _ _ => Ok tt)
        (fun h key => registry h !! key).

(** As [env_ok], but the first handle is found disconnected. *)
Definition env_disconnected : Env :=
  mkEnv (fun a => Ok (chiliPiperUrl a))
        (fun h => Ok (length h))
        (fun h _ => existsb is_IsConnected h)
        (fun h _ _ => Ok (length h))
        (fun h _ => Ok (length h))
        (fun _ _ _ => Ok tt)
        (fun _ _ => false)
        (fun _ _ _ _ => Ok tt)
        (fun h key => registry h !! key).

(** As [env_ok], but every handle is disconnected. *)
Definition env_unplugged : Env :=
  mkEnv (fun a => Ok (chiliPiperUrl a))
        (fun h => Ok (length h))
        (fun _ _ => false)
        (fun h _ _ => Ok (length h))
        (fun h _ => Ok (length h))
        (fun _ _ _ => Ok tt)
        (fun _ _ => false)
        (fun _ _ _ _ => Ok tt)
        (fun h key => registry h !! key).

Definition args0 : Args :=
  mkArgs "" "Ada" "Lovelace" "" "https://example.chilipiper.com/book" [] None.

Definition args1 : Args :=
  mkArgs "ada@example.com" "Ada" "Lovelace" "" "https://example.chilipiper.com/book" [] None.

Definition testBody : Body :=
  mkBody (Some "Test.User@example.com") None None None None
         "November 13, 2025 at 1:25 PM" "https://example.chilipiper.com/book"
         (Some "America/New_York").

Definition sampleFormat (date time : string) (tz : option string) : string :=
  String.append date (String.append " at " time).

(** A route whose middleware admits every request unchanged. *)
Definition openRoute (b : Body) : Route :=
  mkRoute b (fun b => Some b) 1763040000000 sampleFormat
          (fun _ => Ok tt) (fun _ => Ok tt).

(** A route whose middleware blocks the request (rate limit reached). *)
Definition blockedRoute (b : Body) : Route :=
  mkRoute b (fun _ => None) 1763040000000 sampleFormat
          (fun _ => Ok tt) (fun _ => Ok tt).

End Samples.

(** ** The get-slots route: the dates of the range filter *)

Module GetSlotsDates.
Import Js GetSlots.

(** The digit at position [i] of [s], as a number. *)
Definition digitAt (i : nat) (s : string) : Z :=
  match String.get i s with
  | Some c => Z.of_nat (nat_of_ascii c) - 48
  | None => 0
  end.

(** Year, month and day of a date written YYYY-MM-DD. *)
Definition yearOf (s : string) : Z :=
  1000 * digitAt 0 s + 100 * digitAt 1 s + 10 * digitAt 2 s + digitAt 3 s.
Definition monthOf (s : string) : Z := 10 * digitAt 5 s + digitAt 6 s.
Definition dayOf (s : string) : Z := 10 * digitAt 8 s + digitAt 9 s.

(** [a] is later in the calendar than [b]. *)
Definition laterDate (a b : string) : bool :=
  (yearOf b <? yearOf a)
  || ((yearOf a =? yearOf b)
      && ((monthOf b <? monthOf a)
          || ((monthOf a =? monthOf b) && (dayOf b <? dayOf a)))).

(** The body with its [max_slots] field left out. *)
Definition withoutMaxSlots (b : Body) : Body :=
  mkBody (max_days b) (max_slots_per_day b) None (body_timezone b)
         (start_date b) (end_date b).

Definition unlimitedBody : Body := mkBody (Some "3") (Some "5") (Some "all") None None None.

End GetSlotsDates.

(** ** Observations on the booking task *)

Module TaskTrace.
Import Js BookSlot Trace.
Local Open Scope list_scope.

(** The registry after one more event. *)
Definition reg_step (ev : event) (m : gmap string Instance) : gmap string Instance :=
  match ev with
  | RegisterInstance key i => <[key := i]> m
  | CleanupInstance key => delete key m
  | _ => m
  end.

(** The handles on loan and the registry, followed together. *)
Definition account_step (ev : event) (s : list handle * gmap string Instance)
  : list handle * gmap string Instance :=
  (borrow_step ev (fst s), reg_step ev (snd s)).

(** The events themselves, newest first. *)
Definition log_step (ev : event) (s : list event) : list event := ev :: s.

(** The events that [createInstanceForEmail] may emit: calls to the pool, to
    the browser, to the page, and the back-off. *)
Definition pool_event (ev : event) : bool :=
  match ev with
  | Execute _ | GetExistingInstance _ | RegisterInstance _ _
  | CleanupInstance _ | Interact _ _ _ _ => false
  | _ => true
  end.

Definition pool_step (ev : event) (ok : bool) : bool := ok && pool_event ev.

(** Whether the task has registered an instance. *)
Definition is_register (ev : event) : bool :=
  match ev with RegisterInstance _ _ => true | _ => false end.

Definition registered (evs : list event) : bool := existsb is_register evs.

(** No other request writes to the registry under [key]: what the shared
    registry holds under it is what the registrations and clean-ups of the
    history leave. *)
Definition undisturbed (env : Env) (key : string) : Prop :=
  forall h, env_registry env h key = registry h !! key.

(** The session of the task is registered under the email with its handle,
    the one handle the task has on loan. *)
Definition stranded (env : Env) (a : Args) (h evs : list event) : Prop :=
  exists i b, env_registry env (evs ++ h) (email a) = Some i /\
              inst_browser i = Some b /\ borrowed evs [] = [b].

(** What the booking task, run from the history [h], leaves behind with its
    events [evs]: after a success no handle on loan and no entry under the
    email; after a failure the registered session with its handle on loan
    if the task had registered one, and no handle on loan otherwise. *)
Definition settled (env : Env) (a : Args) (h : list event)
    (r : result (string * string)) (evs : list event) : Prop :=
  match r with
  | Ok _ => borrowed evs [] = [] /\ env_registry env (evs ++ h) (email a) = None
  | Throw _ => if registered evs then stranded env a h evs else borrowed evs [] = []
  end.

(** The session that another request has put under the email. *)
Definition otherInstance : Instance := mkInstance (Some 100%nat) (Some 101%nat) (Some 102%nat).

(** As [env_ok], but the registry is shared with a second request for the
    same email: once the task has registered its session, that request
    registers its own under the email, replacing the entry. *)
Definition env_shared : Env :=
  mkEnv (fun a => Ok (chiliPiperUrl a))
        (fun h => Ok (length h))
        (fun _ _ => true)
        (fun h _ _ => Ok (length h))
        (fun h _ => Ok (length h))
        (fun _ _ _ => Ok tt)
        (fun _ _ => false)
        (fun _ _ _ _ => Ok tt)
        (fun h key => ((fun _ => otherInstance) <$> registry h) !! key).

(** Where an attempt that succeeded leaves the locals and the events: a
    page created in a context created on the handle in [browser], under a
    lock. *)
Definition attempted (tz : string) (l : Locals) (evs : list event) : Prop :=
  exists b c p k older,
    l = mkLocals (Some b) (Some c) (Some p) (Some k) /\
    evs = NewPage c (Ok p) :: NewContext b tz (Ok c) :: older.

(** The instance is the outcome of the last attempt: its context was created
    on its handle and its page in its context, the lock was released next
    and the navigation to the URL built from the arguments came last. *)
Definition coherent (env : Env) (a : Args) (inst : Instance) (evs : list event) : Prop :=
  exists b c p k url older,
    env_buildUrl env a = Ok url /\
    inst = mkInstance (Some b) (Some c) (Some p) /\
    evs = Navigate p url (Ok tt) :: ReleaseLock k :: NewPage c (Ok p)
            :: NewContext b (browserTimezone (userTimezone a)) (Ok c) :: older.

(** An environment whose calendar clicks fail. *)
Definition env_no_slot : Env :=
  mkEnv (fun a => Ok (chiliPiperUrl a))
        (fun h => Ok (length h))
        (fun _ _ => true)
        (fun h _ _ => Ok (length h))
        (fun h _ => Ok (length h))
        (fun _ _ _ => Ok tt)
        (fun _ _ => false)
        (fun _ _ date _ => Throw (Error (String.append "Day button not found for date " date)))
        (fun h key => registry h !! key).


End TaskTrace.

(** ** The text helpers of the book-slot route *)

Module BookSlotText.
Import Js BookSlot.
Local Open Scope list_scope.

(** The variable [extractedTz] of [parseDateTime] (lines 47-64): the zone
    taken from the end of the string, if any. *)
Definition extractedTz (dateTimeString : string) : option string :=
  match search iana_at dateTimeString with
  | Some (_, tz) => Some tz
  | None =>
      match search abbreviation_at dateTimeString with
      | Some (_, tz) =>
          let u := toUpperCase tz in
          if String.eqb u "AM" || String.eqb u "PM" then None else Some u
      | None => None
      end
  end.

(** A date and a time written as the route documents them,
    "November 13, 2025 at 1:25 PM", with or without the word "at". *)
Definition written (with_at : bool) (month day year hour minute ampm : string) : string :=
  String.append month
    (String " " (String.append day
       (String "," (String " " (String.append year
          (String.append (if with_at then " at " else " ")
             (String.append hour
                (String ":" (String.append minute (String " " ampm)))))))))).

(** [s.replace(/\s+/g, '')]: every white space removed. *)
Fixpoint removeSpaces (s : string) : string :=
  match s with
  | EmptyString => EmptyString
  | String c r => if is_space c then removeSpaces r else String c (removeSpaces r)
  end.

(** [formatTimeForSlot] (lines 172-174). *)
Definition formatTimeForSlot (time : string) : string :=
  toUpperCase (removeSpaces time).

(** [normalizeTime] (lines 725-730); the last step is
    [replace(/^0+/, '')]. *)
Definition normalizeTime (timeStr : string) : string :=
  snd (span (Ascii.eqb "0") (toUpperCase (removeSpaces (trim timeStr)))).

(** [timesMatch] (lines 733-737). *)
Definition timesMatch (time1 time2 : string) : bool :=
  String.eqb (normalizeTime time1) (normalizeTime time2).

(** [slotIdVariations] (lines 740-745), [slotTimeId] being
    [`slot-${formatTimeForSlot(time)}`]. *)
Definition slotIdVariations (time : string) : list string :=
  [ String.append "slot-" (formatTimeForSlot time);
    String.append "slot-" (removeSpaces time);
    String.append "slot-" (toUpperCase (removeSpaces time));
    String.append "slot-" (toLowerCase (removeSpaces time)) ].

(** The test of lines 796-799 on the text of a button. *)
Definition textMatches (buttonText time : string) : bool :=
  let trimmedText := trim buttonText in
  let normalizedButtonTime := normalizeTime trimmedText in
  let normalizedTargetTime := normalizeTime time in
  String.eqb normalizedButtonTime normalizedTargetTime
  || String.eqb (toUpperCase trimmedText) (toUpperCase time)
  || String.eqb (toLowerCase trimmedText) (toLowerCase time)
  || timesMatch trimmedText time.

End BookSlotText.

(** ** Timezone utilities: the offset table and its users *)

Module TimezoneConvert.
Import Js TimezoneUtils QArith Qabs Qround.
Local Open Scope list_scope.
Local Open Scope Z_scope.

(** [TIMEZONE_OFFSETS] (lines 9-26), in the order of the literal, which is
    the order of [Object.entries]. *)
Definition TIMEZONE_OFFSETS : list (string * Q) :=
  [ ("EST", -5); ("EDT", -4); ("CST", -6); ("CDT", -5);
    ("MST", -7); ("MDT", -6); ("PST", -8); ("PDT", -7);
    ("UTC", 0); ("GMT", 0);
    ("WET", 0); ("WEST", 1); ("CET", 1); ("CEST", 2); ("EET", 2); ("EEST", 3); ("BST", 1);
    ("IST", 5.5); ("PKT", 5); ("ICT", 7); ("CST_CHINA", 8); ("SGT", 8);
    ("JST", 9); ("KST", 9); ("AEST", 10); ("AEDT", 11);
    ("America/New_York", -5); ("America/Chicago", -6); ("America/Denver", -7);
    ("America/Los_Angeles", -8); ("America/Phoenix", -7); ("America/Anchorage", -9);
    ("Pacific/Honolulu", -10);
    ("Europe/London", 0); ("Europe/Paris", 1); ("Europe/Berlin", 1); ("Europe/Moscow", 3);
    ("Asia/Dubai", 4); ("Asia/Kolkata", 5.5); ("Asia/Bangkok", 7); ("Asia/Shanghai", 8);
    ("Asia/Tokyo", 9); ("Asia/Singapore", 8);
    ("Australia/Sydney", 11); ("Pacific/Auckland", 13);
    ("Asia/Jerusalem", 2); ("ISR", 2); ("IDT", 3) ]%Q.

(** What [TIMEZONE_OFFSETS[name]] holds when it is not undefined: an offset
    of the table, or a property that every object inherits. *)
Inductive TableValue :=
| Hours (q : Q)
| InheritedProperty.

(** The names that an object literal inherits from [Object.prototype]. *)
Definition inherited : list string :=
  [ "constructor"; "hasOwnProperty"; "isPrototypeOf"; "propertyIsEnumerable";
    "toLocaleString"; "toString"; "valueOf"; "__proto__";
    "__defineGetter__"; "__defineSetter__"; "__lookupGetter__"; "__lookupSetter__" ].

(** [TIMEZONE_OFFSETS[name]]. *)
Definition tableLookup (name : string) : option TableValue :=
  match List.find (fun e => String.eqb (fst e) name) TIMEZONE_OFFSETS with
  | Some (_, q) => Some (Hours q)
  | None => if existsb (String.eqb name) inherited then Some InheritedProperty else None
  end.

(** [getTimezoneOffset] (lines 31-33). *)
Definition getTimezoneOffset (timezone : string) : option TableValue :=
  match tableLookup timezone with
  | Some v => Some v
  | None => tableLookup (toUpperCase timezone)
  end.

(** *** detectTimezoneFromGmt *)

(** [([+-]?\d+(?:\.\d+)?)] at the start of [s]: whether the sign is a minus,
    the digits before the point and the digits after it (none when there is
    no point followed by a digit). *)
Definition decimal_at (s : string) : option (bool * string * string) :=
  let '(neg, s1) :=
    match s with
    | String "-" r => (true, r)
    | String "+" r => (false, r)
    | _ => (false, s)
    end in
  match span is_digit s1 with
  | (EmptyString, _) => None
  | (int, String "." r) => Some (neg, int, fst (span is_digit r))
  | (int, _) => Some (neg, int, EmptyString)
  end.

(** [/(?:GMT|UTC)\s*([+-]?\d+(?:\.\d+)?)/i] at the start of [s]. *)
Definition gmt_at (s : string) : option (bool * string * string) :=
  match
    match skip_prefix_ci "GMT" s with
    | Some r => Some r
    | None => skip_prefix_ci "UTC" s
    end
  with
  | Some r => decimal_at (snd (span is_space r))
  | None => None
  end.

(** The number that the captured text writes, exactly. *)
Definition written_value (cap : bool * string * string) : Q :=
  let '(neg, int, frac) := cap in
  let n := digits_value 0 (String.append int frac) in
  Qmake (if neg then - n else n) (Z.to_pos (10 ^ Z.of_nat (String.length frac))).

(** The numbers that [parseFloat] reads as the double [a], for [a] a
    multiple of 1/2 of magnitude from 1 to 2^51 as the offsets of the table
    are: those within half a unit in the last place of [a] (a quarter below,
    when [a] is a power of two), the ends included since the last bit of
    [a] is 0. *)
Definition nearest_from (a : Q) : Q :=
  let e := Z.log2 (Qfloor a) in
  (a - (if Qeq_bool a (Qpower 2 e) then Qpower 2 (e - 54) else Qpower 2 (e - 53)))%Q.

Definition nearest_to (a : Q) : Q :=
  let e := Z.log2 (Qfloor a) in (a + Qpower 2 (e - 53))%Q.

(** [parseFloat(text) === w] for [x] the number that the text writes and
    [w] zero or as above, of either sign; the numbers read as zero are those
    up to 2^-1075. *)
Definition reads_as (x w : Q) : bool :=
  if Qeq_bool w 0 then Qle_bool (Qabs x) (Qpower 2 (-1075))
  else
    let sx := if Qle_bool 0 w then x else Qopp x in
    Qle_bool (nearest_from (Qabs w)) sx && Qle_bool sx (nearest_to (Qabs w)).

(** [detectTimezoneFromGmt] (lines 170-182). *)
Definition detectTimezoneFromGmt (gmtString : string) : option string :=
  match search gmt_at gmtString with
  | Some (_, cap) =>
      let offset := written_value cap in
      match List.find (fun e => reads_as offset (Qopp (snd e))) TIMEZONE_OFFSETS with
      | Some (tz, _) => Some tz
      | None => None
      end
  | None => None
  end.

(** The first zone of the table whose offset is [q]. *)
Definition zoneWithOffset (q : Q) : option string :=
  match List.find (fun e => Qeq_bool (snd e) q) TIMEZONE_OFFSETS with
  | Some (tz, _) => Some tz
  | None => None
  end.

(** The label of an offset of whole hours: "GMT-5", "GMT+2". *)
Definition gmtLabel (minus : bool) (digits : string) : string :=
  String.append "GMT" (String (if minus then "-" else "+") digits).

(** *** convertTimezone and convertSlotsTimezone *)

(** The fields read from the [Date] object after [setHours]. *)
Record DateFields := mkDateFields {
  getFullYear : number;
  getMonth : number;
  getDate : number;
  getHours : number;
  getMinutes : number
}.

(** The [Date] object of the runtime, kept abstract:
    [new Date(year, month, day, hour, minute)] in the local time of the
    host, then [setHours(getHours() + offsetDiff)], the difference being NaN
    ([None]) when an offset is not a number. *)
Definition HostDate : Type :=
  number -> number -> number -> number -> number -> option Q -> DateFields.

(** [String(n)]. *)
Definition numberString (n : number) : string :=
  match n with
  | Int z => toString z
  | NaN => "NaN"
  end.

(** [a >= b]: false when either is NaN. *)
Definition ge (a b : number) : bool :=
  match a, b with
  | Int x, Int y => y <=? x
  | _, _ => false
  end.

(** [formatTime12h] (lines 67-73) on numbers that may be NaN; on integers
    it is [TimezoneUtils.formatTime12h]. *)
Definition formatTime12h_number (hour minute : number) : string :=
  let ampm := if ge hour (Int 12) then "PM" else "AM" in
  let displayHour := hour in
  let displayHour := if gt displayHour (Int 12) then add displayHour (Int (-12)) else displayHour in
  let displayHour := if strict_eq displayHour (Int 0) then Int 12 else displayHour in
  String.append (numberString displayHour)
    (String.append ":"
       (String.append (padStart 2 "0" (numberString minute)) (String.append " " ampm))).

(** [s.split('-')]. *)
Fixpoint split_dash (s : string) : list string :=
  match s with
  | EmptyString => [EmptyString]
  | String c r =>
      if Ascii.eqb c "-" then EmptyString :: split_dash r
      else
        match split_dash r with
        | x :: xs => String c x :: xs
        | [] => [String c EmptyString]
        end
  end.

(** [targetOffset - sourceOffset]: NaN unless both are numbers. *)
Definition offsetDiff (targetOffset sourceOffset : TableValue) : option Q :=
  match targetOffset, sourceOffset with
  | Hours t, Hours s => Some (t - s)%Q
  | _, _ => None
  end.

(** [convertTimezone] (lines 83-132). *)
Definition convertTimezone (host : HostDate)
    (dateStr timeStr sourceTimezone targetTimezone : string) : option (string * string) :=
  match getTimezoneOffset sourceTimezone, getTimezoneOffset targetTimezone with
  | Some sourceOffset, Some targetOffset =>
      match parseTime timeStr with
      | None => None
      | Some parsed =>
          match split_dash dateStr with
          | [y; m; d] =>
              let year := parseInt y in
              let month := add (parseInt m) (Int (-1)) in
              let day := parseInt d in
              let date :=
                host year month day (hour parsed) (minute parsed)
                     (offsetDiff targetOffset sourceOffset) in
              let convertedMonth := add (getMonth date) (Int 1) in
              let newDateStr :=
                String.append (numberString (getFullYear date))
                  (String.append "-"
                     (String.append (padStart 2 "0" (numberString convertedMonth))
                        (String.append "-"
                           (padStart 2 "0" (numberString (getDate date)))))) in
              let newTimeStr := formatTime12h_number (getHours date) (getMinutes date) in
              Some (newDateStr, newTimeStr)
          | _ => None
          end
      end
  | _, _ => None
  end.

(** A slot, and a slot as [convertSlotsTimezone] returns it. *)
Record Slot := mkSlot { slot_date : string; slot_time : string; slot_gmt : string }.

Record ConvertedSlot := mkConvertedSlot {
  c_date : string;
  c_time : string;
  c_gmt : string;
  original_time : option string;
  original_timezone : option string
}.

(** A slot returned as it came. *)
Definition unconverted (slot : Slot) : ConvertedSlot :=
  mkConvertedSlot (slot_date slot) (slot_time slot) (slot_gmt slot) None None.

(** [convertSlotsTimezone] (lines 141-165). *)
Definition convertSlotsTimezone (host : HostDate) (slots : list Slot)
    (sourceTimezone targetTimezone : string) : list ConvertedSlot :=
  if String.eqb sourceTimezone "" || String.eqb targetTimezone ""
     || String.eqb sourceTimezone targetTimezone
  then List.map unconverted slots
  else
    List.map
      (fun slot =>
         match convertTimezone host (slot_date slot) (slot_time slot)
                 sourceTimezone targetTimezone with
         | Some (d, t) =>
             mkConvertedSlot d t (slot_gmt slot) (Some (slot_time slot))
                             (Some sourceTimezone)
         | None => unconverted slot
         end)
      slots.

(** A host whose [Date] adds whole hours within the day and knows no other
    case; enough to run the functions on examples. *)
Definition sampleHost : HostDate :=
  fun year month day hour minute diff =>
    match hour, diff with
    | Int h, Some d =>
        if Qeq_bool d (inject_Z (Qfloor d)) && (0 <=? h + Qfloor d) && (h + Qfloor d <? 24)
        then mkDateFields year month day (Int (h + Qfloor d)) minute
        else mkDateFields NaN NaN NaN NaN NaN
    | _, _ => mkDateFields NaN NaN NaN NaN NaN
    end.

Definition sampleSlots : list Slot :=
  [mkSlot "2026-01-22" "9:00 AM" "GMT-6"; mkSlot "2026-01-22" "noon" "GMT-6"].

End TimezoneConvert.

(** ** The parameterized URL of the booking page *)

Module BookSlotUrl.
Import Js BookSlot.
Local Open Scope list_scope.

(** A [URLSearchParams] object as the list of its name-value pairs. *)
Definition SearchParams : Type := list (string * string).

Definition has_name (name : string) (p : string * string) : bool :=
  String.eqb (fst p) name.

(** [params.append(name, value)]. *)
Definition params_append (name value : string) (l : SearchParams) : SearchParams :=
  l ++ [(name, value)].

(** [params.set(name, value)]: the first pair of that name takes the value
    and the other pairs of that name go; without such a pair, the pair is
    appended. *)
Fixpoint params_set (name value : string) (l : SearchParams) : SearchParams :=
  match l with
  | [] => [(name, value)]
  | p :: rest =>
      if has_name name p
      then (name, value) :: List.filter (fun q => negb (has_name name q)) rest
      else p :: params_set name value rest
  end.

(** What [new URL(baseUrl)] gives, with [new URLSearchParams(urlParts.search)]
    for its query. *)
Record UrlParts := mkUrlParts {
  origin : string;
  pathname : string;
  searchParams : SearchParams
}.

(** The URL parser and the serializer of the runtime, kept abstract:
    [new URL(s)] ([None] when it throws) and [params.toString()]. *)
Record UrlLibrary := mkUrlLibrary {
  parseUrl : string -> option UrlParts;
  serialize : SearchParams -> string
}.

(** The pairs that [buildParameterizedUrlOptional] puts in [params]
    (lines 192-208), [customParams] being the entries of the object in the
    order of [Object.entries]. *)
Definition newParams (firstName lastName email phone phoneFieldId : string)
    (customParams : option (list (string * string))) : SearchParams :=
  let params := [] in
  let params := if String.eqb firstName "" then params
                else params_append "PersonFirstName" firstName params in
  let params := if String.eqb lastName "" then params
                else params_append "PersonLastName" lastName params in
  let params := if String.eqb email "" then params
                else params_append "PersonEmail" email params in
  let params := if String.eqb phone "" then params
                else
                  let phoneValue := if startsWith "+" phone then phone
                                    else String.append "+" phone in
                  params_append phoneFieldId phoneValue params in
  match customParams with
  | Some entries =>
      fold_left
        (fun params kv =>
           if String.eqb (snd kv) "" then params
           else params_append (fst kv) (snd kv) params)
        entries params
  | None => params
  end.

(** The query of the URL returned (lines 210-213): every new pair is [set]
    on the pairs of the base URL. *)
Definition mergedParams (existingParams params : SearchParams) : SearchParams :=
  fold_left (fun existing kv => params_set (fst kv) (snd kv) existing) params existingParams.

(** [buildParameterizedUrlOptional] (lines 180-216). *)
Definition buildParameterizedUrlOptional (lib : UrlLibrary)
    (firstName lastName email phone baseUrl phoneFieldId : string)
    (customParams : option (list (string * string))) : result string :=
  match parseUrl lib baseUrl with
  | None => Throw (TypeError "Invalid URL")
  | Some urlParts =>
      let params := newParams firstName lastName email phone phoneFieldId customParams in
      let existingParams := mergedParams (searchParams urlParts) params in
      Ok (String.append (origin urlParts)
            (String.append (pathname urlParts)
               (String.append "?" (serialize lib existingParams))))
  end.

(** The value that a name was given last, if it was given. *)
Definition last_value (name : string) (params : SearchParams) : option string :=
  match List.find (has_name name) (rev params) with
  | Some (_, v) => Some v
  | None => None
  end.

(** The entries of [customParams] that are put in [params]. *)
Definition givenEntries (entries : list (string * string)) : SearchParams :=
  List.filter (fun kv => negb (String.eqb (snd kv) "")) entries.

End BookSlotUrl.

(** * Properties *)

(** ** parseTime after formatTime12h *)

Module TimezoneFacts.
Import Js TimezoneUtils.

Lemma number_eqb_eq a b : number_eqb a b = true -> a = b.
Proof.
  destruct a, b; simpl; try discriminate; try reflexivity.
  intros H. apply Z.eqb_eq in H. now subst.
Qed.

Lemma roundtrip_table :
  forallb (fun h => forallb (roundtrip_at h) (seq 0 60)) (seq 0 24) = true.
Proof. vm_compute. reflexivity. Qed.

Lemma roundtrip_at_sound (h m : nat) :
  (h < 24)%nat -> (m < 60)%nat -> roundtrip_at h m = true.
Proof.
  intros Hh Hm.
  pose proof roundtrip_table as T.
  rewrite forallb_forall in T.
  specialize (T h). rewrite forallb_forall in T.
  apply T; apply in_seq; lia.
Qed.

(** C10: for every hour 0..23 and minute 0..59, parsing the 12-hour text that
    formatTime12h prints succeeds and gives back that hour and minute. *)
Theorem parseTime_formatTime12h (h m : Z) :
  0 <= h <= 23 -> 0 <= m <= 59 ->
  parseTime (formatTime12h h m) = Some (mkTime (Int h) (Int m)).
Proof.
  intros Hh Hm.
  assert (R : roundtrip_at (Z.to_nat h) (Z.to_nat m) = true)
    by (apply roundtrip_at_sound; lia).
  unfold roundtrip_at in R.
  rewrite !Z2Nat.id in R by lia.
  destruct (parseTime (formatTime12h h m)) as [[hh mm]|]; [|discriminate].
  apply andb_true_iff in R. destruct R as [R1 R2]. simpl in R1, R2.
  apply number_eqb_eq in R1. apply number_eqb_eq in R2. now subst.
Qed.

Lemma parseTime_formatTime12h_witness :
  0 <= 0 <= 23 /\ 0 <= 5 <= 59 /\
  formatTime12h 0 5 = "12:05 AM" /\
  parseTime (formatTime12h 0 5) = Some (mkTime (Int 0) (Int 5)).
Proof.
  split; [lia|]. split; [lia|]. split; [reflexivity|].
  apply (parseTime_formatTime12h 0 5); lia.
Defined.

End TimezoneFacts.

(** ** Admission by the concurrency manager *)

Module ConcurrencyFacts.
Import ConcurrencyManager.
Local Open Scope list_scope.
Local Open Scope nat_scope.

Lemma submit_app cfg a b first s :
  submit cfg (a + b) first s =
  let '(o1, s1) := submit cfg a first s in
  let '(o2, s2) := submit cfg b (first + a) s1 in
  (o1 ++ o2, s2).
Proof.
  revert first s. induction a as [|a IH]; intros first s; simpl.
  - rewrite Nat.add_0_r. now destruct (submit cfg b first s).
  - destruct (execute cfg first s) as [adm s1].
    rewrite IH.
    destruct (submit cfg a (S first) s1) as [o1 s2].
    replace (S first + a) with (first + S a) by lia.
    now destruct (submit cfg b (first + S a) s2).
Qed.

(** While capacity is free every call starts at once. *)
Lemma submit_started cfg k first s :
  length (active s) + k <= capacity cfg ->
  submit cfg k first s =
  (repeat Started k, {| active := active s ++ seq first k; queue := queue s |}).
Proof.
  revert first s. induction k as [|k IH]; intros first s H; simpl.
  - rewrite app_nil_r. now destruct s.
  - unfold execute.
    destruct (Nat.ltb_spec (length (active s)) (capacity cfg)); [|lia].
    rewrite IH by (simpl; rewrite length_app; simpl; lia).
    simpl. now rewrite <- app_assoc.
Qed.

(** At capacity, calls queue while the queue has room. *)
Lemma submit_queued cfg k first s :
  capacity cfg <= length (active s) ->
  length (queue s) + k <= maxQueueSize cfg ->
  submit cfg k first s =
  (repeat Queued k, {| active := active s; queue := queue s ++ seq first k |}).
Proof.
  revert first s. induction k as [|k IH]; intros first s Ha Hq; simpl.
  - rewrite app_nil_r. now destruct s.
  - unfold execute.
    destruct (Nat.ltb_spec (length (active s)) (capacity cfg)); [lia|].
    destruct (Nat.ltb_spec (length (queue s)) (maxQueueSize cfg)); [|lia].
    rewrite IH by (simpl; try rewrite length_app; simpl; lia).
    simpl. now rewrite <- app_assoc.
Qed.

(** At capacity with a full queue, every call is rejected and nothing
    changes. *)
Lemma submit_rejected cfg k first s :
  capacity cfg <= length (active s) ->
  maxQueueSize cfg <= length (queue s) ->
  submit cfg k first s = (repeat QueueFullError k, s).
Proof.
  revert first. induction k as [|k IH]; intros first Ha Hq; simpl; [reflexivity|].
  unfold execute.
  destruct (Nat.ltb_spec (length (active s)) (capacity cfg)); [lia|].
  destruct (Nat.ltb_spec (length (queue s)) (maxQueueSize cfg)); [lia|].
  now rewrite IH.
Qed.

(** C1: with capacity C and queue size Q, of N > C+Q calls of execute made
    back to back on an idle manager, the first C start at once, the next Q
    are queued in submission order, and each of the remaining N-C-Q fails
    with QueueFullError; C tasks are then active and Q queued. *)
Theorem burst_admission (cfg : Config) (N : nat) :
  N > capacity cfg + maxQueueSize cfg ->
  submit cfg N 0 idle =
  (repeat Started (capacity cfg) ++ repeat Queued (maxQueueSize cfg)
     ++ repeat QueueFullError (N - (capacity cfg + maxQueueSize cfg)),
   {| active := seq 0 (capacity cfg);
      queue := seq (capacity cfg) (maxQueueSize cfg) |}).
Proof.
  intros HN.
  set (C := capacity cfg) in *. set (Q := maxQueueSize cfg) in *.
  replace N with (C + (Q + (N - (C + Q)))) at 1 by lia.
  rewrite submit_app.
  rewrite submit_started by (simpl; fold C; lia).
  rewrite submit_app.
  rewrite submit_queued by (simpl; rewrite ?length_seq; fold C; fold Q; lia).
  rewrite submit_rejected by (simpl; rewrite ?length_seq; fold C; fold Q; lia).
  reflexivity.
Qed.

Lemma burst_admission_witness :
  4 > 2 + 1 /\
  submit {| capacity := 2; maxQueueSize := 1 |} 4 0 idle =
  ([Started; Started; Queued; QueueFullError], {| active := [0; 1]; queue := [2] |}).
Proof.
  split; [lia|].
  apply (burst_admission {| capacity := 2; maxQueueSize := 1 |} 4). simpl. lia.
Defined.

End ConcurrencyFacts.

(** ** The max_slots limit of get-slots *)

Module GetSlotsFacts.
Import Js GetSlots.
Local Open Scope list_scope.

Lemma addTimezone_slots tz d :
  match addTimezone tz d, d with
  | Some d1, Some d0 => slots d1 = slots d0 /\ total_slots d1 = total_slots d0
  | None, None => True
  | _, _ => False
  end.
Proof. destruct tz, d; simpl; auto. Qed.

Lemma validate_failure b r :
  validate b = Some r -> exists c m st, r = Failure c m st.
Proof.
  unfold validate.
  repeat match goal with |- (if ?c then _ else _) = _ -> _ => destruct c end;
    intros H; try discriminate; injection H as <-; eauto.
Qed.

(** What the limit does when max_slots is an integer from 1 on. *)
Lemma limitSlots_spec (n : Z) (d0 : Data) :
  1 <= n ->
  exists d1, limitSlots (Some (Int n)) (Some d0) = Some d1 /\
    match slots d0 with
    | Some l0 =>
        slots d1 = Some (firstn (Z.to_nat n) l0) /\
        (n < Z.of_nat (length l0) -> total_slots d1 = Int n) /\
        (Z.of_nat (length l0) <= n -> total_slots d1 = total_slots d0)
    | None => slots d1 = None
    end.
Proof.
  intros Hn. unfold limitSlots.
  destruct (slots d0) as [l0|] eqn:E.
  - simpl. destruct (Z.eqb_spec n 0); [lia|]. simpl.
    destruct (Z.ltb_spec n (Z.of_nat (length l0))).
    + eexists. split; [reflexivity|]. simpl. unfold slice0.
      destruct (Z.leb_spec 0 n); [|lia].
      repeat split; auto. lia.
    + eexists. split; [reflexivity|]. rewrite E.
      repeat split; auto; try lia.
      rewrite firstn_all2; [reflexivity|lia].
  - eexists. split; [reflexivity|]. exact E.
Qed.

(** C9: when a get-slots request carries a max_slots that reads as an integer
    n from 1 to 100 and the response is a success, the slots of the response
    are the first n slots scraped, so at most n of them; and when more than n
    slots were scraped, total_slots is n. *)
Theorem max_slots_limit (body : Body) (executed : ScrapingResult + string)
    (n : Z) (d : Data) :
  optInt (max_slots body) = Some (Int n) ->
  1 <= n <= 100 ->
  POST (Some body) executed = Success (Some d) ->
  (forall l, slots d = Some l -> Z.of_nat (length l) <= n) /\
  exists res d0, executed = inl res /\ data res = Some d0 /\
    forall l0, slots d0 = Some l0 ->
      slots d = Some (firstn (Z.to_nat n) l0) /\
      (n < Z.of_nat (length l0) -> total_slots d = Int n).
Proof.
  intros Hmax Hn HP. unfold POST in HP.
  destruct (validate body) as [r|] eqn:Ev.
  { apply validate_failure in Ev. destruct Ev as (c & m & st & ->). discriminate. }
  destruct executed as [res|msg].
  2:{ unfold errorResponse in HP.
      repeat match type of HP with (if ?c then _ else _) = _ => destruct c end;
        discriminate. }
  destruct (success res); cbn [negb] in HP; [|discriminate].
  rewrite Hmax in HP.
  destruct (data res) as [d0|] eqn:Ed.
  2:{ simpl in HP. destruct (optStr (body_timezone body)); discriminate. }
  destruct (limitSlots_spec n d0) as [d1 [E1 S1]]; [lia|].
  rewrite E1 in HP. injection HP as HP.
  pose proof (addTimezone_slots (optStr (body_timezone body)) (Some d1)) as A.
  rewrite HP in A. destruct A as [As At].
  assert (K : forall l0, slots d0 = Some l0 ->
      slots d = Some (firstn (Z.to_nat n) l0) /\
      (n < Z.of_nat (length l0) -> total_slots d = Int n)).
  { intros l0 E0. rewrite E0 in S1. destruct S1 as [S1 [S2 _]].
    split; [congruence|]. intros Hlt. rewrite At. auto. }
  split.
  - intros l El. destruct (slots d0) as [l0|] eqn:E0.
    + destruct (K l0 eq_refl) as [K1 _]. rewrite K1 in El. injection El as <-.
      rewrite length_firstn. lia.
    + rewrite As, S1 in El. discriminate.
  - exists res, d0. auto.
Qed.

Lemma max_slots_limit_witness :
  POST (Some sampleBody) (inl sampleResult) =
    Success (Some (mkData (Int 1) (Int 2) (Some (firstn 2 sampleSlots)) None None)) /\
  forall l, Some (firstn 2 sampleSlots) = Some l -> Z.of_nat (length l) <= 2.
Proof.
  split; [reflexivity|].
  apply (max_slots_limit sampleBody (inl sampleResult) 2
           (mkData (Int 1) (Int 2) (Some (firstn 2 sampleSlots)) None None));
    [reflexivity | lia | reflexivity].
Defined.

End GetSlotsFacts.

(** ** The book-slot route: test mode and registry keys *)

Module RouteFacts.
Import Js BookSlot Trace Samples.
Local Open Scope list_scope.

(** C8, as stated, fails: a request whose email contains "test" and whose
    dateTime parses, but which the security middleware blocks, is answered
    with the UNAUTHORIZED error, not with a test-mode success. *)
Lemma test_mode_blocked_request :
  includes (toLowerCase (contact_email (request (blockedRoute testBody)))) "test" = true /\
  parseDateTime (body_dateTime (request (blockedRoute testBody)))
    = Some ("2025-11-13", "1:25 PM") /\
  run (POST env_ok (blockedRoute testBody)) [] =
    (Ok (Failure "UNAUTHORIZED" "Request blocked by security middleware" None), []).
Proof. repeat split; reflexivity. Qed.

(** C8, amended: when the security middleware admits the request, the email
    of the sanitized body (top level, else custom_params) contains "test"
    whatever the case, and its dateTime parses, the route answers with a
    success that carries testMode and the parsed date and time, and it emits
    no event: nothing is submitted to the concurrency manager, no handle is
    acquired, no booking is made. *)
Theorem test_mode_short_circuit (env : Env) (rt : Route) (h : list event)
    (body : Body) (date time : string) :
  secureRequest rt (request rt) = Some body ->
  includes (toLowerCase (contact_email body)) "test" = true ->
  parseDateTime (body_dateTime body) = Some (date, time) ->
  run (POST env rt) h =
    (Ok (Success (mkBookingData
           "Slot booked successfully (TEST MODE - no actual booking performed)"
           date time (formatDateTime rt date time (body_timezone body)) true)),
     []).
Proof.
  intros Hs Ht Hp. unfold run, POST. rewrite Hs, Hp, Ht. reflexivity.
Qed.

Lemma test_mode_short_circuit_witness :
  run (POST env_ok (openRoute testBody)) [GetExistingInstance "earlier"] =
    (Ok (Success (mkBookingData
           "Slot booked successfully (TEST MODE - no actual booking performed)"
           "2025-11-13" "1:25 PM" "2025-11-13 at 1:25 PM" true)),
     []).
Proof.
  apply (test_mode_short_circuit env_ok (openRoute testBody)
           [GetExistingInstance "earlier"] testBody "2025-11-13" "1:25 PM");
    reflexivity.
Defined.

End RouteFacts.

(** ** Session creation: rules to follow a computation through its events *)

Module Logic.
Import Js BookSlot Invariants.
Local Open Scope list_scope.

Section Monitor.
Context {S : Type} (step : event -> S -> S).

Lemma after_app (a b : list event) (s : S) :
  fold_right step s (a ++ b) = fold_right step (fold_right step s b) a.
Proof. apply fold_right_app. Qed.

Lemma wp_ret {A} (a : A) (Q : result A -> Locals -> S -> Prop) h l s :
  Q (Ok a) l s -> wp step (ret a) Q h l s.
Proof. intros H. exact H. Qed.

Lemma wp_throw {A} (e : JsError) (Q : result A -> Locals -> S -> Prop) h l s :
  Q (Throw e) l s -> wp step (throw e) Q h l s.
Proof. intros H. exact H. Qed.

Lemma wp_bind {A B} (m : M A) (f : A -> M B) (Q : result B -> Locals -> S -> Prop) h l s :
  wp step m (fun r l1 s1 =>
               match r with
               | Ok a => forall h1, wp step (f a) Q h1 l1 s1
               | Throw e => Q (Throw e) l1 s1
               end) h l s ->
  wp step (bind m f) Q h l s.
Proof.
  unfold wp, bind. destruct (m h l) as [[r l1] e1]. destruct r as [a|e]; [|auto].
  intros H. specialize (H (e1 ++ h)).
  destruct (f a (e1 ++ h) l1) as [[r2 l2] e2]. now rewrite after_app.
Qed.

Lemma wp_try_catch {A} (m : M A) (handler : JsError -> M A)
    (Q : result A -> Locals -> S -> Prop) h l s :
  wp step m (fun r l1 s1 =>
               match r with
               | Ok a => Q (Ok a) l1 s1
               | Throw e => forall h1, wp step (handler e) Q h1 l1 s1
               end) h l s ->
  wp step (try_catch m handler) Q h l s.
Proof.
  unfold wp, try_catch. destruct (m h l) as [[r l1] e1]. destruct r as [a|e]; [auto|].
  intros H. specialize (H (e1 ++ h)).
  destruct (handler e (e1 ++ h) l1) as [[r2 l2] e2]. now rewrite after_app.
Qed.

Lemma wp_mono {A} (m : M A) (Q Q' : result A -> Locals -> S -> Prop) h l s :
  (forall r l1 s1, Q r l1 s1 -> Q' r l1 s1) ->
  wp step m Q h l s -> wp step m Q' h l s.
Proof. unfold wp. destruct (m h l) as [[r l1] e1]. auto. Qed.

Lemma wp_call {A} (m : M A) (Q : result A -> Locals -> S -> Prop) h l s :
  wp step m (fun r _ s1 => Q r l s1) h initLocals s ->
  wp step (call m) Q h l s.
Proof. unfold wp, call. destruct (m h initLocals) as [[r l1] e1]. auto. Qed.

Lemma wp_emit ev (Q : result unit -> Locals -> S -> Prop) h l s :
  Q (Ok tt) l (step ev s) -> wp step (emit ev) Q h l s.
Proof. intros H. exact H. Qed.

Lemma wp_gets {A} (f : Locals -> A) (Q : result A -> Locals -> S -> Prop) h l s :
  Q (Ok (f l)) l s -> wp step (gets f) Q h l s.
Proof. intros H. exact H. Qed.

Lemma wp_set_browser b (Q : result unit -> Locals -> S -> Prop) h l s :
  Q (Ok tt) (mkLocals (Some b) (context l) (page l) (releaseLock l)) s ->
  wp step (set_browser b) Q h l s.
Proof. intros H. exact H. Qed.

Lemma wp_set_context c (Q : result unit -> Locals -> S -> Prop) h l s :
  Q (Ok tt) (mkLocals (browser l) (Some c) (page l) (releaseLock l)) s ->
  wp step (set_context c) Q h l s.
Proof. intros H. exact H. Qed.

Lemma wp_set_page p (Q : result unit -> Locals -> S -> Prop) h l s :
  Q (Ok tt) (mkLocals (browser l) (context l) (Some p) (releaseLock l)) s ->
  wp step (set_page p) Q h l s.
Proof. intros H. exact H. Qed.

Lemma wp_set_releaseLock k (Q : result unit -> Locals -> S -> Prop) h l s :
  Q (Ok tt) (mkLocals (browser l) (context l) (page l) k) s ->
  wp step (set_releaseLock k) Q h l s.
Proof. intros H. exact H. Qed.

Lemma wp_getBrowser env (Q : result handle -> Locals -> S -> Prop) h l s :
  (forall r, Q r l (step (GetBrowser r) s)) -> wp step (getBrowser env) Q h l s.
Proof. intros H. apply H. Qed.

Lemma wp_acquireContextLock b (Q : result lockId -> Locals -> S -> Prop) h l s :
  (forall k, Q (Ok k) l (step (AcquireContextLock b k) s)) ->
  wp step (acquireContextLock b) Q h l s.
Proof. intros H. apply H. Qed.

Lemma wp_callReleaseLock (Q : result unit -> Locals -> S -> Prop) h l s :
  match releaseLock l with
  | Some k => Q (Ok tt) l (step (ReleaseLock k) s)
  | None => Q (Ok tt) l s
  end ->
  wp step callReleaseLock Q h l s.
Proof. unfold wp, callReleaseLock. destruct (releaseLock l); auto. Qed.

Lemma wp_releaseBrowser (Q : result unit -> Locals -> S -> Prop) h l s :
  Q (Ok tt) l (step (ReleaseBrowser (browser l)) s) ->
  wp step releaseBrowser Q h l s.
Proof. intros H. exact H. Qed.

Lemma wp_the_browser (Q : result handle -> Locals -> S -> Prop) h l s :
  match browser l with
  | Some b => Q (Ok b) l s
  | None => Q (Throw (TypeError "Cannot read properties of null")) l s
  end ->
  wp step the_browser Q h l s.
Proof. unfold wp, the_browser. destruct (browser l); auto. Qed.

Lemma wp_isConnected env b (Q : result bool -> Locals -> S -> Prop) h l s :
  (forall r, Q (Ok r) l (step (IsConnected b r) s)) ->
  wp step (isConnected env b) Q h l s.
Proof. intros H. apply H. Qed.

Lemma wp_newContext env b tz (Q : result contextId -> Locals -> S -> Prop) h l s :
  (forall r, Q r l (step (NewContext b tz r) s)) ->
  wp step (newContext env b tz) Q h l s.
Proof. intros H. apply H. Qed.

Lemma wp_newPage env c (Q : result pageId -> Locals -> S -> Prop) h l s :
  (forall r, Q r l (step (NewPage c r) s)) -> wp step (newPage env c) Q h l s.
Proof. intros H. apply H. Qed.

Lemma wp_sleep ms (Q : result unit -> Locals -> S -> Prop) h l s :
  Q (Ok tt) l (step (Sleep ms) s) -> wp step (sleep ms) Q h l s.
Proof. intros H. exact H. Qed.

Lemma wp_navigate env p url (Q : result unit -> Locals -> S -> Prop) h l s :
  (forall r, Q r l (step (Navigate p url r) s)) ->
  wp step (navigate env p url) Q h l s.
Proof. intros H. apply H. Qed.

Lemma wp_pageIsClosed env p (Q : result bool -> Locals -> S -> Prop) h l s :
  (forall r, Q (Ok r) l (step (PageIsClosed p r) s)) ->
  wp step (pageIsClosed env p) Q h l s.
Proof. intros H. apply H. Qed.

Lemma wp_history (Q : result (list event) -> Locals -> S -> Prop) h l s :
  Q (Ok h) l s -> wp step (fun h l => (Ok h, l, [])) Q h l s.
Proof. intros H. exact H. Qed.

Lemma wp_interact env pg date time (Q : result unit -> Locals -> S -> Prop) h l s :
  (forall r, Q r l (step (Interact pg date time r) s)) ->
  wp step (interact env pg date time) Q h l s.
Proof. intros H. apply H. Qed.

Lemma wp_pure {A} (f : list event -> result A)
    (Q : result A -> Locals -> S -> Prop) h l s :
  (forall r, Q r l s) -> wp step (fun h l => (f h, l, [])) Q h l s.
Proof. intros H. apply H. Qed.

End Monitor.

(** One step of symbolic execution through a computation. *)
Ltac wp_rule :=
  lazymatch goal with
  | |- wp _ (bind _ _) _ _ _ _ => apply wp_bind
  | |- wp _ (try_catch _ _) _ _ _ _ => apply wp_try_catch
  | |- wp _ (call _) _ _ _ _ => apply wp_call
  | |- wp _ (ret _) _ _ _ _ => apply wp_ret
  | |- wp _ (throw _) _ _ _ _ => apply wp_throw
  | |- wp _ (emit _) _ _ _ _ => apply wp_emit
  | |- wp _ (gets _) _ _ _ _ => apply wp_gets
  | |- wp _ (set_browser _) _ _ _ _ => apply wp_set_browser
  | |- wp _ (set_context _) _ _ _ _ => apply wp_set_context
  | |- wp _ (set_page _) _ _ _ _ => apply wp_set_page
  | |- wp _ (set_releaseLock _) _ _ _ _ => apply wp_set_releaseLock
  | |- wp _ (getBrowser _) _ _ _ _ => apply wp_getBrowser
  | |- wp _ (acquireContextLock _) _ _ _ _ => apply wp_acquireContextLock
  | |- wp _ callReleaseLock _ _ _ _ => apply wp_callReleaseLock
  | |- wp _ releaseBrowser _ _ _ _ => apply wp_releaseBrowser
  | |- wp _ the_browser _ _ _ _ => apply wp_the_browser
  | |- wp _ (isConnected _ _) _ _ _ _ => apply wp_isConnected
  | |- wp _ (newContext _ _ _) _ _ _ _ => apply wp_newContext
  | |- wp _ (newPage _ _) _ _ _ _ => apply wp_newPage
  | |- wp _ (sleep _) _ _ _ _ => apply wp_sleep
  | |- wp _ (navigate _ _ _) _ _ _ _ => apply wp_navigate
  | |- wp _ (pageIsClosed _ _) _ _ _ _ => apply wp_pageIsClosed
  | |- wp _ (interact _ _ _ _) _ _ _ _ => apply wp_interact
  | |- wp _ (fun h l => (Ok h, l, [])) _ _ _ _ => apply wp_history
  | |- wp _ (fun h l => (_, l, [])) _ _ _ _ => apply wp_pure
  | |- wp _ (if ?c then _ else _) _ _ _ _ => destruct c eqn:?
  | |- wp _ (match ?x with _ => _ end) _ _ _ _ => destruct x eqn:?
  | |- forall _, _ => intro
  | |- match ?x with _ => _ end => destruct x eqn:?
  end.

Ltac wp_run :=
  repeat (wp_rule; cbn beta iota delta [browser context page releaseLock]).

End Logic.

(** ** Session creation: locks, handles, retries *)

Module SessionFacts.
Import Js BookSlot Trace Invariants Samples Logic.
Local Open Scope list_scope.
Local Open Scope nat_scope.

Lemma remove_one_other k x l : x <> k -> In x l -> In x (remove_one k l).
Proof.
  intros N. induction l as [|y l IH]; simpl; [tauto|].
  intros [E|I].
  - subst y. destruct (Nat.eqb_spec k x); [congruence|now left].
  - destruct (k =? y); [exact I|right; auto].
Qed.

(** A lock acquired is held still, or has been released since. *)
Lemma acquired_then_held_or_released evs held b k :
  In (AcquireContextLock b k) evs ->
  In k (locks evs held) \/ In (ReleaseLock k) evs.
Proof.
  assert (G : In (AcquireContextLock b k) evs \/ In k held ->
              In k (locks evs held) \/ In (ReleaseLock k) evs); [|tauto].
  induction evs as [|ev evs IH]; simpl.
  - intros [[]|I]. now left.
  - intros [[E|I]|I].
    + subst ev. simpl. left. now left.
    + destruct (IH (or_introl I)) as [J|J]; [|right; now right].
      destruct ev; simpl; auto; try solve [left; right; exact J].
      match goal with
      | |- context [remove_one ?x _] =>
          destruct (Nat.eq_dec k x) as [->|N];
            [right; now left | left; apply remove_one_other; auto]
      end.
    + destruct (IH (or_intror I)) as [J|J]; [|right; now right].
      destruct ev; simpl; auto; try solve [left; right; exact J].
      match goal with
      | |- context [remove_one ?x _] =>
          destruct (Nat.eq_dec k x) as [->|N];
            [right; now left | left; apply remove_one_other; auto]
      end.
Qed.

(** A handle borrowed is on loan still, or has been returned since. *)
Lemma borrowed_then_out_or_returned evs out b :
  In (GetBrowser (Ok b)) evs ->
  In b (borrowed evs out) \/ In (ReleaseBrowser (Some b)) evs.
Proof.
  assert (G : In (GetBrowser (Ok b)) evs \/ In b out ->
              In b (borrowed evs out) \/ In (ReleaseBrowser (Some b)) evs); [|tauto].
  induction evs as [|ev evs IH]; simpl.
  - intros [[]|I]. now left.
  - intros [[E|I]|I].
    + subst ev. simpl. left. now left.
    + destruct (IH (or_introl I)) as [J|J]; [|right; now right].
      destruct ev as [[b1|e]| | |[b1|]| | | | | | | | | | | | |]; simpl; auto;
        try solve [left; right; exact J].
      match goal with
      | |- context [remove_one ?x _] =>
          destruct (Nat.eq_dec b x) as [->|N];
            [right; now left | left; apply remove_one_other; auto]
      end.
    + destruct (IH (or_intror I)) as [J|J]; [|right; now right].
      destruct ev as [[b1|e]| | |[b1|]| | | | | | | | | | | | |]; simpl; auto;
        try solve [left; right; exact J].
      match goal with
      | |- context [remove_one ?x _] =>
          destruct (Nat.eq_dec b x) as [->|N];
            [right; now left | left; apply remove_one_other; auto]
      end.
Qed.

(** *** The context locks *)

Ltac lock_solve :=
  unfold lock_inv in *; cbn in *;
  repeat match goal with
         | H : _ \/ _ |- _ => destruct H
         | H : _ /\ _ |- _ => destruct H
         | H : Some _ = Some _ |- _ => injection H as H
         | H : length ?s = 1 |- _ =>
             destruct s as [|? [|? ?]]; [discriminate H| |discriminate H]; clear H
         | H1 : ?x = Some _, H2 : ?x = Some _ |- _ =>
             rewrite H1 in H2; injection H2 as H2
         | H1 : ?x = Some _, H2 : ?x = None |- _ =>
             rewrite H1 in H2; discriminate H2
         end;
  subst; cbn in *; rewrite ?Nat.eqb_refl; try discriminate; auto.

Lemma attempt_locks env tz h l s :
  lock_inv l s ->
  wp lock_step (attempt env tz) (fun _ l1 s1 => lock_inv l1 s1) h l s.
Proof.
  intros I. destruct l as [b c p k]. unfold attempt.
  wp_run; lock_solve.
Qed.

Lemma retryLoop_locks env tz retries : forall h l s,
  lock_inv l s ->
  wp lock_step (retryLoop env tz retries)
     (fun r l1 s1 => match r with Ok _ => lock_inv l1 s1 | Throw _ => s1 = [] end) h l s.
Proof.
  induction retries as [|n IH]; intros h l s I; simpl retryLoop.
  - now apply wp_ret.
  - apply wp_try_catch.
    eapply wp_mono; [|apply attempt_locks; exact I].
    intros r [b c p k] s1 I1. destruct r as [[]|e]; [exact I1|].
    intros h1. wp_run; try (apply IH); lock_solve.
Qed.

Ltac wp_locks :=
  repeat (first
    [ wp_rule
    | match goal with
      | |- wp _ (retryLoop _ _ _) _ _ _ _ =>
          eapply wp_mono; [|apply retryLoop_locks; lock_solve]
      end ];
    cbn beta iota delta [browser context page releaseLock]).

Lemma createBody_locks env a h l :
  wp lock_step (createBody env a)
     (fun r l1 s1 => match r with Ok _ => s1 = [] | Throw _ => lock_inv l1 s1 end) h l [].
Proof.
  destruct l as [b c p k]. unfold createBody, createContext.
  wp_locks; lock_solve.
Qed.

Lemma createInstanceForEmail_locks env a h l :
  wp lock_step (createInstanceForEmail env a) (fun _ _ s1 => s1 = []) h l [].
Proof.
  unfold createInstanceForEmail. apply wp_try_catch.
  eapply wp_mono; [|apply createBody_locks].
  intros r [b c p k] s1 I1. destruct r as [i|e]; [exact I1|].
  intros h1. unfold cleanup. wp_locks; lock_solve.
Qed.

(** C4: whatever the pool and the browser answer, and whatever the arguments
    and the history, when createInstanceForEmail returns no context lock is
    held: every release callback that acquireContextLock handed out during
    the call has been invoked, on the paths that succeed as on those that
    retry, rethrow or clean up. *)
Theorem no_context_lock_left_held (env : Env) (a : Args) (h : list event) :
  let evs := snd (run (createInstanceForEmail env a) h) in
  locks evs [] = [] /\
  forall b k, In (AcquireContextLock b k) evs -> In (ReleaseLock k) evs.
Proof.
  pose proof (createInstanceForEmail_locks env a h initLocals) as W.
  unfold wp in W. unfold run. cbv zeta.
  destruct (createInstanceForEmail env a h initLocals) as [[r l1] evs].
  simpl. split; [exact W|].
  intros b k I.
  destruct (acquired_then_held_or_released evs [] b k I) as [J|J]; [|exact J].
  unfold locks in J. rewrite W in J. destruct J.
Qed.

(** *** The borrowed handles *)

Ltac borrow_solve :=
  unfold borrow_inv in *; cbn in *;
  repeat match goal with
         | H : _ \/ _ |- _ => destruct H
         | H : _ /\ _ |- _ => destruct H
         | H : exists _, _ |- _ => destruct H
         | H : Some _ = Some _ |- _ => injection H as H
         | H : length ?s = 1 |- _ =>
             destruct s as [|? [|? ?]]; [discriminate H| |discriminate H]; clear H
         | H1 : ?x = Some _, H2 : ?x = Some _ |- _ =>
             rewrite H1 in H2; injection H2 as H2
         | H1 : ?x = Some _, H2 : ?x = None |- _ =>
             rewrite H1 in H2; discriminate H2
         end;
  subst; cbn in *;
  repeat match goal with
         | H : ?x = Some _ |- context [?x] => rewrite H; cbn
         | |- context [match ?x with _ => _ end] => is_var x; destruct x; cbn in *
         end;
  rewrite ?Nat.eqb_refl; try discriminate; eauto.

Lemma attempt_borrow env tz h l s :
  holds l s ->
  wp borrow_step (attempt env tz)
     (fun r l1 s1 => match r with Ok _ => holds l1 s1 | Throw _ => borrow_inv l1 s1 end)
     h l s.
Proof.
  intros [b0 [Hb ->]]. destruct l as [b c p k]. cbn in Hb. subst b. unfold attempt, holds.
  wp_run; borrow_solve.
Qed.

Lemma retryLoop_borrow env tz retries : forall h l s,
  holds l s ->
  wp borrow_step (retryLoop env tz retries)
     (fun r l1 s1 => match r with Ok _ => holds l1 s1 | Throw _ => s1 = [] end) h l s.
Proof.
  induction retries as [|n IH]; intros h l s I; simpl retryLoop.
  - now apply wp_ret.
  - apply wp_try_catch.
    eapply wp_mono; [|apply attempt_borrow; exact I].
    intros r [b c p k] s1 I1. destruct r as [[]|e]; [exact I1|].
    intros h1. wp_run; try (apply IH); unfold holds; borrow_solve.
Qed.

Ltac wp_borrow :=
  repeat (first
    [ wp_rule
    | match goal with
      | |- wp _ (retryLoop _ _ _) _ _ _ _ =>
          eapply wp_mono; [|apply retryLoop_borrow; unfold holds; borrow_solve]
      end ];
    cbn beta iota delta [browser context page releaseLock]).

Lemma createBody_borrow env a h l :
  wp borrow_step (createBody env a)
     (fun r l1 s1 => match r with Ok i => keeps_handle i s1 | Throw _ => borrow_inv l1 s1 end)
     h l [].
Proof.
  destruct l as [b c p k]. unfold createBody, createContext.
  wp_borrow; unfold keeps_handle, holds in *; borrow_solve.
Qed.

Lemma createInstanceForEmail_borrow env a h l :
  wp borrow_step (createInstanceForEmail env a)
     (fun r _ s1 =>
        match r with
        | Ok (Some inst) => keeps_handle (Some inst) s1
        | Ok None => s1 = []
        | Throw _ => False
        end) h l [].
Proof.
  unfold createInstanceForEmail. apply wp_try_catch.
  eapply wp_mono; [|apply createBody_borrow].
  intros r [b c p k] s1 I1. destruct r as [i|e].
  - destruct i; [exact I1|destruct I1].
  - intros h1. unfold cleanup. wp_borrow; borrow_solve.
Qed.

(** C5: whatever the pool and the browser answer, createInstanceForEmail
    never throws; when it returns null no handle is left on loan: every
    handle that getBrowser handed out during the call has been passed to
    releaseBrowser after it; when it returns an instance the only handle
    still on loan is the one of the instance. *)
Theorem failed_creation_strands_no_handle (env : Env) (a : Args) (h : list event) :
  match run (createInstanceForEmail env a) h with
  | (Ok None, evs) =>
      borrowed evs [] = [] /\
      forall b, In (GetBrowser (Ok b)) evs -> In (ReleaseBrowser (Some b)) evs
  | (Ok (Some inst), evs) => exists b, inst_browser inst = Some b /\ borrowed evs [] = [b]
  | (Throw _, _) => False
  end.
Proof.
  pose proof (createInstanceForEmail_borrow env a h initLocals) as W.
  unfold wp in W. unfold run.
  destruct (createInstanceForEmail env a h initLocals) as [[r l1] evs].
  destruct r as [[inst|]|e]; try exact W.
  split; [exact W|].
  intros b I.
  destruct (borrowed_then_out_or_returned evs [] b I) as [J|J]; [|exact J].
  unfold borrowed in J. rewrite W in J. destruct J.
Qed.

(** *** The retry budget, the back-off and the retry policy *)

Lemma attempt_count env tz h l s :
  wp attempt_step (attempt env tz) (fun _ _ s1 => s1 <= S s) h l s.
Proof. unfold attempt. wp_run; cbn; lia. Qed.

Lemma retryLoop_count env tz retries : forall h l s,
  wp attempt_step (retryLoop env tz retries) (fun _ _ s1 => s1 <= s + retries) h l s.
Proof.
  induction retries as [|n IH]; intros h l s; simpl retryLoop.
  - apply wp_ret. lia.
  - apply wp_try_catch.
    eapply wp_mono; [|apply attempt_count].
    intros r l1 s1 I1. destruct r as [[]|e]; [lia|].
    intros h1.
    wp_run; try (eapply wp_mono; [|apply IH]; cbn; intros); cbn; lia.
Qed.

Lemma createInstanceForEmail_count env a h l :
  wp attempt_step (createInstanceForEmail env a) (fun _ _ s1 => s1 <= 3) h l 0.
Proof.
  unfold createInstanceForEmail, createBody, createContext, cleanup.
  repeat (first
    [ wp_rule
    | match goal with
      | |- wp _ (retryLoop _ _ _) _ _ _ _ => eapply wp_mono; [|apply retryLoop_count]
      end ];
    cbn beta iota delta [browser context page releaseLock]);
  cbn in *; lia.
Qed.

Lemma attempt_pace env tz h l :
  wp pace_step (attempt env tz) (fun _ _ s1 => s1 <> TooFast) h l Rested.
Proof. unfold attempt. wp_run; cbn; discriminate. Qed.

Lemma retryLoop_pace env tz retries : forall h l,
  wp pace_step (retryLoop env tz retries) (fun _ _ s1 => s1 <> TooFast) h l Rested.
Proof.
  induction retries as [|n IH]; intros h l; simpl retryLoop.
  - apply wp_ret. discriminate.
  - apply wp_try_catch.
    eapply wp_mono; [|apply attempt_pace].
    intros r l1 s1 I1. destruct r as [[]|e]; [exact I1|].
    intros h1.
    wp_run;
      try (destruct s1; try congruence; cbn; first [apply IH | discriminate]).
Qed.

Lemma createInstanceForEmail_pace env a h l :
  wp pace_step (createInstanceForEmail env a) (fun _ _ s1 => s1 <> TooFast) h l Rested.
Proof.
  unfold createInstanceForEmail, createBody, createContext, cleanup.
  repeat (first
    [ wp_rule
    | match goal with
      | |- wp _ (retryLoop _ _ _) _ _ _ _ => eapply wp_mono; [|apply retryLoop_pace]
      end ];
    cbn beta iota delta [browser context page releaseLock]);
  cbn in *; try discriminate;
  repeat match goal with
         | |- context [match ?x with _ => _ end] => is_var x; destruct x; cbn in *
         end; congruence.
Qed.

Lemma retryable_closed e n : retryable e n = true -> closed_message e = true.
Proof.
  unfold retryable, closed_message. intros H.
  apply andb_true_iff in H. destruct H as [H _].
  apply andb_true_iff in H. now destruct H.
Qed.

(** A failure that is not retried: the lock and the handle are released and
    the error is thrown again, nothing else. *)
Lemma retryLoop_rethrows env tz n h l e l1 evs1 :
  attempt env tz h l = (Throw e, l1, evs1) ->
  closed_message e = false \/ n = 0 ->
  retryLoop env tz (S n) h l =
    (Throw e, l1,
     ReleaseBrowser (browser l1)
       :: match releaseLock l1 with Some k => [ReleaseLock k] | None => [] end ++ evs1).
Proof.
  intros A N.
  assert (R : retryable e n = false).
  { unfold retryable. destruct N as [C| ->].
    - unfold closed_message in C. rewrite C. now rewrite andb_false_r.
    - now rewrite andb_false_r. }
  simpl retryLoop. unfold try_catch. rewrite A, R.
  unfold bind, callReleaseLock, releaseBrowser, throw.
  destruct (releaseLock l1); reflexivity.
Qed.

Ltac policy_solve :=
  unfold failed_with in *; cbn in *;
  repeat match goal with
         | H : _ \/ _ |- _ => destruct H
         | H : _ /\ _ |- _ => destruct H
         | |- context [closed_message ?e] => destruct (closed_message e) eqn:?; cbn in *
         end;
  subst; cbn in *; try congruence; auto.

Lemma attempt_policy env tz h l :
  wp policy_step (attempt env tz)
     (fun r _ s1 => match r with Ok _ => s1 = Fine | Throw e => failed_with e s1 end)
     h l Fine.
Proof. unfold attempt. wp_run; policy_solve. Qed.

Lemma retryLoop_policy env tz retries : forall h l,
  wp policy_step (retryLoop env tz retries) (fun _ _ s1 => s1 <> Violated) h l Fine.
Proof.
  induction retries as [|n IH]; intros h l; simpl retryLoop.
  - apply wp_ret. discriminate.
  - apply wp_try_catch.
    eapply wp_mono; [|apply attempt_policy].
    intros r l1 s1 I1. destruct r as [[]|e]; [subst; discriminate|].
    intros h1. destruct (retryable e n) eqn:R.
    + apply retryable_closed in R.
      assert (s1 = Fine) as -> by (destruct I1 as [|[_ C]]; congruence).
      wp_run; cbn; first [apply IH | policy_solve].
    + wp_run; policy_solve.
Qed.

Lemma createInstanceForEmail_policy env a h l :
  wp policy_step (createInstanceForEmail env a) (fun _ _ s1 => s1 <> Violated) h l Fine.
Proof.
  unfold createInstanceForEmail, createBody, createContext, cleanup.
  repeat (first
    [ wp_rule
    | match goal with
      | |- wp _ (retryLoop _ _ _) _ _ _ _ => eapply wp_mono; [|apply retryLoop_policy]
      end ];
    cbn beta iota delta [browser context page releaseLock]);
  cbn in *;
  repeat match goal with
         | s : verdict |- _ => destruct s; cbn in *
         | |- context [closed_message ?e] => destruct (closed_message e) eqn:?; cbn in *
         | |- context [match ?x with _ => _ end] => is_var x; destruct x; cbn in *
         end; congruence.
Qed.

(** C3: whatever the pool and the browser answer, a call of
    createInstanceForEmail calls newContext at most 3 times, never twice
    without a Sleep of 100 ms in between, and never goes on with the sequence
    after a call has failed with a message that lacks "has been closed"; an
    attempt that fails with such a message, or as the last of the budget, is
    not retried: the loop releases the lock and the handle and throws the
    error again. *)
Theorem bounded_retry_policy (env : Env) (a : Args) (h : list event) :
  let evs := snd (run (createInstanceForEmail env a) h) in
  attempts evs <= 3 /\ pacing evs <> TooFast /\ policy evs <> Violated /\
  forall tz n h1 l e l1 evs1,
    attempt env tz h1 l = (Throw e, l1, evs1) ->
    includes (message e) "has been closed" = false \/ n = 0 ->
    retryLoop env tz (S n) h1 l =
      (Throw e, l1,
       ReleaseBrowser (browser l1)
         :: match releaseLock l1 with Some k => [ReleaseLock k] | None => [] end ++ evs1).
Proof.
  pose proof (createInstanceForEmail_count env a h initLocals) as W1.
  pose proof (createInstanceForEmail_pace env a h initLocals) as W2.
  pose proof (createInstanceForEmail_policy env a h initLocals) as W3.
  unfold wp in *. unfold run. cbv zeta.
  destruct (createInstanceForEmail env a h initLocals) as [[r l1] evs].
  simpl. repeat split; auto.
  intros. now apply retryLoop_rethrows.
Qed.

Lemma bounded_retry_policy_witness :
  retryLoop env_failing None 3 [AcquireContextLock 0 1; GetBrowser (Ok 0)]
    (mkLocals (Some 0) None None (Some 1)) =
  (Throw (Error "browser.newContext: out of memory"),
   mkLocals (Some 0) None None (Some 1),
   [ReleaseBrowser (Some 0); ReleaseLock 1;
    NewContext 0 "America/Chicago" (Throw (Error "browser.newContext: out of memory"));
    IsConnected 0 true]).
Proof.
  destruct (bounded_retry_policy env_failing args0 []) as (_ & _ & _ & R).
  apply (R None 2 [AcquireContextLock 0 1; GetBrowser (Ok 0)]
           (mkLocals (Some 0) None None (Some 1))
           (Error "browser.newContext: out of memory")
           (mkLocals (Some 0) None None (Some 1))
           [NewContext 0 "America/Chicago" (Throw (Error "browser.newContext: out of memory"));
            IsConnected 0 true]); [reflexivity|left; reflexivity].
Defined.

(** *** What a failed creation yields *)

Lemma page_seen_in evs :
  fold_right page_step false evs = true -> exists c p, In (NewPage c (Ok p)) evs.
Proof.
  induction evs as [|ev evs IH]; simpl; [discriminate|].
  intros H.
  destruct ev; try (destruct (IH H) as (c0 & p0 & I); exists c0, p0; now right).
  destruct r as [p1|e].
  - exists c, p1. now left.
  - destruct (IH H) as (c0 & p0 & I). exists c0, p0. now right.
Qed.

Ltac page_solve :=
  unfold page_inv in *; cbn in *; intros;
  repeat match goal with
         | H : ?x <> None -> _, E : ?x = Some _ |- _ =>
             rewrite E in H; specialize (H ltac:(discriminate))
         | H : Some _ <> None -> _ |- _ => specialize (H ltac:(discriminate))
         end;
  subst; cbn in *; try congruence; auto.

Lemma attempt_page env tz h l s :
  page_inv l s ->
  wp page_step (attempt env tz) (fun _ l1 s1 => page_inv l1 s1) h l s.
Proof.
  intros I. destruct l as [b c p k]. unfold attempt.
  wp_run; page_solve.
Qed.

Lemma retryLoop_page env tz retries : forall h l s,
  page_inv l s ->
  wp page_step (retryLoop env tz retries) (fun _ l1 s1 => page_inv l1 s1) h l s.
Proof.
  induction retries as [|n IH]; intros h l s I; simpl retryLoop.
  - now apply wp_ret.
  - apply wp_try_catch.
    eapply wp_mono; [|apply attempt_page; exact I].
    intros r [b c p k] s1 I1. destruct r as [[]|e]; [exact I1|].
    intros h1. wp_run; try (apply IH); page_solve.
Qed.

Lemma createInstanceForEmail_page env a h :
  wp page_step (createInstanceForEmail env a)
     (fun r _ s1 =>
        match r with
        | Ok (Some _) => s1 = true
        | Ok None => True
        | Throw _ => False
        end)
     h initLocals false.
Proof.
  unfold createInstanceForEmail, createBody, createContext, cleanup.
  repeat (first
    [ wp_rule
    | match goal with
      | |- wp _ (retryLoop _ _ _) _ _ _ _ =>
          eapply wp_mono; [|apply retryLoop_page; page_solve]
      end ];
    cbn beta iota delta [browser context page releaseLock]);
  page_solve.
Qed.

Lemma cleanupInstance_page env key h l :
  wp page_step (cleanupInstance env key) (fun _ _ s1 => s1 = true) h l true.
Proof.
  unfold wp, cleanupInstance.
  destruct (env_registry env h key) as [i|]; [|reflexivity].
  destruct (inst_context i), (inst_page i); reflexivity.
Qed.

Lemma bookWith_page env a date time h l :
  wp page_step (bookWith env a date time None)
     (fun r _ s1 =>
        s1 = false -> r = Throw (Error "Failed to create browser instance"))
     h l false.
Proof.
  unfold bookWith. apply wp_bind. apply wp_bind. apply wp_call.
  eapply wp_mono; [|apply createInstanceForEmail_page].
  intros r l1 s1 I1. destruct r as [[i|]|e]; cbn beta iota in I1.
  - intros h1. rewrite I1. unfold registerInstance, taskPageIsClosed.
    repeat (first
      [ wp_rule
      | match goal with
        | |- wp _ (cleanupInstance _ _) _ _ _ _ =>
            eapply wp_mono; [|apply cleanupInstance_page]
        end ];
      cbn beta iota delta [browser context page releaseLock]);
    cbn in *; intros; subst; congruence.
  - intros h1. apply wp_throw. reflexivity.
  - destruct I1.
Qed.

Lemma no_page_seen evs :
  (forall c p, ~ In (NewPage c (Ok p)) evs) -> fold_right page_step false evs = false.
Proof.
  intros H. destruct (fold_right page_step false evs) eqn:E; [|reflexivity].
  destruct (page_seen_in evs E) as (c & p & I). destruct (H c p I).
Qed.

(** C2, amended: when every attempt at context creation fails, that is when
    no page is created, createInstanceForEmail returns null, and the booking
    task that found no session to reuse then fails with a plain Error,
    "Failed to create browser instance". *)
Theorem failed_creation_is_null_then_plain_error (env : Env) (a : Args) (h : list event) :
  ((forall c p, ~ In (NewPage c (Ok p)) (snd (run (createInstanceForEmail env a) h))) ->
   fst (run (createInstanceForEmail env a) h) = Ok None)
  /\
  (forall date time l0 evs0,
     lookupInstance env (email a) h initLocals = (Ok None, l0, evs0) ->
     (forall c p, ~ In (NewPage c (Ok p)) (snd (run (bookingTask env a date time) h))) ->
     fst (run (bookingTask env a date time) h) =
       Throw (Error "Failed to create browser instance")).
Proof.
  split.
  - intros H.
    pose proof (createInstanceForEmail_page env a h) as W.
    unfold wp in W. unfold run in *.
    destruct (createInstanceForEmail env a h initLocals) as [[r l1] evs].
    simpl in *. rewrite (no_page_seen evs H) in W.
    destruct r as [[i|]|e]; [discriminate W|reflexivity|destruct W].
  - intros date time l0 evs0 L H.
    pose proof (bookWith_page env a date time (evs0 ++ h) l0) as W.
    unfold wp in W. unfold run, bookingTask, bind in *. rewrite L in *.
    destruct (bookWith env a date time None (evs0 ++ h) l0) as [[r l1] evs].
    simpl in *. apply W. apply no_page_seen.
    intros c p I. apply (H c p). apply in_or_app. now left.
Qed.

Lemma failed_creation_is_null_then_plain_error_witness :
  attempts (snd (run (createInstanceForEmail env_closed args0) [])) = 3 /\
  fst (run (createInstanceForEmail env_closed args0) []) = Ok None /\
  fst (run (bookingTask env_closed args0 "2025-11-13" "1:25 PM") []) =
    Throw (Error "Failed to create browser instance").
Proof.
  split; [reflexivity|].
  destruct (failed_creation_is_null_then_plain_error env_closed args0 []) as [A B].
  split.
  - apply A. intros c p I. vm_compute in I.
    repeat (destruct I as [I|I]; [discriminate I|]). exact I.
  - apply (B "2025-11-13" "1:25 PM" initLocals []); [reflexivity|].
    intros c p I. vm_compute in I.
    repeat (destruct I as [I|I]; [discriminate I|]). exact I.
Defined.

(** C2, as stated, fails: with a browser whose newContext fails three times
    with "has been closed", the whole retry budget is spent, and session
    creation ends with null from createInstanceForEmail and a plain Error
    from the booking task; no error of the class SessionCreationError is
    thrown. *)
Lemma exhausted_budget_is_no_SessionCreationError :
  attempts (snd (run (createInstanceForEmail env_closed args0) [])) = 3 /\
  (forall c p, ~ In (NewPage c (Ok p)) (snd (run (createInstanceForEmail env_closed args0) []))) /\
  fst (run (createInstanceForEmail env_closed args0) []) = Ok None /\
  fst (run (bookingTask env_closed args0 "2025-11-13" "1:25 PM") []) =
    Throw (mkError "Error" "Failed to create browser instance") /\
  ~ (exists msg,
       fst (run (bookingTask env_closed args0 "2025-11-13" "1:25 PM") []) =
         Throw (mkError "SessionCreationError" msg)).
Proof.
  split; [reflexivity|]. split.
  { intros c p I. vm_compute in I.
    repeat (destruct I as [I|I]; [discriminate I|]). exact I. }
  split; [reflexivity|]. split; [reflexivity|].
  intros [msg H]. vm_compute in H. discriminate H.
Qed.

(** *** The connectivity check *)

Ltac check_solve :=
  cbn in *;
  repeat match goal with
         | r : bool |- _ => destruct r; cbn in *; try discriminate
         | s : inspection |- _ => destruct s; cbn in *
         end;
  repeat match goal with
         | |- context [(?a =? ?b)%nat] => destruct (Nat.eqb_spec a b); cbn
         end;
  congruence.

Lemma attempt_check env tz h l s :
  s <> Unsafe ->
  wp check_step (attempt env tz) (fun _ _ s1 => s1 <> Unsafe) h l s.
Proof. intros I. unfold attempt. wp_run; check_solve. Qed.

Lemma retryLoop_check env tz retries : forall h l s,
  s <> Unsafe ->
  wp check_step (retryLoop env tz retries) (fun _ _ s1 => s1 <> Unsafe) h l s.
Proof.
  induction retries as [|n IH]; intros h l s I; simpl retryLoop.
  - now apply wp_ret.
  - apply wp_try_catch.
    eapply wp_mono; [|apply attempt_check; exact I].
    intros r l1 s1 I1. destruct r as [[]|e]; [exact I1|].
    intros h1. wp_run; try (apply IH); check_solve.
Qed.

Lemma createInstanceForEmail_check env a h l :
  wp check_step (createInstanceForEmail env a) (fun _ _ s1 => s1 <> Unsafe) h l Unasked.
Proof.
  unfold createInstanceForEmail, createBody, createContext, cleanup.
  repeat (first
    [ wp_rule
    | match goal with
      | |- wp _ (retryLoop _ _ _) _ _ _ _ =>
          eapply wp_mono; [|apply retryLoop_check; check_solve]
      end ];
    cbn beta iota delta [browser context page releaseLock]);
  check_solve.
Qed.

(** C6, amended: the connectivity check is made once per attempt, on the
    handle held when the attempt starts, and not on a replacement.  In a
    call of createInstanceForEmail every context is created either on the
    handle that the last check found connected, or on the handle that the
    pool gave in place of the one that the last check found disconnected;
    that replacement is not asked.  An attempt starts by asking the handle
    it holds whether it is connected.  If it is, the context is created on
    that handle.  If it is not, the attempt releases the context lock,
    returns the handle to the pool, takes a replacement and its context
    lock, and creates the context on the replacement: the outcome of the
    attempt is that of newContext and newPage on the replacement, the
    disconnect itself raises nothing. *)
Theorem disconnected_handle_is_replaced (env : Env) (tz : option string)
    (h : list event) (l : Locals) (b : handle) (k : lockId) :
  browser l = Some b ->
  releaseLock l = Some k ->
  (forall a h0, checking (snd (run (createInstanceForEmail env a) h0)) <> Unsafe) /\
  (exists evs, snd (attempt env tz h l) = evs ++ [IsConnected b (env_isConnected env h b)]) /\
  (env_isConnected env h b = true ->
   attempt env tz h l = createOn env tz h [IsConnected b true] b l) /\
  (forall b2,
     env_isConnected env h b = false ->
     env_getBrowser env ([ReleaseBrowser (Some b); ReleaseLock k; IsConnected b false] ++ h)
       = Ok b2 ->
     attempt env tz h l =
       createOn env tz h (swap h b k b2) b2
         (mkLocals (Some b2) (context l) (page l) (Some (4 + length h)))).
Proof.
  intros Hb Hk. destruct l as [b0 c0 p0 k0]. cbn in Hb, Hk. subst b0 k0.
  assert (Conn : env_isConnected env h b = true ->
    attempt env tz h (mkLocals (Some b) c0 p0 (Some k)) =
      createOn env tz h [IsConnected b true] b (mkLocals (Some b) c0 p0 (Some k))).
  { intros C. unfold attempt, createOn, bind, the_browser, isConnected, newContext,
      set_context, newPage, set_page, ret. cbn. rewrite C. cbn.
    destruct (env_newContext env (IsConnected b true :: h) b (browserTimezone tz)) as [c|e];
      cbn; [|reflexivity].
    destruct (env_newPage env _ c) as [p|e]; reflexivity. }
  assert (Disc : forall b2,
    env_isConnected env h b = false ->
    env_getBrowser env ([ReleaseBrowser (Some b); ReleaseLock k; IsConnected b false] ++ h)
      = Ok b2 ->
    attempt env tz h (mkLocals (Some b) c0 p0 (Some k)) =
      createOn env tz h (swap h b k b2) b2
        (mkLocals (Some b2) c0 p0 (Some (4 + length h)))).
  { intros b2 C G. cbn in G.
    unfold attempt, createOn, swap, bind, the_browser, isConnected, callReleaseLock,
      releaseBrowser, getBrowser, set_browser, acquireContextLock, set_releaseLock,
      newContext, set_context, newPage, set_page, ret.
    cbn. rewrite C. cbn. rewrite G. cbn.
    destruct (env_newContext env _ b2 (browserTimezone tz)) as [c|e]; cbn; [|reflexivity].
    destruct (env_newPage env _ c) as [p|e]; reflexivity. }
  split.
  { intros a h0.
    pose proof (createInstanceForEmail_check env a h0 initLocals) as W.
    unfold wp in W. unfold run, checking.
    destruct (createInstanceForEmail env a h0 initLocals) as [[r l1] evs].
    exact W. }
  split; [|split; [exact Conn|exact Disc]].
  destruct (env_isConnected env h b) eqn:C.
  - rewrite (Conn eq_refl). unfold createOn.
    destruct (env_newContext env _ b (browserTimezone tz)) as [c|e]; cbn.
    + destruct (env_newPage env _ c) as [p|e]; cbn; eexists [_; _]; reflexivity.
    + eexists [_]; reflexivity.
  - destruct (env_getBrowser env
      ([ReleaseBrowser (Some b); ReleaseLock k; IsConnected b false] ++ h)) as [b2|e] eqn:G.
    + rewrite (Disc b2 eq_refl eq_refl). unfold createOn, swap.
      destruct (env_newContext env _ b2 (browserTimezone tz)) as [c|e]; cbn.
      * destruct (env_newPage env _ c) as [p|e]; cbn;
          eexists [_; _; _; _; _; _]; reflexivity.
      * eexists [_; _; _; _; _]; reflexivity.
    + cbn in G.
      unfold attempt, bind, the_browser, isConnected, callReleaseLock,
        releaseBrowser, getBrowser. cbn. rewrite C. cbn. rewrite G. cbn.
      eexists [_; _; _]; reflexivity.
Qed.

Lemma disconnected_handle_is_replaced_witness :
  attempt env_disconnected None [AcquireContextLock 0 1; GetBrowser (Ok 0)]
    (mkLocals (Some 0) None None (Some 1)) =
  (Ok tt, mkLocals (Some 5) (Some 7) (Some 8) (Some 6),
   [NewPage 7 (Ok 8); NewContext 5 "America/Chicago" (Ok 7);
    AcquireContextLock 5 6; GetBrowser (Ok 5);
    ReleaseBrowser (Some 0); ReleaseLock 1; IsConnected 0 false]).
Proof.
  destruct (disconnected_handle_is_replaced env_disconnected None
              [AcquireContextLock 0 1; GetBrowser (Ok 0)]
              (mkLocals (Some 0) None None (Some 1)) 0 1 eq_refl eq_refl)
    as [_ [_ [_ D]]].
  rewrite (D 5 eq_refl eq_refl). reflexivity.
Defined.

(** C6, as stated, fails: the check is not made on every handle on which a
    context is created.  When the pool hands out disconnected handles, the
    first handle is found disconnected and replaced, and the context is
    created on the replacement, which is disconnected too and was never
    asked; the call returns an instance on that handle. *)
Lemma replacement_handle_is_not_checked :
  let '(r, evs) := run (createInstanceForEmail env_unplugged args0) [] in
  r = Ok (Some (mkInstance (Some 5) (Some 7) (Some 8))) /\
  In (NewContext 5 "America/Chicago" (Ok 7)) evs /\
  (forall c, ~ In (IsConnected 5 c) evs) /\
  contexts_checked evs = false /\
  (forall h, env_isConnected env_unplugged h 5 = false).
Proof.
  vm_compute. split; [reflexivity|]. split; [tauto|]. split; [|split; reflexivity].
  intros c I. repeat (destruct I as [I|I]; [discriminate I|]). exact I.
Qed.

(** *** The monitors on sample runs *)

Example run_with_disconnected_handle :
  run (createInstanceForEmail env_disconnected args0) [] =
  (Ok (Some (mkInstance (Some 5) (Some 7) (Some 8))),
   [Navigate 8 "https://example.chilipiper.com/book" (Ok tt); ReleaseLock 6;
    NewPage 7 (Ok 8); NewContext 5 "America/Chicago" (Ok 7);
    AcquireContextLock 5 6; GetBrowser (Ok 5);
    ReleaseBrowser (Some 0); ReleaseLock 1; IsConnected 0 false;
    AcquireContextLock 0 1; GetBrowser (Ok 0)]).
Proof. reflexivity. Qed.

Example run_with_closed_browser :
  let evs := snd (run (createInstanceForEmail env_closed args0) []) in
  attempts evs = 3 /\ pacing evs = Tried /\ policy evs = Fine /\
  locks evs [] = [] /\ borrowed evs [] = [].
Proof. repeat split; reflexivity. Qed.

Example run_with_failing_browser :
  let evs := snd (run (createInstanceForEmail env_failing args0) []) in
  attempts evs = 1 /\ policy evs = Fatal /\ locks evs [] = [] /\ borrowed evs [] = [].
Proof. repeat split; reflexivity. Qed.

Example monitors_tell :
  locks [AcquireContextLock 0 1; GetBrowser (Ok 0)] [] = [1] /\
  borrowed [AcquireContextLock 0 1; GetBrowser (Ok 0)] [] = [0] /\
  pacing [NewContext 0 "UTC" (Ok 2); NewContext 0 "UTC" (Throw closedError)] = TooFast /\
  policy [NewContext 0 "UTC" (Ok 2); Sleep 100; NewContext 0 "UTC" (Throw (Error "boom"))]
    = Violated.
Proof. repeat split; reflexivity. Qed.

End SessionFacts.

(** ** The registry key of a booking *)

Module RegistryFacts.
Import Js BookSlot Trace Invariants Samples Logic.
Local Open Scope list_scope.

Ltac key_solve :=
  cbn in *; rewrite ?String.eqb_refl, ?andb_true_r; auto.

Lemma attempt_keys key env tz h l s :
  wp (key_step key) (attempt env tz) (fun _ _ s1 => s1 = s) h l s.
Proof. unfold attempt. wp_run; key_solve. Qed.

Lemma retryLoop_keys key env tz retries : forall h l s,
  wp (key_step key) (retryLoop env tz retries) (fun _ _ s1 => s1 = s) h l s.
Proof.
  induction retries as [|n IH]; intros h l s; simpl retryLoop.
  - now apply wp_ret.
  - apply wp_try_catch.
    eapply wp_mono; [|apply attempt_keys].
    intros r l1 s1 I1. cbn beta in I1. subst s1. destruct r as [[]|e]; [reflexivity|].
    intros h1. wp_run; try (apply IH); key_solve.
Qed.

Lemma createInstanceForEmail_keys key env a h l s :
  wp (key_step key) (createInstanceForEmail env a) (fun _ _ s1 => s1 = s) h l s.
Proof.
  unfold createInstanceForEmail, createBody, createContext, cleanup.
  repeat (first
    [ wp_rule
    | match goal with
      | |- wp _ (retryLoop _ _ _) _ _ _ _ => eapply wp_mono; [|apply retryLoop_keys]
      end ];
    cbn beta iota delta [browser context page releaseLock]);
  cbn in *; intros; subst; auto.
Qed.

Lemma cleanupInstance_keys env key h l s :
  wp (key_step key) (cleanupInstance env key) (fun _ _ s1 => s1 = s) h l s.
Proof.
  unfold wp, cleanupInstance.
  destruct (env_registry env h key) as [i|]; [|reflexivity].
  destruct (inst_context i), (inst_page i); cbn;
    now rewrite String.eqb_refl, andb_true_r.
Qed.

Lemma bookingTask_keys env a date time h l :
  wp (key_step (email a)) (bookingTask env a date time) (fun _ _ s1 => s1 = true) h l true.
Proof.
  unfold bookingTask, lookupInstance, getExistingInstance, bookWith,
    registerInstance, taskPageIsClosed.
  repeat (first
    [ wp_rule
    | match goal with
      | |- wp _ (cleanupInstance _ _) _ _ _ _ =>
          eapply wp_mono; [|apply cleanupInstance_keys]
      | |- wp _ (createInstanceForEmail _ _) _ _ _ _ =>
          eapply wp_mono; [|apply createInstanceForEmail_keys]
      end ];
    cbn beta iota delta [browser context page releaseLock]);
  cbn in *; intros; subst; rewrite ?String.eqb_refl; auto.
Qed.

Lemma keyed_by_register key evs k i :
  keyed_by key evs = true -> In (RegisterInstance k i) evs -> k = key.
Proof.
  unfold keyed_by. induction evs as [|ev evs IH]; simpl; [tauto|].
  intros K [E|I].
  - subst ev. simpl in K. apply andb_true_iff in K. destruct K as [_ K].
    now apply String.eqb_eq in K.
  - apply IH; [|exact I].
    destruct ev; simpl in K; auto; apply andb_true_iff in K; tauto.
Qed.

Lemma keyed_by_cleanup key evs k :
  keyed_by key evs = true -> In (CleanupInstance k) evs -> k = key.
Proof.
  unfold keyed_by. induction evs as [|ev evs IH]; simpl; [tauto|].
  intros K [E|I].
  - subst ev. simpl in K. apply andb_true_iff in K. destruct K as [_ K].
    now apply String.eqb_eq in K.
  - apply IH; [|exact I].
    destruct ev; simpl in K; auto; apply andb_true_iff in K; tauto.
Qed.

(** C7 on the code: the booking task registers and cleans up under the
    email as it is, also when it is empty; the generated token of line 581
    differs from the empty string and is the key of neither.  At a booking
    without email the session is registered, and cleaned up, under the empty
    string. *)
Theorem booking_without_email_key :
  (forall env a date time h k,
     (forall i, In (RegisterInstance k i) (snd (run (bookingTask env a date time) h)) ->
                k = email a) /\
     (In (CleanupInstance k) (snd (run (bookingTask env a date time) h)) -> k = email a)) /\
  (forall now, instanceKey "" now <> "") /\
  email args0 = "" /\
  instanceKey (email args0) 1763040000000 = "booking_1763040000000" /\
  let evs := snd (run (bookingTask env_ok args0 "2025-11-13" "1:25 PM") []) in
  In (RegisterInstance "" (mkInstance (Some 0%nat) (Some 3%nat) (Some 4%nat))) evs /\
  In (CleanupInstance "") evs /\
  (forall i, ~ In (RegisterInstance "booking_1763040000000" i) evs) /\
  ~ In (CleanupInstance "booking_1763040000000") evs.
Proof.
  assert (G : forall env a date time h,
             keyed_by (email a) (snd (run (bookingTask env a date time) h)) = true).
  { intros env a date time h.
    pose proof (bookingTask_keys env a date time h initLocals) as W.
    unfold wp in W. unfold run, keyed_by.
    destruct (bookingTask env a date time h initLocals) as [[r l1] evs]. exact W. }
  split.
  { intros env a date time h k. split.
    - intros i. apply keyed_by_register, G.
    - apply keyed_by_cleanup, G. }
  split; [intros now0; cbn; discriminate|].
  split; [reflexivity|]. split; [reflexivity|].
  cbv zeta.
  assert (E : snd (run (bookingTask env_ok args0 "2025-11-13" "1:25 PM") []) =
    [CleanupInstance ""; ReleaseBrowser (Some 0%nat); ContextClose 3%nat; PageClose 4%nat;
     Interact (Some 4%nat) "2025-11-13" "1:25 PM" (Ok tt); PageIsClosed 4%nat false;
     RegisterInstance "" (mkInstance (Some 0%nat) (Some 3%nat) (Some 4%nat));
     Navigate 4%nat "https://example.chilipiper.com/book" (Ok tt);
     ReleaseLock 1%nat; NewPage 3%nat (Ok 4%nat);
     NewContext 0%nat "America/Chicago" (Ok 3%nat);
     IsConnected 0%nat true; AcquireContextLock 0%nat 1%nat; GetBrowser (Ok 0%nat)])
    by (vm_compute; reflexivity).
  rewrite E. clear E G.
  repeat split.
  - simpl. tauto.
  - simpl. tauto.
  - intros i H. simpl in H. repeat (destruct H as [H|H]; [discriminate H|]). exact H.
  - intros H. simpl in H. repeat (destruct H as [H|H]; [discriminate H|]). exact H.
Qed.

Example booking_with_email_key :
  let evs := snd (run (bookingTask env_ok args1 "2025-11-13" "1:25 PM") []) in
  In (GetExistingInstance "ada@example.com") evs /\
  In (RegisterInstance "ada@example.com"
        (mkInstance (Some 1%nat) (Some 4%nat) (Some 5%nat))) evs /\
  In (CleanupInstance "ada@example.com") evs /\
  registry evs !! "ada@example.com" = None.
Proof. vm_compute. tauto. Qed.

End RegistryFacts.

(** ** The get-slots route: date order and the unread max_slots *)

Module GetSlotsMoreFacts.
Import Js GetSlots GetSlotsDates.
Local Open Scope list_scope.

Lemma digit_bounds c :
  is_digit c = true -> 0 <= Z.of_nat (nat_of_ascii c) - 48 <= 9.
Proof.
  unfold is_digit. intros H. apply andb_true_iff in H. destruct H as [A B].
  apply Nat.leb_le in A. apply Nat.leb_le in B. lia.
Qed.

(** A string that passes the date pattern is ten characters: digits with a
    dash after the fourth and after the sixth. *)
Lemma dateRegex_shape s :
  dateRegex s = true ->
  exists c1 c2 c3 c4 c5 c6 c7 c8,
    s = String c1 (String c2 (String c3 (String c4 (String "-"
          (String c5 (String c6 (String "-" (String c7 (String c8 "")))))))))
    /\ is_digit c1 = true /\ is_digit c2 = true /\ is_digit c3 = true
    /\ is_digit c4 = true /\ is_digit c5 = true /\ is_digit c6 = true
    /\ is_digit c7 = true /\ is_digit c8 = true.
Proof.
  unfold dateRegex.
  destruct s as [|c1 [|c2 [|c3 [|c4 s]]]]; simpl; try discriminate;
    try (destruct (is_digit c1); discriminate);
    try (destruct (is_digit c1), (is_digit c2); discriminate);
    try (destruct (is_digit c1), (is_digit c2), (is_digit c3); discriminate).
  destruct (is_digit c1) eqn:D1; [|discriminate].
  destruct (is_digit c2) eqn:D2; [|discriminate].
  destruct (is_digit c3) eqn:D3; [|discriminate].
  destruct (is_digit c4) eqn:D4; [|discriminate].
  destruct s as [|d s]; [discriminate|].
  destruct (Ascii.eqb_spec d "-") as [->|N].
  2:{ intros H. exfalso. destruct d as [[] [] [] [] [] [] [] []]; try discriminate H.
      now apply N. }
  destruct s as [|c5 [|c6 s]]; simpl; try discriminate;
    try (destruct (is_digit c5); discriminate).
  destruct (is_digit c5) eqn:D5; [|discriminate].
  destruct (is_digit c6) eqn:D6; [|discriminate].
  destruct s as [|d s]; [discriminate|].
  destruct (Ascii.eqb_spec d "-") as [->|N].
  2:{ intros H. exfalso. destruct d as [[] [] [] [] [] [] [] []]; try discriminate H.
      now apply N. }
  destruct s as [|c7 [|c8 s]]; simpl; try discriminate;
    try (destruct (is_digit c7); discriminate).
  destruct (is_digit c7) eqn:D7; [|discriminate].
  destruct (is_digit c8) eqn:D8; [|discriminate].
  destruct s; [|discriminate].
  intros _. exists c1, c2, c3, c4, c5, c6, c7, c8. repeat split; auto.
Qed.

(** X1: on two dates that pass the YYYY-MM-DD pattern, the string comparison
    start_date > end_date of the range check is the calendar order of their
    years, months and days. *)
Theorem range_check_is_calendar_order (a b : string) :
  dateRegex a = true -> dateRegex b = true ->
  str_gt a b = laterDate a b.
Proof.
  intros Ha Hb.
  destruct (dateRegex_shape a Ha)
    as (a1 & a2 & a3 & a4 & a5 & a6 & a7 & a8 & -> & A1 & A2 & A3 & A4 & A5 & A6 & A7 & A8).
  destruct (dateRegex_shape b Hb)
    as (b1 & b2 & b3 & b4 & b5 & b6 & b7 & b8 & -> & B1 & B2 & B3 & B4 & B5 & B6 & B7 & B8).
  apply digit_bounds in A1, A2, A3, A4, A5, A6, A7, A8, B1, B2, B3, B4, B5, B6, B7, B8.
  unfold laterDate, yearOf, monthOf, dayOf, digitAt. cbn [String.get].
  cbn [str_gt].
  repeat match goal with
         | |- context [(?x <? ?y)%nat] => destruct (Nat.ltb_spec x y)
         end;
  repeat match goal with
         | |- context [(?x <? ?y)%Z] => destruct (Z.ltb_spec x y)
         | |- context [(?x =? ?y)%Z] => destruct (Z.eqb_spec x y)
         end; cbn; try reflexivity; exfalso; lia.
Qed.

Lemma range_check_is_calendar_order_witness :
  str_gt "2026-02-01" "2026-01-31" = true /\ laterDate "2026-02-01" "2026-01-31" = true.
Proof.
  split; [reflexivity|].
  rewrite <- (range_check_is_calendar_order "2026-02-01" "2026-01-31");
    reflexivity.
Defined.

(** X2: a max_slots that parseInt reads as NaN or as 0 (as "all", "abc" or
    "0") is treated by the handler as no max_slots: the request is not
    rejected for it and, for the same outcome of the scraping task, the
    response is the one of the request without the field, with every
    scraped slot. *)
Theorem unread_max_slots_is_no_limit (body : Body) (executed : ScrapingResult + string)
    (s : string) :
  max_slots body = Some s ->
  truthy (parseInt s) = false ->
  POST (Some body) executed = POST (Some (withoutMaxSlots body)) executed.
Proof.
  intros Hs Ht.
  assert (V : validate body = validate (withoutMaxSlots body)).
  { unfold validate, withoutMaxSlots. cbn [max_days max_slots_per_day max_slots
      start_date end_date body_timezone]. rewrite Hs.
    replace (outOfRange (optInt (Some s)) 1 100) with false; [reflexivity|].
    unfold outOfRange, optInt. destruct (String.eqb s ""); [reflexivity|].
    now rewrite Ht. }
  unfold POST. rewrite <- V.
  destruct (validate body); [reflexivity|].
  destruct executed as [res|msg]; [|reflexivity].
  destruct (negb (success res)); [reflexivity|].
  f_equal. cbn [withoutMaxSlots body_timezone max_slots]. rewrite Hs. f_equal.
  unfold limitSlots, optInt. destruct (String.eqb s ""); [reflexivity|].
  destruct (data res) as [d|]; [|reflexivity].
  destruct (slots d); [|reflexivity]. now rewrite Ht.
Qed.

Lemma unread_max_slots_is_no_limit_witness :
  POST (Some unlimitedBody) (inl sampleResult) =
    Success (Some (mkData (Int 1) (Int 3) (Some sampleSlots) None None)).
Proof.
  rewrite (unread_max_slots_is_no_limit unlimitedBody (inl sampleResult) "all");
    reflexivity.
Defined.

End GetSlotsMoreFacts.

(** ** The booking task: what it leaves behind *)

Module TaskFacts.
Import Js BookSlot Trace Invariants Samples Logic TaskTrace.
Local Open Scope list_scope.
Local Open Scope nat_scope.

Lemma registry_app evs h : registry (evs ++ h) = fold_right reg_step (registry h) evs.
Proof.
  induction evs as [|ev evs IH]; simpl; [reflexivity|].
  destruct ev; simpl; rewrite ?IH; reflexivity.
Qed.

Lemma account_fold evs out m :
  fold_right account_step (out, m) evs =
  (fold_right borrow_step out evs, fold_right reg_step m evs).
Proof.
  induction evs as [|ev evs IH]; simpl; [reflexivity|]. now rewrite IH.
Qed.

(** Every postcondition that holds of all outcomes holds of a run. *)
Lemma wp_any {S A} (step : event -> S -> S) (m : M A)
    (Q : result A -> Locals -> S -> Prop) h l s :
  (forall r l1 s1, Q r l1 s1) -> wp step m Q h l s.
Proof. intros H. unfold wp. destruct (m h l) as [[r l1] evs]. apply H. Qed.

Lemma attempt_pool env tz h l s :
  wp pool_step (attempt env tz) (fun _ _ s1 => s1 = s) h l s.
Proof.
  unfold attempt. destruct s; wp_run; reflexivity.
Qed.

Lemma retryLoop_pool env tz retries : forall h l s,
  wp pool_step (retryLoop env tz retries) (fun _ _ s1 => s1 = s) h l s.
Proof.
  induction retries as [|n IH]; intros h l s; simpl retryLoop.
  - now apply wp_ret.
  - apply wp_try_catch.
    eapply wp_mono; [|apply attempt_pool].
    intros r l1 s1 I1. cbn beta in I1. subst s1. destruct r as [[]|e]; [reflexivity|].
    intros h1. destruct s; wp_run; try (apply IH); reflexivity.
Qed.

Lemma createInstanceForEmail_pool env a h l s :
  wp pool_step (createInstanceForEmail env a) (fun _ _ s1 => s1 = s) h l s.
Proof.
  unfold createInstanceForEmail, createBody, createContext, cleanup.
  destruct s;
  repeat (first
    [ wp_rule
    | match goal with
      | |- wp _ (retryLoop _ _ _) _ _ _ _ => eapply wp_mono; [|apply retryLoop_pool]
      end ];
    cbn beta iota delta [browser context page releaseLock]);
  cbn in *; intros; subst; reflexivity.
Qed.

Lemma pool_events_only evs :
  fold_right pool_step true evs = true -> Forall (fun ev => pool_event ev = true) evs.
Proof.
  induction evs as [|ev evs IH]; simpl; [constructor|].
  unfold pool_step at 1. intros H. apply andb_true_iff in H. destruct H as [H1 H2].
  constructor; auto.
Qed.

Lemma reg_step_pool evs m :
  Forall (fun ev => pool_event ev = true) evs -> fold_right reg_step m evs = m.
Proof.
  induction 1 as [|ev evs P _ IH]; simpl; [reflexivity|].
  rewrite IH. destruct ev; simpl in P; try discriminate; reflexivity.
Qed.

(** Session creation as the task sees it: the registry is untouched; no
    handle is on loan after a null, the handle of the instance after a
    success. *)
Lemma createInstanceForEmail_account env a h l m :
  wp account_step (createInstanceForEmail env a)
     (fun r _ s =>
        snd s = m /\
        match r with
        | Ok (Some inst) => exists b, inst_browser inst = Some b /\ fst s = [b]
        | Ok None => fst s = []
        | Throw _ => False
        end) h l ([], m).
Proof.
  pose proof (SessionFacts.createInstanceForEmail_borrow env a h l) as B.
  pose proof (createInstanceForEmail_pool env a h l true) as P.
  unfold wp in *.
  destruct (createInstanceForEmail env a h l) as [[r l1] evs].
  rewrite account_fold. cbn [fst snd]. split.
  - apply reg_step_pool, pool_events_only, P.
  - destruct r as [[inst|]|e]; exact B.
Qed.

(** *** Rules that keep the history in view *)

(** With the events themselves as the monitor, started from the events [s]
    since a history [h0], the monitor state is what the next step reads as
    its history. *)
Lemma log_fold evs s : fold_right log_step s evs = evs ++ s.
Proof. induction evs as [|ev evs IH]; simpl; [reflexivity|]. now rewrite IH. Qed.

Lemma lwp_bind {A B} h0 (m : M A) (f : A -> M B)
    (Q : result B -> Locals -> list event -> Prop) l s :
  wp log_step m (fun r l1 s1 =>
                   match r with
                   | Ok a => wp log_step (f a) Q (s1 ++ h0) l1 s1
                   | Throw e => Q (Throw e) l1 s1
                   end) (s ++ h0) l s ->
  wp log_step (bind m f) Q (s ++ h0) l s.
Proof.
  unfold wp, bind. destruct (m (s ++ h0) l) as [[r l1] e1].
  rewrite log_fold. destruct r as [a|e]; [|now rewrite log_fold].
  rewrite <- app_assoc.
  destruct (f a (e1 ++ s ++ h0) l1) as [[r2 l2] e2].
  rewrite !log_fold. now rewrite app_assoc.
Qed.

(** What holds of the run itself holds in the logic. *)
Lemma lwp_run {A} (m : M A) (Q : result A -> Locals -> list event -> Prop) h l s :
  (forall r l1 evs, m h l = (r, l1, evs) -> Q r l1 (evs ++ s)) ->
  wp log_step m Q h l s.
Proof.
  intros H. unfold wp. destruct (m h l) as [[r l1] evs] eqn:E.
  rewrite log_fold. now apply H.
Qed.

Lemma lwp_cleanupInstance env key h0 (Q : result unit -> Locals -> list event -> Prop) l s :
  match env_registry env (s ++ h0) key with
  | Some i =>
      Q (Ok tt) l
        (([CleanupInstance key; ReleaseBrowser (inst_browser i)]
            ++ match inst_context i with Some c => [ContextClose c] | None => [] end
            ++ match inst_page i with Some p => [PageClose p] | None => [] end) ++ s)
  | None => Q (Ok tt) l s
  end ->
  wp log_step (cleanupInstance env key) Q (s ++ h0) l s.
Proof.
  unfold wp, cleanupInstance.
  destruct (env_registry env (s ++ h0) key) as [i|]; [|auto].
  now rewrite log_fold.
Qed.

Lemma registered_pool evs :
  Forall (fun ev => pool_event ev = true) evs -> registered evs = false.
Proof.
  induction 1 as [|ev evs P _ IH]; [reflexivity|].
  unfold registered in *. cbn [existsb]. rewrite IH.
  destruct ev; simpl in P; try discriminate; reflexivity.
Qed.

(** Session creation inside the task: it leaves the registry as it was, and
    on loan the handle of the instance it returns, if any. *)
Lemma lwp_createInstanceForEmail env a h0
    (Q : result (option Instance) -> Locals -> list event -> Prop) l s :
  borrowed s [] = [] ->
  (forall r evs,
     registered (evs ++ s) = registered s ->
     registry ((evs ++ s) ++ h0) = registry (s ++ h0) ->
     match r with
     | Some inst => exists b, inst_browser inst = Some b /\ borrowed (evs ++ s) [] = [b]
     | None => borrowed (evs ++ s) [] = []
     end ->
     Q (Ok r) l (evs ++ s)) ->
  wp log_step (call (createInstanceForEmail env a)) Q (s ++ h0) l s.
Proof.
  intros B H.
  pose proof (createInstanceForEmail_account env a (s ++ h0) initLocals
                (registry (s ++ h0))) as A.
  pose proof (createInstanceForEmail_pool env a (s ++ h0) initLocals true) as P.
  unfold wp, call in *.
  destruct (createInstanceForEmail env a (s ++ h0) initLocals) as [[r l1] evs].
  rewrite account_fold in A. cbn [fst snd] in A. destruct A as [A1 A2].
  apply pool_events_only in P.
  rewrite log_fold.
  assert (B2 : borrowed (evs ++ s) [] = fold_right borrow_step [] evs).
  { unfold borrowed in *. now rewrite fold_right_app, B. }
  destruct r as [r|e]; [|contradiction].
  apply H.
  - unfold registered. rewrite existsb_app. fold (registered evs).
    now rewrite (registered_pool evs P).
  - now rewrite <- app_assoc, registry_app.
  - rewrite B2. destruct r; exact A2.
Qed.

Ltac lwp_rule :=
  lazymatch goal with
  | |- wp log_step (bind _ _) _ (_ ++ _) _ _ => apply lwp_bind
  | |- wp log_step (call (createInstanceForEmail _ _)) _ (_ ++ _) _ _ =>
      apply lwp_createInstanceForEmail
  | |- wp log_step (cleanupInstance _ _) _ (_ ++ _) _ _ => apply lwp_cleanupInstance
  | |- wp log_step (bind _ _) _ _ _ _ => fail
  | |- _ => wp_rule
  end.

Ltac lwp_run :=
  repeat (lwp_rule; cbn beta iota delta [browser context page releaseLock]).




(** The task from the page check on: it leaves the failure condition as it
    found it, and the clean-up at its end settles the account. *)
Lemma task_tail env a date time h0 pg l s :
  undisturbed env (email a) ->
  (if registered s then stranded env a h0 s else borrowed s [] = []) ->
  wp log_step
     (closed <- taskPageIsClosed env pg ;;
      (if closed then throw (Error "Browser page was closed") else ret tt) ;;;
      interact env pg date time ;;;
      cleanupInstance env (email a) ;;;
      ret (date, time))
     (fun r _ s1 => settled env a h0 r s1) (s ++ h0) l s.
Proof.
  intros U P. unfold undisturbed in U. unfold stranded in P. rewrite U in P.
  assert (K : forall evs,
             registered (evs ++ s) = registered s ->
             registry ((evs ++ s) ++ h0) = registry (s ++ h0) ->
             borrowed (evs ++ s) [] = borrowed s [] ->
             if registered (evs ++ s) then stranded env a h0 (evs ++ s)
             else borrowed (evs ++ s) [] = []).
  { intros evs E1 E2 E3. rewrite E1. unfold stranded. rewrite U, E2, E3. exact P. }
  unfold taskPageIsClosed.
  lwp_run; unfold log_step, settled in *.
  - (* the page is closed *)
    apply (K [PageIsClosed _ _]); reflexivity.
  - (* the clicks went through, the entry is cleaned up *)
    match goal with H : env_registry _ _ _ = Some ?i |- _ => rename H into R; rename i into i0 end.
    rewrite U in R. cbn [app registry] in R.
    assert (B : borrowed
                  (([CleanupInstance (email a); ReleaseBrowser (inst_browser i0)]
                      ++ match inst_context i0 with Some c => [ContextClose c] | None => [] end
                      ++ match inst_page i0 with Some p => [PageClose p] | None => [] end)
                     ++ Interact (Some p) date time (Ok a0) :: PageIsClosed p false :: s) [] =
                borrow_step (ReleaseBrowser (inst_browser i0)) (borrowed s [])).
    { destruct (inst_context i0), (inst_page i0); reflexivity. }
    split.
    + rewrite B. destruct (registered s).
      * destruct P as (i & b & P1 & P2 & P3). rewrite R in P1. injection P1 as <-.
        rewrite P3, P2. cbn. now rewrite Nat.eqb_refl.
      * rewrite P. cbn. now destruct (inst_browser i0).
    + rewrite U. cbn [app registry]. apply lookup_delete_eq.
  - (* the clicks went through, no entry *)
    match goal with H : env_registry _ _ _ = None |- _ => rename H into R end.
    split; [|exact R]. rewrite U in R. cbn [app registry] in R.
    destruct (registered s) eqn:G.
    + destruct P as (i & b & P1 & _). rewrite R in P1. discriminate.
    + exact P.
  - (* the clicks failed *)
    apply (K [Interact _ _ _ _; PageIsClosed _ _]); reflexivity.
  - (* no page *)
    unfold stranded. rewrite U. exact P.
Qed.


(** *** The instance returned *)

Ltac attempted_solve :=
  unfold attempted, log_step in *; cbn in *;
  repeat match goal with
         | H : exists _, _ |- _ => destruct H
         | H : _ /\ _ |- _ => destruct H
         | H : ?x = Some _, H' : ?x = Some _ |- _ => rewrite H in H'; injection H' as ->
         | H : browser ?l = Some _ |- context [browser ?l] => rewrite H
         | H : releaseLock ?l = Some _ |- context [releaseLock ?l] => rewrite H
         end;
  subst; cbn in *;
  first [ exact I | congruence | discriminate | do 5 eexists; split; reflexivity | idtac ].

Lemma attempt_attempted env tz h l s :
  releaseLock l <> None ->
  wp log_step (attempt env tz)
     (fun r l1 s1 => match r with
                     | Ok _ => attempted (browserTimezone tz) l1 s1
                     | Throw _ => True
                     end) h l s.
Proof.
  intros K. unfold attempt. destruct (releaseLock l) eqn:E; [|congruence].
  wp_run; attempted_solve.
Qed.

Lemma retryLoop_attempted env tz retries : forall h l s,
  releaseLock l <> None ->
  wp log_step (retryLoop env tz retries)
     (fun r l1 s1 => match r with
                     | Ok _ => retries = 0 \/ attempted (browserTimezone tz) l1 s1
                     | Throw _ => True
                     end) h l s.
Proof.
  induction retries as [|n IH]; intros h l s K; simpl retryLoop.
  - apply wp_ret. now left.
  - apply wp_try_catch.
    eapply wp_mono; [|apply attempt_attempted; exact K].
    intros r l1 s1 I1. cbn beta in I1. destruct r as [[]|e]; [now right|].
    intros h1. destruct (retryable e n) eqn:R.
    + assert (N : n <> 0).
      { unfold retryable in R. apply andb_true_iff in R. destruct R as [_ R].
        apply Nat.ltb_lt in R. lia. }
      wp_run; try exact I.
      all: eapply wp_mono; [|apply IH; cbn; discriminate].
      all: intros r2 l2 s2 I2; cbn beta in I2; destruct r2; [|exact I].
      all: right; destruct I2 as [I2|I2]; [contradiction|exact I2].
    + wp_run; exact I.
Qed.

Lemma wp_const {S A} (step : event -> S -> S) (r : result A)
    (Q : result A -> Locals -> S -> Prop) h l s :
  Q r l s -> wp step (fun _ l => (r, l, [])) Q h l s.
Proof. intros H. exact H. Qed.

Lemma createInstanceForEmail_coherent env a h l s :
  wp log_step (createInstanceForEmail env a)
     (fun r _ s1 => match r with
                    | Ok (Some inst) => coherent env a inst s1
                    | _ => True
                    end) h l s.
Proof.
  unfold createInstanceForEmail, createBody, createContext, cleanup.
  repeat (first
    [ match goal with
      | |- wp _ (retryLoop _ _ _) _ _ _ _ =>
          eapply wp_mono; [|apply retryLoop_attempted; cbn; discriminate]
      | |- wp _ (fun _ l => (env_buildUrl _ _, l, [])) _ _ _ _ => apply wp_const
      end
    | wp_rule ];
    cbn beta iota delta [browser context page releaseLock]).
  all: try exact I.
  all: match goal with H : _ \/ attempted _ _ _ |- _ => destruct H as [H|H]; [discriminate|] end.
  all: destruct H as (b & c & p1 & k1 & older & -> & ->); cbn in *.
  all: try discriminate.
  all: unfold coherent, log_step.
  all: repeat match goal with
              | H : Some _ = Some _ |- _ => injection H as <-
              | u : unit |- _ => destruct u
              end.
  all: do 6 eexists; split; [eassumption|split; reflexivity].
Qed.


(** *** The account of the task *)

Lemma lookupInstance_account env key h0 l :
  wp log_step (lookupInstance env key)
     (fun r _ s1 => match r with
                    | Ok _ => registered s1 = false /\ borrowed s1 [] = []
                    | Throw _ => False
                    end) ([] ++ h0) l [].
Proof.
  unfold lookupInstance, getExistingInstance.
  lwp_run; unfold log_step; cbn [app];
    repeat match goal with
           | |- context [inst_context ?i] => destruct (inst_context i)
           | |- context [inst_page ?i] => destruct (inst_page i)
           | |- context [inst_browser ?i] => destruct (inst_browser i)
           end; split; reflexivity.
Qed.

Lemma bookWith_settles env a date time h0 instance l s :
  undisturbed env (email a) ->
  registered s = false -> borrowed s [] = [] ->
  wp log_step (bookWith env a date time instance)
     (fun r _ s1 => settled env a h0 r s1) (s ++ h0) l s.
Proof.
  intros U G B. unfold bookWith. apply lwp_bind. destruct instance as [i|].
  - apply wp_ret. cbn beta iota. apply task_tail; [exact U|]. now rewrite G.
  - apply lwp_bind. apply lwp_createInstanceForEmail; [exact B|].
    intros r evs R1 R2 R3. destruct r as [i|]; cbn beta iota.
    + apply lwp_bind. unfold registerInstance. apply wp_emit. cbn beta iota.
      apply wp_ret. cbn beta iota. apply task_tail; [exact U|].
      unfold log_step. cbn [registered existsb is_register orb].
      destruct R3 as (b & R3 & R4). exists i, b. split; [|split; [exact R3|exact R4]].
      rewrite U. cbn [app registry]. apply lookup_insert_eq.
    + apply wp_throw. unfold settled. now rewrite R1, G.
Qed.



Lemma bookingTask_settles env a date time h :
  undisturbed env (email a) ->
  wp log_step (bookingTask env a date time)
     (fun r _ s1 => settled env a h r s1) ([] ++ h) initLocals [].
Proof.
  intros U. unfold bookingTask. apply lwp_bind.
  eapply wp_mono; [|apply lookupInstance_account].
  intros r l1 s1 I1. cbn beta in I1. destruct r as [instance|e]; [|contradiction].
  destruct I1 as [G B]. now apply bookWith_settles.
Qed.

(** X3: a booking task that no other request disturbs settles its account.
    The registry is one object shared by all requests, and the task awaits
    between its registration and its clean-up.  Provided that no other
    request writes to the registry under the email of the task while it
    runs, then, from any history and with any answers of the pool, the
    browser and the page: when the task returns, no handle that it borrowed
    is still on loan and the registry has no entry under the email; when it
    throws after having registered its session, that session is still
    registered under the email and its handle is the one handle on loan
    (nothing in the task cleans up after a failure); when it throws without
    having registered one, no handle is on loan.  Without the proviso the
    property fails, see [disturbed_booking_leaks_handle]. *)
Theorem booking_task_settles (env : Env) (a : Args) (date time : string)
    (h : list event) :
  undisturbed env (email a) ->
  let '(r, evs) := run (bookingTask env a date time) h in
  settled env a h r evs.
Proof.
  intros U.
  pose proof (bookingTask_settles env a date time h U) as W.
  unfold wp, run in *. cbn [app] in W.
  destruct (bookingTask env a date time h initLocals) as [[r l1] evs].
  now rewrite log_fold, app_nil_r in W.
Qed.

Lemma booking_task_settles_witness :
  undisturbed env_ok (email args1) /\
  let '(r, evs) := run (bookingTask env_ok args1 "2025-11-13" "1:25 PM") [] in
  settled env_ok args1 [] r evs.
Proof.
  split; [intros h; reflexivity|].
  apply (booking_task_settles env_ok args1 "2025-11-13" "1:25 PM" []).
  intros h; reflexivity.
Defined.

(** When a second request registers its session under the same email
    between the registration and the clean-up of the task, the clean-up
    takes that session out of the registry: the task returns with success
    and its own handle stays on loan. *)
Example disturbed_booking_leaks_handle :
  let '(r, evs) := run (bookingTask env_shared args1 "2025-11-13" "1:25 PM") [] in
  r = Ok ("2025-11-13", "1:25 PM") /\
  In (ReleaseBrowser (inst_browser otherInstance)) evs /\
  borrowed evs [] = [1%nat].
Proof. vm_compute. repeat split; auto. Qed.

(** X4: the instance that [createInstanceForEmail] returns is the outcome of
    its last attempt.  Whatever retries and handle replacements came before,
    the newest events are: the context created on the handle of the
    instance, with the browser time zone of the arguments; the page of the
    instance created in that context; the release of the lock; the
    navigation of that page to the URL built from the arguments, which
    succeeded.  All three fields of the instance are set. *)
Theorem instance_of_last_attempt (env : Env) (a : Args) (h : list event)
    (inst : Instance) (evs : list event) :
  run (createInstanceForEmail env a) h = (Ok (Some inst), evs) ->
  coherent env a inst evs.
Proof.
  intros R.
  pose proof (createInstanceForEmail_coherent env a h initLocals []) as W.
  unfold wp, run in *.
  destruct (createInstanceForEmail env a h initLocals) as [[r l1] evs1].
  injection R as -> ->. now rewrite log_fold, app_nil_r in W.
Qed.

Lemma instance_of_last_attempt_witness :
  exists inst evs,
    run (createInstanceForEmail env_ok args1) [] = (Ok (Some inst), evs) /\
    coherent env_ok args1 inst evs.
Proof.
  eexists. eexists. split.
  - vm_compute. reflexivity.
  - apply (instance_of_last_attempt env_ok args1 []). vm_compute. reflexivity.
Defined.






(** A booking whose clicks fail leaves its session registered, with its
    handle on loan. *)
Example failed_booking_strands_session :
  let '(r, evs) := run (bookingTask env_no_slot args1 "2025-11-13" "1:25 PM") [] in
  r = Throw (Error "Day button not found for date 2025-11-13") /\
  borrowed evs [] = [1%nat] /\
  registered evs = true.
Proof. vm_compute. repeat split; reflexivity. Qed.

End TaskFacts.

(** ** Strings: runs, searches and trimming *)

Module TextFacts.
Import Js TimezoneUtils BookSlot BookSlotText.
Local Open Scope string_scope.

Lemma append_nil_l s : String.append "" s = s.
Proof. reflexivity. Qed.

Lemma append_cons c a b : String.append (String c a) b = String c (String.append a b).
Proof. reflexivity. Qed.

Lemma append_nil_r s : String.append s "" = s.
Proof. induction s as [|c s IH]; [reflexivity|]. now rewrite append_cons, IH. Qed.

Lemma append_assoc a b c :
  String.append (String.append a b) c = String.append a (String.append b c).
Proof. induction a as [|x a IH]; [reflexivity|]. now rewrite !append_cons, IH. Qed.

Lemma all_chars_app p a b :
  all_chars p (String.append a b) = all_chars p a && all_chars p b.
Proof.
  induction a as [|c a IH]; [reflexivity|].
  rewrite append_cons. simpl. rewrite IH. now rewrite andb_assoc.
Qed.

(** A run splits the string, holds of all its characters, and stops at a
    character outside the class. *)
Lemma span_spec p s :
  s = String.append (fst (span p s)) (snd (span p s))
  /\ all_chars p (fst (span p s)) = true
  /\ match snd (span p s) with String c _ => p c = false | EmptyString => True end.
Proof.
  induction s as [|c s IH]; simpl; [auto|].
  destruct (p c) eqn:E.
  - destruct (span p s) as [a b]. simpl in *. destruct IH as (IH1 & IH2 & IH3).
    rewrite E. repeat split; auto. rewrite append_cons. now rewrite <- IH1.
  - simpl. auto.
Qed.

Lemma span_stop p w c r :
  all_chars p w = true -> p c = false ->
  span p (String.append w (String c r)) = (w, String c r).
Proof.
  intros W C. induction w as [|x w IH].
  - rewrite append_nil_l. simpl. now rewrite C.
  - simpl in W. apply andb_true_iff in W. destruct W as [X W].
    rewrite append_cons. simpl. rewrite X, IH by exact W. reflexivity.
Qed.

Lemma span_all p w : all_chars p w = true -> span p w = (w, "").
Proof.
  intros W. induction w as [|x w IH]; simpl; [reflexivity|].
  simpl in W. apply andb_true_iff in W. destruct W as [X W].
  now rewrite X, IH.
Qed.

(** What a search finds is at the end of a prefix of the string. *)
Lemma search_found {A} (f : string -> option A) s before x :
  search f s = Some (before, x) ->
  exists rest, s = String.append before rest /\ f rest = Some x.
Proof.
  revert before. induction s as [|c s IH]; intros before; simpl.
  - destruct (f "") eqn:E; [|discriminate]. intros H. injection H as <- <-.
    now exists "".
  - destruct (f (String c s)) eqn:E.
    + intros H. injection H as <- <-. now exists (String c s).
    + destruct (search f s) as [[b y]|]; [|discriminate].
      intros H. injection H as <- <-.
      destruct (IH b eq_refl) as (rest & -> & R). exists rest. now rewrite append_cons.
Qed.

Lemma search_none {A} (f : string -> option A) s :
  (forall a b, s = String.append a b -> f b = None) -> search f s = None.
Proof.
  induction s as [|c s IH]; intros H; simpl.
  - now rewrite (H "" "" eq_refl).
  - rewrite (H "" (String c s) eq_refl). rewrite IH; [reflexivity|].
    intros a b ->. apply (H (String c a) b). reflexivity.
Qed.

(** Skipping a prefix at none of whose positions the pattern matches. *)
Lemma search_skip {A} (f : string -> option A) q r :
  (forall a b, q = String.append a b -> b <> "" -> f (String.append b r) = None) ->
  search f (String.append q r) =
  match search f r with
  | Some (before, x) => Some (String.append q before, x)
  | None => None
  end.
Proof.
  induction q as [|c q IH]; intros H.
  - rewrite append_nil_l. now destruct (search f r) as [[b x]|].
  - rewrite append_cons. simpl.
    rewrite <- append_cons. rewrite (H "" (String c q) eq_refl) by discriminate.
    rewrite IH.
    + now destruct (search f r) as [[b x]|].
    + intros a b -> N. apply (H (String c a) b); [reflexivity|exact N].
Qed.


(** *** Character classes *)

Ltac by_chars c :=
  destruct c as [[] [] [] [] [] [] [] []]; vm_compute; intuition congruence.

Lemma digit_class c :
  is_digit c = true ->
  is_space c = false /\ is_letter c = false /\ is_sep c = false /\
  is_zone_char c = false /\ Ascii.eqb c "," = false /\ Ascii.eqb c ":" = false.
Proof. by_chars c. Qed.

Lemma letter_class c :
  is_letter c = true ->
  is_space c = false /\ is_digit c = false /\ Ascii.eqb c "," = false.
Proof. by_chars c. Qed.

Lemma letter_lower c : is_letter c = true -> is_lower (lower_char c) = true.
Proof. by_chars c. Qed.

Lemma lower_letter c : is_lower (lower_char c) = true -> is_letter c = true.
Proof. by_chars c. Qed.

Lemma lower_not_space c : is_lower (lower_char c) = true -> Ascii.eqb c " " = false.
Proof. by_chars c. Qed.

Lemma space_upper c : is_space (upper_char c) = is_space c.
Proof. by_chars c. Qed.

Lemma upper_lower_char c : upper_char (lower_char c) = upper_char c.
Proof. by_chars c. Qed.

Lemma upper_upper_char c : upper_char (upper_char c) = upper_char c.
Proof. by_chars c. Qed.

Lemma space_not_digit c : is_space c = true -> negb (is_digit c) = true.
Proof. by_chars c. Qed.

Lemma letter_not_digit c : is_letter c = true -> negb (is_digit c) = true.
Proof. by_chars c. Qed.

Lemma sep_not_digit c : is_sep c = true -> negb (is_digit c) = true.
Proof. by_chars c. Qed.

Lemma letter_no_slash c : is_letter c = true -> negb (Ascii.eqb c "/") = true.
Proof. by_chars c. Qed.

Lemma digit_no_slash c : is_digit c = true -> negb (Ascii.eqb c "/") = true.
Proof. by_chars c. Qed.

Lemma digit_not_at c :
  is_digit c = true -> Ascii.eqb (lower_char "a") (lower_char c) = false.
Proof. by_chars c. Qed.

Lemma letter_lower_char c : is_letter (lower_char c) = is_letter c.
Proof. by_chars c. Qed.

Lemma upper_char_A c : upper_char c = "A"%char -> c = "A"%char \/ c = "a"%char.
Proof. by_chars c. Qed.

Lemma upper_char_P c : upper_char c = "P"%char -> c = "P"%char \/ c = "p"%char.
Proof. by_chars c. Qed.

Lemma upper_char_M c : upper_char c = "M"%char -> c = "M"%char \/ c = "m"%char.
Proof. by_chars c. Qed.

Lemma all_chars_impl (p q : ascii -> bool) s :
  (forall c, p c = true -> q c = true) -> all_chars p s = true -> all_chars q s = true.
Proof.
  intros H. induction s as [|c s IH]; simpl; [reflexivity|].
  intros A. apply andb_true_iff in A. destruct A as [A B].
  now rewrite (H c A), IH.
Qed.

(** *** Trimming *)

Lemma trimEnd_keep w t :
  trimEnd t <> "" -> trimEnd (String.append w t) = String.append w (trimEnd t).
Proof.
  intros N. induction w as [|c w IH]; [reflexivity|].
  rewrite !append_cons. simpl. rewrite IH.
  destruct (String.append w (trimEnd t)) eqn:E; [|reflexivity].
  destruct w; [|discriminate]. rewrite append_nil_l in E. contradiction.
Qed.

Lemma trimEnd_comma y : trimEnd (String "," y) = String "," (trimEnd y).
Proof. simpl. now destruct (trimEnd y). Qed.

Lemma trimEnd_letters w : all_chars is_letter w = true -> trimEnd w = w.
Proof.
  induction w as [|c w IH]; simpl; [reflexivity|].
  intros A. apply andb_true_iff in A. destruct A as [A B].
  rewrite IH by exact B. destruct w; [|reflexivity].
  destruct (letter_class c A) as [-> _]. reflexivity.
Qed.

Lemma span_space_letter c r :
  is_letter c = true -> span is_space (String c r) = ("", String c r).
Proof. intros A. simpl. destruct (letter_class c A) as [-> _]. reflexivity. Qed.

(** *** Prefixes *)

Lemma app_prefix_cases before rest w c r :
  String.append before rest = String.append w (String c r) ->
  (exists x, w = String.append before x) \/
  (exists y, before = String.append w (String c y)).
Proof.
  revert w. induction before as [|b before IH]; intros w E.
  - left. now exists w.
  - destruct w as [|x w].
    + rewrite append_nil_l, append_cons in E. injection E as -> E.
      right. exists before. reflexivity.
    + rewrite !append_cons in E. injection E as -> E.
      destruct (IH w E) as [[y ->]|[y ->]].
      * left. exists y. reflexivity.
      * right. exists y. reflexivity.
Qed.

Lemma skip_prefix_ci_spec p s r :
  all_chars is_letter p = true ->
  skip_prefix_ci p s = Some r ->
  exists w, s = String.append w r /\ all_chars is_letter w = true /\
            String.length w = String.length p.
Proof.
  revert s. induction p as [|a p IH]; intros s A; simpl.
  - intros H. injection H as ->. now exists "".
  - simpl in A. apply andb_true_iff in A. destruct A as [A1 A2].
    destruct s as [|b s]; [discriminate|].
    destruct (Ascii.eqb_spec (lower_char a) (lower_char b)) as [E|E]; [|discriminate].
    intros H. destruct (IH s A2 H) as (w & -> & W1 & W2).
    exists (String b w). rewrite append_cons. repeat split.
    + simpl. rewrite W1. apply letter_lower in A1. rewrite E in A1.
      now rewrite (lower_letter b A1).
    + simpl. now rewrite W2.
Qed.


(** *** The weekday prefix *)

Lemma first_found {A B} (f : B -> option A) (l : list B) :
  forall init r,
  fold_left (fun found x => match found with Some _ => found | None => f x end) l init
    = Some r ->
  init = Some r \/ exists x, In x l /\ f x = Some r.
Proof.
  induction l as [|x l IH]; intros init r; simpl.
  - now left.
  - intros H. destruct (IH _ _ H) as [E|(y & Y1 & Y2)].
    + destruct init as [i|]; [now left|]. right. exists x. split; [now left|exact E].
    + right. exists y. split; [now right|exact Y2].
Qed.

Lemma none_found {A B} (f : B -> option A) (l : list B) :
  (forall x, In x l -> f x = None) ->
  fold_left (fun found x => match found with Some _ => found | None => f x end) l None
    = None.
Proof.
  induction l as [|x l IH]; intros H; simpl; [reflexivity|].
  rewrite (H x) by now left. apply IH. intros y Y. apply H. now right.
Qed.

(** The pattern [String "," r] on what is left after the weekday. *)
Lemma comma_head {A} (t : option string) (k : string -> A) (x : A) :
  match t with Some (String "," r) => Some (k r) | _ => None end = Some x ->
  exists r, t = Some (String "," r).
Proof.
  destruct t as [[|c r]|]; try discriminate.
  destruct c as [[] [] [] [] [] [] [] []]; try discriminate.
  intros _. now exists r.
Qed.

Lemma not_comma_head {A} (t : option string) (k : string -> A) :
  (forall r, t <> Some (String "," r)) ->
  match t with Some (String "," r) => Some (k r) | _ => None end = None.
Proof.
  intros N. destruct t as [[|c r]|]; try reflexivity.
  destruct c as [[] [] [] [] [] [] [] []]; try reflexivity.
  now destruct (N r).
Qed.

Lemma weekdays_letters day :
  In day ["Monday"; "Tuesday"; "Wednesday"; "Thursday"; "Friday"; "Saturday"; "Sunday"] ->
  all_chars is_letter day = true /\ day <> "".
Proof.
  intros H. repeat (destruct H as [<-|H]; [split; [reflexivity|discriminate]|]).
  destruct H.
Qed.

(** A string that [stripWeekday] changes starts with a word and a comma. *)
Lemma stripWeekday_changes s :
  stripWeekday s <> s ->
  exists c w r, s = String.append (String c w) (String "," r)
                /\ all_chars is_letter (String c w) = true.
Proof.
  set (f := fun day : string =>
              match skip_prefix_ci day s with
              | Some (String "," r) => Some (snd (span is_space r))
              | _ => None
              end).
  change (stripWeekday s) with
    (match fold_left (fun found x => match found with Some _ => found | None => f x end)
             ["Monday"; "Tuesday"; "Wednesday"; "Thursday"; "Friday"; "Saturday"; "Sunday"]
             None with
     | Some r => r
     | None => s
     end).
  destruct (fold_left _ _ _) as [r|] eqn:E; [|congruence].
  intros _. apply first_found in E. destruct E as [E|(day & D & E)]; [discriminate|].
  unfold f in E. apply comma_head in E. destruct E as (t & E).
  destruct (weekdays_letters day D) as [L N].
  destruct (skip_prefix_ci_spec day s _ L E) as (w & -> & W1 & W2).
  destruct w as [|c w]; [destruct day; [congruence|discriminate]|].
  now exists c, w, t.
Qed.


Lemma trim_letters w : all_chars is_letter w = true -> trim w = w.
Proof.
  intros L. unfold trim. destruct w as [|c w]; [reflexivity|].
  rewrite span_space_letter.
  - now apply trimEnd_letters.
  - simpl in L. now apply andb_true_iff in L.
Qed.

Lemma matchDate_word with_at w : all_chars is_letter w = true -> matchDate with_at w = None.
Proof.
  intros L. unfold matchDate. rewrite (span_all _ _ L). now destruct w.
Qed.

Lemma matchDate_word_comma with_at w y :
  all_chars is_letter w = true ->
  matchDate with_at (String.append w (String "," y)) = None.
Proof.
  intros L. unfold matchDate.
  rewrite (span_stop is_letter w "," y L eq_refl). now destruct w.
Qed.

(** *** Runs, step by step *)

Lemma span_cons_true p c r :
  p c = true -> span p (String c r) = (String c (fst (span p r)), snd (span p r)).
Proof. intros H. simpl. rewrite H. now destruct (span p r). Qed.

Lemma span_cons_false p c r : p c = false -> span p (String c r) = ("", String c r).
Proof. intros H. simpl. now rewrite H. Qed.

Lemma digits_upto_stop n w c r :
  all_chars is_digit w = true -> (String.length w <= n)%nat -> is_digit c = false ->
  digits_upto n (String.append w (String c r)) = (w, String c r).
Proof.
  revert n. induction w as [|x w IH]; intros n W L C.
  - rewrite append_nil_l. destruct n; simpl; [reflexivity|]. now rewrite C.
  - simpl in W. apply andb_true_iff in W. destruct W as [X W].
    destruct n as [|n]; [simpl in L; lia|].
    rewrite append_cons. simpl. rewrite X. rewrite IH; auto. simpl in L. lia.
Qed.

Lemma digits_upto_full n w r :
  all_chars is_digit w = true -> String.length w = n ->
  digits_upto n (String.append w r) = (w, r).
Proof.
  revert n. induction w as [|x w IH]; intros n W L.
  - rewrite append_nil_l. simpl in L. subst n. reflexivity.
  - simpl in W. apply andb_true_iff in W. destruct W as [X W].
    destruct n as [|n]; [discriminate|]. injection L as L.
    rewrite append_cons. simpl. rewrite X. now rewrite IH.
Qed.

(** *** The zone patterns *)

Lemma iana_at_slash t :
  all_chars (fun c => negb (Ascii.eqb c "/")) t = true -> iana_at t = None.
Proof.
  intros N. unfold iana_at.
  pose proof (span_spec is_space t) as (E1 & _ & _).
  destruct (span is_space t) as [sp r1]. cbn [fst snd] in E1.
  destruct sp as [|c0 sp]; [reflexivity|].
  pose proof (span_spec is_letter r1) as (E2 & _ & _).
  destruct (span is_letter r1) as [area r2]. cbn [fst snd] in E2.
  destruct area as [|c1 area]; [reflexivity|].
  destruct r2 as [|c r2]; [reflexivity|].
  destruct (Ascii.eqb_spec c "/") as [->|C].
  - exfalso. rewrite E1, E2, !all_chars_app in N. simpl in N.
    rewrite !andb_false_r in N. discriminate.
  - destruct c as [[] [] [] [] [] [] [] []]; try reflexivity. now destruct C.
Qed.

Lemma abbreviation_at_digit t :
  all_chars (fun c => negb (is_digit c)) t = false -> abbreviation_at t = None.
Proof.
  intros N. unfold abbreviation_at.
  pose proof (span_spec is_space t) as (E1 & A1 & _).
  destruct (span is_space t) as [sp r1]. cbn [fst snd] in E1, A1.
  destruct sp as [|c0 sp]; [reflexivity|].
  pose proof (span_spec is_letter r1) as (E2 & A2 & _).
  destruct (span is_letter r1) as [name r2]. cbn [fst snd] in E2, A2.
  destruct (all_chars is_sep r2) eqn:A3; [|now rewrite !andb_false_r].
  exfalso. rewrite E1, E2, !all_chars_app in N.
  rewrite (all_chars_impl is_space _ _ space_not_digit A1) in N.
  rewrite (all_chars_impl is_letter _ _ letter_not_digit A2) in N.
  rewrite (all_chars_impl is_sep _ _ sep_not_digit A3) in N.
  discriminate.
Qed.

(** The abbreviation pattern cannot match before a digit. *)
Lemma search_abbreviation_after_digit p d r :
  is_digit d = true ->
  search abbreviation_at (String.append p (String d r)) =
  match search abbreviation_at r with
  | Some (before, x) => Some (String.append p (String d before), x)
  | None => None
  end.
Proof.
  intros D.
  assert (F : forall q, abbreviation_at (String.append q (String d r)) = None).
  { intros q. apply abbreviation_at_digit. rewrite all_chars_app. simpl.
    rewrite D. simpl. now rewrite andb_false_r. }
  induction p as [|c p IH].
  - pose proof (F "") as F0. rewrite append_nil_l in *. cbn [search]. rewrite F0.
    now destruct (search abbreviation_at r) as [[b x]|].
  - pose proof (F (String c p)) as Fc. rewrite append_cons in *. cbn [search].
    rewrite Fc, IH.
    now destruct (search abbreviation_at r) as [[b x]|].
Qed.

Lemma letter_lower_not_space a :
  is_letter a = true -> Ascii.eqb (lower_char a) (lower_char " ") = false.
Proof. by_chars a. Qed.

Lemma skip_no_comma day : forall month rest r,
  all_chars is_letter day = true -> all_chars is_letter month = true ->
  skip_prefix_ci day (String.append month (String " " rest)) <> Some (String "," r).
Proof.
  induction day as [|a day IH]; intros month rest r D M.
  - simpl. destruct month as [|c month].
    + rewrite append_nil_l. discriminate.
    + rewrite append_cons. intros H. injection H as -> _. discriminate.
  - simpl in D. apply andb_true_iff in D. destruct D as [D1 D2].
    destruct month as [|c month].
    + rewrite append_nil_l. cbn [skip_prefix_ci].
      rewrite (letter_lower_not_space a D1). discriminate.
    + rewrite append_cons. cbn [skip_prefix_ci].
      simpl in M. apply andb_true_iff in M. destruct M as [_ M].
      destruct (Ascii.eqb (lower_char a) (lower_char c)); [|discriminate].
      now apply IH.
Qed.

(** A string that starts with a word and a space has no weekday to strip. *)
Lemma stripWeekday_word_space month rest :
  all_chars is_letter month = true ->
  stripWeekday (String.append month (String " " rest)) =
  String.append month (String " " rest).
Proof.
  intros M. set (s := String.append month (String " " rest)).
  set (f := fun day : string =>
              match skip_prefix_ci day s with
              | Some (String "," r) => Some (snd (span is_space r))
              | _ => None
              end).
  change (stripWeekday s) with
    (match fold_left (fun found x => match found with Some _ => found | None => f x end)
             ["Monday"; "Tuesday"; "Wednesday"; "Thursday"; "Friday"; "Saturday"; "Sunday"]
             None with
     | Some r => r
     | None => s
     end).
  rewrite none_found; [reflexivity|].
  intros day D. unfold f. apply not_comma_head. intros r.
  apply skip_no_comma; [|exact M]. now apply weekdays_letters.
Qed.

End TextFacts.

(** ** parseDateTime: what it accepts *)

Module ParseFacts.
Import Js TimezoneUtils BookSlot BookSlotText TextFacts.
Local Open Scope string_scope.

(** X6: a weekday in front and a time zone at the end do not go together.
    When [parseDateTime] takes a time zone from the end of the string it
    cuts it from the string as given, and the removal of the weekday is
    lost; the date pattern then meets the comma after the weekday.  So a
    string that starts with a weekday and a comma, and from which a zone is
    extracted, is rejected: the result is null. *)
Theorem weekday_and_zone_rejected (s : string) :
  stripWeekday s <> s ->
  extractedTz s <> None ->
  parseDateTime s = None.
Proof.
  intros W Z.
  destruct (stripWeekday_changes s W) as (c & w & r & E & L).
  assert (K : forall with_at before rest,
             s = String.append before rest -> matchDate with_at (trim before) = None).
  { intros with_at before rest R. rewrite E in R. symmetry in R.
    destruct (app_prefix_cases _ _ _ _ _ R) as [[x X]|[y ->]].
    - rewrite X, all_chars_app in L. apply andb_true_iff in L. destruct L as [L _].
      rewrite (trim_letters _ L). now apply matchDate_word.
    - unfold trim. rewrite append_cons, span_space_letter.
      2:{ simpl in L. now apply andb_true_iff in L. }
      cbn [snd]. rewrite <- append_cons, trimEnd_keep.
      2:{ rewrite trimEnd_comma. discriminate. }
      rewrite trimEnd_comma. now apply matchDate_word_comma. }
  unfold extractedTz in Z. unfold parseDateTime.
  destruct (search iana_at s) as [[before tz]|] eqn:S1.
  - apply search_found in S1. destruct S1 as (rest & R & _).
    now rewrite !(K _ before rest R).
  - destruct (search abbreviation_at s) as [[before tz]|] eqn:S2; [|congruence].
    destruct (String.eqb (toUpperCase tz) "AM" || String.eqb (toUpperCase tz) "PM");
      [congruence|].
    apply search_found in S2. destruct S2 as (rest & R & _).
    now rewrite !(K _ before rest R).
Qed.

Lemma weekday_and_zone_rejected_witness :
  parseDateTime "Tuesday, February 17, 2026 at 1:25 PM CST" = None.
Proof.
  apply weekday_and_zone_rejected; vm_compute; discriminate.
Defined.

(** Without the zone, or without the weekday, the same date is accepted. *)
Example weekday_or_zone_accepted :
  parseDateTime "Tuesday, February 17, 2026 at 1:25 PM" = Some ("2026-02-17", "1:25 PM") /\
  parseDateTime "February 17, 2026 at 1:25 PM CST" = Some ("2026-02-17", "1:25 PM").
Proof. split; vm_compute; reflexivity. Qed.


Lemma skip_at r : skip_prefix_ci "at" (String "a" (String "t" r)) = Some r.
Proof. reflexivity. Qed.

Lemma match12h_written hour minute ampm :
  all_chars is_digit hour = true -> (1 <= String.length hour <= 2)%nat ->
  all_chars is_digit minute = true -> String.length minute = 2%nat ->
  In ampm ["AM"; "PM"; "am"; "pm"; "Am"; "Pm"; "aM"; "pM"] ->
  match12h (String.append hour (String ":" (String.append minute (String " " ampm))))
    = Some (hour, minute, ampm).
Proof.
  intros H1 H2 N1 N2 A.
  unfold match12h, match_hh_mm.
  rewrite (digits_upto_stop 2 hour ":" _ H1 (proj2 H2) eq_refl).
  destruct hour as [|h hour]; [simpl in H2; lia|]. cbn beta iota.
  destruct minute as [|m1 [|m2 [|]]]; try discriminate N2.
  simpl in N1. rewrite andb_true_r in N1. apply andb_true_iff in N1. destruct N1 as [N3 N4].
  rewrite !append_cons, append_nil_l. rewrite N3, N4. cbn [andb]. cbn beta iota.
  simpl in A.
  repeat (destruct A as [<-|A]; [reflexivity|]). destruct A.
Qed.

Lemma matchDate_written with_at month day year hour minute ampm :
  all_chars is_letter month = true -> month <> "" ->
  all_chars is_digit day = true -> (1 <= String.length day <= 2)%nat ->
  all_chars is_digit year = true -> String.length year = 4%nat ->
  all_chars is_digit hour = true -> (1 <= String.length hour <= 2)%nat ->
  all_chars is_digit minute = true -> String.length minute = 2%nat ->
  In ampm ["AM"; "PM"; "am"; "pm"; "Am"; "Pm"; "aM"; "pM"] ->
  matchDate with_at (written with_at month day year hour minute ampm)
    = Some (mkDateMatch month day year hour minute ampm).
Proof.
  intros M1 M2 D1 D2 Y1 Y2 H1 H2 N1 N2 A.
  pose proof (match12h_written hour minute ampm H1 H2 N1 N2 A) as T.
  unfold written, matchDate.
  rewrite (span_stop is_letter month " " _ M1 eq_refl).
  destruct month as [|mc month]; [congruence|]. cbn beta iota.
  rewrite (span_cons_true is_space " ") by reflexivity.
  destruct day as [|d day]; [simpl in D2; lia|].
  pose proof D1 as D3. simpl in D3. apply andb_true_iff in D3. destruct D3 as [D3 _].
  destruct (digit_class d D3) as (S1 & _).
  rewrite append_cons.
  rewrite (span_cons_false is_space d) by exact S1. cbn beta iota. cbn [fst snd].
  rewrite <- append_cons.
  rewrite (digits_upto_stop 2 (String d day) "," _ D1 (proj2 D2) eq_refl).
  cbn beta iota.
  rewrite (span_cons_true is_space " ") by reflexivity.
  destruct year as [|y year]; [discriminate|].
  pose proof Y1 as Y3. simpl in Y3. apply andb_true_iff in Y3. destruct Y3 as [Y3 _].
  destruct (digit_class y Y3) as (S2 & _).
  rewrite append_cons.
  rewrite (span_cons_false is_space y) by exact S2. cbn beta iota. cbn [fst snd].
  rewrite <- append_cons.
  destruct hour as [|h hour]; [simpl in H2; lia|].
  pose proof H1 as H3. simpl in H3. apply andb_true_iff in H3. destruct H3 as [H3 _].
  destruct (digit_class h H3) as (S3 & _).
  destruct with_at.
  - rewrite !(append_cons _ _ (String.append (String h hour) _)), append_nil_l.
    rewrite (digits_upto_stop 4 (String y year) " " _ Y1 (Nat.eq_le_incl _ _ Y2) eq_refl).
    rewrite Y2. cbn beta iota.
    rewrite (span_cons_true is_space " ") by reflexivity.
    rewrite (span_cons_false is_space "a") by reflexivity. cbn beta iota. cbn [fst snd].
    rewrite skip_at.
    rewrite (span_cons_true is_space " ") by reflexivity.
    rewrite append_cons.
    rewrite (span_cons_false is_space h) by exact S3. cbn beta iota. cbn [fst snd].
    rewrite <- append_cons. now rewrite T.
  - rewrite !(append_cons _ _ (String.append (String h hour) _)), append_nil_l.
    rewrite (digits_upto_stop 4 (String y year) " " _ Y1 (Nat.eq_le_incl _ _ Y2) eq_refl).
    rewrite Y2. cbn beta iota.
    rewrite (span_cons_true is_space " ") by reflexivity.
    rewrite append_cons.
    rewrite (span_cons_false is_space h) by exact S3. cbn beta iota. cbn [fst snd].
    rewrite <- append_cons. now rewrite T.
Qed.


Lemma matchDate_without_at month day year hour minute ampm :
  all_chars is_letter month = true -> month <> "" ->
  all_chars is_digit day = true -> (1 <= String.length day <= 2)%nat ->
  all_chars is_digit year = true -> String.length year = 4%nat ->
  all_chars is_digit hour = true -> (1 <= String.length hour <= 2)%nat ->
  matchDate true (written false month day year hour minute ampm) = None.
Proof.
  intros M1 M2 D1 D2 Y1 Y2 H1 H2.
  unfold written, matchDate.
  rewrite (span_stop is_letter month " " _ M1 eq_refl).
  destruct month as [|mc month]; [congruence|]. cbn beta iota.
  rewrite (span_cons_true is_space " ") by reflexivity.
  destruct day as [|d day]; [simpl in D2; lia|].
  pose proof D1 as D3. simpl in D3. apply andb_true_iff in D3. destruct D3 as [D3 _].
  destruct (digit_class d D3) as (S1 & _).
  rewrite append_cons.
  rewrite (span_cons_false is_space d) by exact S1. cbn beta iota. cbn [fst snd].
  rewrite <- append_cons.
  rewrite (digits_upto_stop 2 (String d day) "," _ D1 (proj2 D2) eq_refl).
  cbn beta iota.
  rewrite (span_cons_true is_space " ") by reflexivity.
  destruct year as [|y year]; [discriminate|].
  pose proof Y1 as Y3. simpl in Y3. apply andb_true_iff in Y3. destruct Y3 as [Y3 _].
  destruct (digit_class y Y3) as (S2 & _).
  rewrite append_cons.
  rewrite (span_cons_false is_space y) by exact S2. cbn beta iota. cbn [fst snd].
  rewrite <- append_cons.
  destruct hour as [|h hour]; [simpl in H2; lia|].
  pose proof H1 as H3. simpl in H3. apply andb_true_iff in H3. destruct H3 as [H3 _].
  destruct (digit_class h H3) as (S3 & _).
  rewrite !(append_cons _ _ (String.append (String h hour) _)), append_nil_l.
  rewrite (digits_upto_stop 4 (String y year) " " _ Y1 (Nat.eq_le_incl _ _ Y2) eq_refl).
  rewrite Y2. cbn beta iota.
  rewrite (span_cons_true is_space " ") by reflexivity.
  rewrite append_cons.
  rewrite (span_cons_false is_space h) by exact S3. cbn beta iota. cbn [fst snd].
  cbn [skip_prefix_ci]. now rewrite (digit_not_at h H3).
Qed.

Lemma monthMap_letters k n :
  monthMap k = Some (MonthNumber n) -> all_chars is_letter k = true /\ k <> "".
Proof.
  unfold monthMap. cbn [List.find fst snd].
  repeat match goal with
         | |- context [String.eqb ?x k] =>
             destruct (String.eqb_spec x k) as [<-|_]; [split; [reflexivity|discriminate]|]
         end.
  destruct (String.eqb k "constructor"); discriminate.
Qed.

Lemma toLowerCase_letters m : all_chars is_letter (toLowerCase m) = all_chars is_letter m.
Proof.
  induction m as [|c m IH]; [reflexivity|].
  unfold toLowerCase in *. simpl. now rewrite IH, letter_lower_char.
Qed.

Lemma ampm_variants ampm :
  toUpperCase ampm = "AM" \/ toUpperCase ampm = "PM" ->
  In ampm ["AM"; "PM"; "am"; "pm"; "Am"; "Pm"; "aM"; "pM"].
Proof.
  unfold toUpperCase.
  destruct ampm as [|a [|b [|]]]; simpl; intros [H|H]; try discriminate H;
    injection H as Ha Hb.
  - apply upper_char_A in Ha. apply upper_char_M in Hb.
    destruct Ha as [-> | ->], Hb as [-> | ->]; tauto.
  - apply upper_char_P in Ha. apply upper_char_M in Hb.
    destruct Ha as [-> | ->], Hb as [-> | ->]; tauto.
Qed.

Lemma written_abbreviation with_at month day year hour minute ampm :
  all_chars is_digit minute = true -> String.length minute = 2%nat ->
  In ampm ["AM"; "PM"; "am"; "pm"; "Am"; "Pm"; "aM"; "pM"] ->
  exists before,
    search abbreviation_at (written with_at month day year hour minute ampm)
      = Some (before, ampm).
Proof.
  intros N1 N2 A.
  destruct minute as [|m1 [|m2 [|]]]; try discriminate N2.
  simpl in N1. rewrite andb_true_r in N1. apply andb_true_iff in N1. destruct N1 as [_ N4].
  assert (E : written with_at month day year hour (String m1 (String m2 "")) ampm =
              String.append
                (String.append month (String " " (String.append day (String ","
                   (String " " (String.append year
                      (String.append (if with_at then " at " else " ")
                         (String.append hour (String ":" (String m1 "")))))))))) 
                (String m2 (String " " ampm))).
  { unfold written.
    repeat (rewrite ?append_assoc, ?append_cons, ?append_nil_l). reflexivity. }
  rewrite E, (search_abbreviation_after_digit _ m2 _ N4).
  simpl in A.
  repeat (destruct A as [<-|A]; [eexists; reflexivity|]). destruct A.
Qed.

Lemma written_no_iana with_at month day year hour minute ampm :
  all_chars is_letter month = true ->
  all_chars is_digit day = true ->
  all_chars is_digit year = true ->
  all_chars is_digit hour = true ->
  all_chars is_digit minute = true ->
  In ampm ["AM"; "PM"; "am"; "pm"; "Am"; "Pm"; "aM"; "pM"] ->
  search iana_at (written with_at month day year hour minute ampm) = None.
Proof.
  intros M D Y H N1 A.
  apply search_none. intros a b E. apply iana_at_slash.
  assert (S : all_chars (fun c => negb (Ascii.eqb c "/"))
                (written with_at month day year hour minute ampm) = true).
  { unfold written. repeat (rewrite ?all_chars_app; cbn [all_chars]).
    rewrite (all_chars_impl _ _ _ letter_no_slash M).
    rewrite (all_chars_impl _ _ _ digit_no_slash D).
    rewrite (all_chars_impl _ _ _ digit_no_slash Y).
    rewrite (all_chars_impl _ _ _ digit_no_slash H).
    rewrite (all_chars_impl _ _ _ digit_no_slash N1).
    simpl in A. destruct with_at;
      repeat (destruct A as [<-|A]; [reflexivity|]); destruct A. }
  rewrite E, all_chars_app in S. now apply andb_true_iff in S.
Qed.

(** X7: the documented format is accepted as written.  A month name of the
    table in any case, a day of one or two digits, a year of four digits,
    then "at" or nothing, an hour of one or two digits, a minute of two
    digits and AM or PM in any case: [parseDateTime] returns the date as
    year-month-day, the month as its number and the day padded to two
    characters, and the time as hour:minute and AM or PM in upper case.
    The digits are taken as they are: no day, hour or minute is out of
    range for it. *)
Theorem parseDateTime_written (with_at : bool)
    (month day year hour minute ampm : string) (n : Z) :
  monthMap (toLowerCase month) = Some (MonthNumber n) ->
  all_chars is_digit day = true -> (1 <= String.length day <= 2)%nat ->
  all_chars is_digit year = true -> String.length year = 4%nat ->
  all_chars is_digit hour = true -> (1 <= String.length hour <= 2)%nat ->
  all_chars is_digit minute = true -> String.length minute = 2%nat ->
  toUpperCase ampm = "AM" \/ toUpperCase ampm = "PM" ->
  parseDateTime (written with_at month day year hour minute ampm) =
  Some (String.append year
          (String.append "-"
             (String.append (padStart 2 "0" (toString n))
                (String.append "-" (padStart 2 "0" day)))),
        String.append hour
          (String.append ":" (String.append minute (String.append " " (toUpperCase ampm))))).
Proof.
  intros Mo D1 D2 Y1 Y2 H1 H2 N1 N2 A0.
  pose proof (ampm_variants ampm A0) as A.
  destruct (monthMap_letters _ _ Mo) as [M1 M2].
  rewrite toLowerCase_letters in M1.
  assert (M3 : month <> "") by (intros ->; now apply M2).
  unfold parseDateTime.
  rewrite (written_no_iana with_at month day year hour minute ampm M1 D1 Y1 H1 N1 A).
  destruct (written_abbreviation with_at month day year hour minute ampm N1 N2 A)
    as (before & ->).
  replace (String.eqb (toUpperCase ampm) "AM" || String.eqb (toUpperCase ampm) "PM")
    with true.
  2:{ destruct A0 as [-> | ->]; reflexivity. }
  unfold written at 1 2. rewrite (stripWeekday_word_space month _ M1).
  fold (written with_at month day year hour minute ampm).
  assert (R : parseDateTimeComponents (mkDateMatch month day year hour minute ampm) =
              Some (String.append year
                      (String.append "-"
                         (String.append (padStart 2 "0" (toString n))
                            (String.append "-" (padStart 2 "0" day)))),
                    String.append hour
                      (String.append ":"
                         (String.append minute (String.append " " (toUpperCase ampm)))))).
  { unfold parseDateTimeComponents. cbn [m_month m_day m_year m_hour m_minute m_ampm].
    now rewrite Mo. }
  destruct with_at.
  - now rewrite (matchDate_written true month day year hour minute ampm).
  - rewrite (matchDate_without_at month day year hour minute ampm) by assumption.
    now rewrite (matchDate_written false month day year hour minute ampm).
Qed.

Lemma parseDateTime_written_witness :
  parseDateTime "February 31, 2026 at 13:75 pm" = Some ("2026-02-31", "13:75 PM").
Proof.
  apply (parseDateTime_written true "February" "31" "2026" "13" "75" "pm" 2);
    first [reflexivity | simpl; lia | now right].
Defined.

End ParseFacts.


(** ** The slot button: ids and text *)

Module SlotMatchFacts.
Import Js TimezoneUtils BookSlot BookSlotText TextFacts.
Local Open Scope string_scope.

Lemma removeSpaces_app a b :
  removeSpaces (String.append a b) = String.append (removeSpaces a) (removeSpaces b).
Proof.
  induction a as [|c a IH]; [reflexivity|].
  rewrite append_cons. simpl. rewrite IH. now destruct (is_space c).
Qed.

Lemma removeSpaces_span s : removeSpaces (snd (span is_space s)) = removeSpaces s.
Proof.
  induction s as [|c s IH]; [reflexivity|]. simpl.
  destruct (is_space c) eqn:E.
  - destruct (span is_space s) as [a b]. exact IH.
  - simpl. now rewrite E.
Qed.

Lemma removeSpaces_trimEnd s : removeSpaces (trimEnd s) = removeSpaces s.
Proof.
  induction s as [|c s IH]; [reflexivity|]. simpl.
  destruct (trimEnd s) as [|x r] eqn:E.
  - destruct (is_space c) eqn:C; simpl; rewrite ?C; now rewrite <- IH.
  - simpl in *. destruct (is_space c); now rewrite <- IH.
Qed.

Lemma removeSpaces_trim s : removeSpaces (trim s) = removeSpaces s.
Proof. unfold trim. now rewrite removeSpaces_trimEnd, removeSpaces_span. Qed.

Lemma removeSpaces_upper s : removeSpaces (toUpperCase s) = toUpperCase (removeSpaces s).
Proof.
  unfold toUpperCase. induction s as [|c s IH]; [reflexivity|]. simpl.
  rewrite space_upper. destruct (is_space c); [exact IH|]. simpl. now rewrite IH.
Qed.

Lemma upper_lower s : toUpperCase (toLowerCase s) = toUpperCase s.
Proof.
  unfold toUpperCase, toLowerCase. induction s as [|c s IH]; [reflexivity|]. simpl.
  now rewrite IH, upper_lower_char.
Qed.

(** [normalizeTime] without its [trim], the case folded first. *)
Lemma normalizeTime_upper s :
  normalizeTime s = snd (span (Ascii.eqb "0") (removeSpaces (toUpperCase s))).
Proof. unfold normalizeTime. now rewrite removeSpaces_trim, removeSpaces_upper. Qed.

Lemma normalizeTime_trim s : normalizeTime (trim s) = normalizeTime s.
Proof. unfold normalizeTime. now rewrite !removeSpaces_trim. Qed.

(** X8: the four tests on the text of a slot button are one test.  On ASCII
    text, the comparison of the normalized texts, the comparison in upper
    case, the comparison in lower case and [timesMatch] together accept a
    button exactly when [timesMatch] accepts its text as read: texts equal
    in upper or in lower case have equal normalized forms, and trimming
    first changes nothing. *)
Theorem text_match_is_timesMatch (buttonText time : string) :
  textMatches buttonText time = timesMatch buttonText time.
Proof.
  unfold textMatches, timesMatch. rewrite !normalizeTime_trim.
  destruct (String.eqb_spec (normalizeTime buttonText) (normalizeTime time)) as [E|N];
    [reflexivity|].
  cbn [orb]. rewrite orb_false_r.
  assert (U : toUpperCase (trim buttonText) <> toUpperCase time).
  { intros U. apply N. rewrite <- (normalizeTime_trim buttonText).
    now rewrite !normalizeTime_upper, U. }
  assert (L : toLowerCase (trim buttonText) <> toLowerCase time).
  { intros L. apply U. rewrite <- (upper_lower (trim buttonText)), <- (upper_lower time).
    now rewrite L. }
  apply String.eqb_neq in U, L. now rewrite U, L.
Qed.


(** *** The time that parseDateTime returns *)

Lemma digits_upto_digits n : forall s, all_chars is_digit (fst (digits_upto n s)) = true.
Proof.
  induction n as [|n IH]; intros s; [reflexivity|].
  destruct s as [|c s]; [reflexivity|]. simpl.
  destruct (is_digit c) eqn:E; [|reflexivity].
  specialize (IH s). destruct (digits_upto n s) as [a b]. simpl in *. now rewrite E.
Qed.

Lemma match12h_shape r hh mm ap :
  match12h r = Some (hh, mm, ap) ->
  all_chars is_digit hh = true /\ all_chars is_digit mm = true /\
  (toUpperCase ap = "AM" \/ toUpperCase ap = "PM").
Proof.
  unfold match12h, match_hh_mm.
  pose proof (digits_upto_digits 2 r) as D.
  destruct (digits_upto 2 r) as [h rest]. cbn [fst] in D.
  destruct h as [|h0 h]; [discriminate|].
  destruct rest as [|c rest]; [discriminate|].
  destruct (Ascii.eqb_spec c ":") as [->|C].
  2:{ destruct c as [[] [] [] [] [] [] [] []]; try discriminate. now destruct C. }
  destruct rest as [|a [|b rest]]; try discriminate.
  destruct (is_digit a) eqn:A; [|discriminate].
  destruct (is_digit b) eqn:B; [|discriminate]. cbn [andb].
  destruct (snd (span is_space rest)) as [|x [|y [|]]]; try discriminate.
  destruct (String.eqb_spec (toUpperCase (String x (String y ""))) "AM") as [E1|_].
  - intros H. injection H as <- <- <-. simpl. rewrite A, B. auto.
  - destruct (String.eqb_spec (toUpperCase (String x (String y ""))) "PM") as [E2|_];
      [|discriminate].
    intros H. injection H as <- <- <-. simpl. rewrite A, B. auto.
Qed.

Lemma matchDate_shape with_at s m :
  matchDate with_at s = Some m ->
  exists r, match12h r = Some (m_hour m, m_minute m, m_ampm m).
Proof.
  unfold matchDate.
  repeat match goal with
         | |- context [match ?x with _ => _ end] =>
             lazymatch x with
             | match12h _ => fail
             | _ => destruct x eqn:?; try discriminate
             end
         end.
  all: match goal with
       | |- context [match12h ?r] =>
           destruct (match12h r) as [[[hh mm] ap]|] eqn:T; [|discriminate];
           intros H; injection H as <-; exists r; exact T
       end.
Qed.


Lemma parseDateTime_time s d t :
  parseDateTime s = Some (d, t) ->
  exists hh mm ap,
    all_chars is_digit hh = true /\ all_chars is_digit mm = true /\
    (toUpperCase ap = "AM" \/ toUpperCase ap = "PM") /\
    t = String.append hh
          (String.append ":" (String.append mm (String.append " " (toUpperCase ap)))).
Proof.
  unfold parseDateTime.
  match goal with |- context [matchDate true ?c] => set (cleaned := c) end.
  assert (K : forall with_at m,
             matchDate with_at cleaned = Some m ->
             parseDateTimeComponents m = Some (d, t) ->
             exists hh mm ap,
               all_chars is_digit hh = true /\ all_chars is_digit mm = true /\
               (toUpperCase ap = "AM" \/ toUpperCase ap = "PM") /\
               t = String.append hh
                     (String.append ":"
                        (String.append mm (String.append " " (toUpperCase ap))))).
  { intros with_at m M C. apply matchDate_shape in M. destruct M as (r & M).
    apply match12h_shape in M. destruct M as (M1 & M2 & M3).
    unfold parseDateTimeComponents in C.
    destruct (monthMap (toLowerCase (m_month m))); [|discriminate].
    injection C as _ <-. now exists (m_hour m), (m_minute m), (m_ampm m). }
  destruct (matchDate true cleaned) as [m|] eqn:M1; [now apply (K true m)|].
  destruct (matchDate false cleaned) as [m|] eqn:M2; [now apply (K false m)|].
  discriminate.
Qed.

Lemma upper_keeps c : is_lower c = false -> upper_char c = c.
Proof. unfold upper_char. now intros ->. Qed.

Lemma upper_not_lower c : is_lower (upper_char c) = false.
Proof. by_chars c. Qed.

Lemma digit_not_lower c : is_digit c = true -> negb (is_lower c) = true.
Proof. by_chars c. Qed.

Lemma toUpperCase_fix x :
  all_chars (fun c => negb (is_lower c)) x = true -> toUpperCase x = x.
Proof.
  unfold toUpperCase. induction x as [|c x IH]; [reflexivity|]. simpl.
  intros A. apply andb_true_iff in A. destruct A as [A B].
  apply negb_true_iff in A. now rewrite (upper_keeps c A), IH.
Qed.

Lemma removeSpaces_not_lower x :
  all_chars (fun c => negb (is_lower c)) x = true ->
  all_chars (fun c => negb (is_lower c)) (removeSpaces x) = true.
Proof.
  induction x as [|c x IH]; [reflexivity|]. simpl.
  intros A. apply andb_true_iff in A. destruct A as [A B].
  destruct (is_space c); [now apply IH|]. simpl. now rewrite A, IH.
Qed.

Lemma toUpperCase_not_lower x :
  all_chars (fun c => negb (is_lower c)) (toUpperCase x) = true.
Proof.
  unfold toUpperCase. induction x as [|c x IH]; [reflexivity|]. simpl.
  now rewrite upper_not_lower, IH.
Qed.

Lemma toLowerCase_app a b :
  toLowerCase (String.append a b) = String.append (toLowerCase a) (toLowerCase b).
Proof.
  unfold toLowerCase. induction a as [|c a IH]; [reflexivity|].
  rewrite append_cons. simpl. now rewrite IH.
Qed.

(** X9: for every time that [parseDateTime] returns, the four slot ids that
    the task tries are two: the time without its space is already in upper
    case, so the first three ids are the same string, and the fourth is that
    string in lower case. *)
Theorem parsed_time_slot_ids (s d t : string) :
  parseDateTime s = Some (d, t) ->
  slotIdVariations t =
  let id := String.append "slot-" (formatTimeForSlot t) in [id; id; id; toLowerCase id].
Proof.
  intros P. apply parseDateTime_time in P.
  destruct P as (hh & mm & ap & H & M & _ & ->).
  set (t := String.append hh _).
  assert (U : toUpperCase (removeSpaces t) = removeSpaces t).
  { apply toUpperCase_fix, removeSpaces_not_lower. unfold t.
    repeat (rewrite ?all_chars_app; cbn [all_chars]).
    rewrite (all_chars_impl _ _ _ digit_not_lower H).
    rewrite (all_chars_impl _ _ _ digit_not_lower M).
    now rewrite toUpperCase_not_lower. }
  unfold slotIdVariations, formatTimeForSlot. cbv zeta.
  rewrite toLowerCase_app, !U. reflexivity.
Qed.

Lemma parsed_time_slot_ids_witness :
  slotIdVariations "1:25 PM" = ["slot-1:25PM"; "slot-1:25PM"; "slot-1:25PM"; "slot-1:25pm"].
Proof.
  apply (parsed_time_slot_ids "November 13, 2025 at 1:25 pm" "2025-11-13" "1:25 PM").
  reflexivity.
Defined.

End SlotMatchFacts.


(** ** Timezone utilities: times, labels and slots *)

Module TimezoneMoreFacts.
Import Js TimezoneUtils BookSlot BookSlotText TextFacts ParseFacts TimezoneConvert.
Import QArith Qabs Qround.
Local Open Scope string_scope.
Local Open Scope Z_scope.

Lemma parseInt_digits ds :
  all_chars is_digit ds = true -> ds <> "" -> parseInt ds = Int (digits_value 0 ds).
Proof.
  intros D N. destruct ds as [|d ds]; [congruence|].
  unfold parseInt. pose proof D as D0. simpl in D0. apply andb_true_iff in D0.
  destruct D0 as [D0 _]. destruct (digit_class d D0) as (S & _).
  rewrite (span_cons_false is_space d _ S). cbn [snd].
  assert (E : match String d ds with
              | String "-" r => (true, r)
              | String "+" r => (false, r)
              | _ => (false, String d ds)
              end = (false, String d ds)).
  { destruct d as [[] [] [] [] [] [] [] []]; try reflexivity; discriminate D0. }
  rewrite E. now rewrite (span_all is_digit _ D).
Qed.

Lemma match12h_24h hour minute :
  all_chars is_digit hour = true -> (1 <= String.length hour <= 2)%nat ->
  all_chars is_digit minute = true -> String.length minute = 2%nat ->
  match_hh_mm (String.append hour (String ":" minute)) = Some (hour, minute, "").
Proof.
  intros H1 H2 N1 N2. unfold match_hh_mm.
  rewrite (digits_upto_stop 2 hour ":" _ H1 (proj2 H2) eq_refl).
  destruct hour as [|h hour]; [simpl in H2; lia|]. cbn beta iota.
  destruct minute as [|m1 [|m2 [|]]]; try discriminate N2.
  simpl in N1. rewrite andb_true_r in N1. apply andb_true_iff in N1. destruct N1 as [N3 N4].
  now rewrite N3, N4.
Qed.

(** X10: parseTime reads the digits as they are.  For an hour of one or two
    digits and a minute of two digits, the 24-hour form gives the hour and
    the minute written, whatever they are ("99:99" is hour 99, minute 99);
    with AM or PM in any case after a space, 12 becomes 0 for AM and stays
    12 for PM, and every other hour is kept for AM and raised by 12 for PM
    ("13:00 PM" is hour 25).  No hour or minute is rejected for its range. *)
Theorem parseTime_reads_digits (hh mm : string) :
  all_chars is_digit hh = true -> (1 <= String.length hh <= 2)%nat ->
  all_chars is_digit mm = true -> String.length mm = 2%nat ->
  let h := digits_value 0 hh in
  let m := digits_value 0 mm in
  parseTime (String.append hh (String ":" mm)) = Some (mkTime (Int h) (Int m)) /\
  (forall ampm, toUpperCase ampm = "AM" ->
     parseTime (String.append hh (String ":" (String.append mm (String " " ampm))))
       = Some (mkTime (Int (if (h =? 12)%Z then 0 else h)) (Int m))) /\
  (forall ampm, toUpperCase ampm = "PM" ->
     parseTime (String.append hh (String ":" (String.append mm (String " " ampm))))
       = Some (mkTime (Int (if (h =? 12)%Z then 12 else h + 12)) (Int m))).
Proof.
  intros H1 H2 N1 N2 h m.
  assert (Hn : hh <> "") by (intros ->; simpl in H2; lia).
  assert (Mn : mm <> "") by (intros ->; discriminate).
  assert (K : forall ampm, toUpperCase ampm = "AM" \/ toUpperCase ampm = "PM" ->
            parseTime (String.append hh (String ":" (String.append mm (String " " ampm))))
            = Some (mkTime
                      (let isPM := String.eqb (toUpperCase ampm) "PM" in
                       let hour := Int h in
                       let hour := if isPM && negb (strict_eq hour (Int 12%Z))
                                   then add hour (Int 12%Z) else hour in
                       if negb isPM && strict_eq hour (Int 12) then Int 0 else hour)
                      (Int m))).
  { intros ampm A. unfold parseTime.
    rewrite (match12h_written hh mm ampm H1 H2 N1 N2 (ampm_variants ampm A)).
    now rewrite (parseInt_digits hh H1 Hn), (parseInt_digits mm N1 Mn). }
  split; [|split].
  - unfold parseTime, match12h, match24h.
    rewrite (match12h_24h hh mm H1 H2 N1 N2). cbn.
    now rewrite (parseInt_digits hh H1 Hn), (parseInt_digits mm N1 Mn).
  - intros ampm A. rewrite (K ampm (or_introl A)), A. cbn.
    now destruct (h =? 12)%Z.
  - intros ampm A. rewrite (K ampm (or_intror A)), A. cbn.
    destruct (h =? 12)%Z eqn:E; cbn; [|reflexivity].
    apply Z.eqb_eq in E. now rewrite E.
Qed.

Lemma parseTime_reads_digits_witness :
  parseTime "99:99" = Some (mkTime (Int 99) (Int 99)) /\
  parseTime "13:00 pm" = Some (mkTime (Int 25) (Int 0)).
Proof.
  split.
  - apply (parseTime_reads_digits "99" "99"); first [reflexivity | simpl; lia].
  - apply (parseTime_reads_digits "13" "00"); first [reflexivity | simpl; lia].
Defined.


(** *** Labels of whole hours *)

Lemma find_ext {A} (f g : A -> bool) (l : list A) :
  Forall (fun x => f x = g x) l -> List.find f l = List.find g l.
Proof.
  induction 1 as [|x l E _ IH]; [reflexivity|]. simpl. now rewrite E, IH.
Qed.

Ltac eval_closed t := let v := eval vm_compute in t in change t with v.

(** A whole number [z] is read as the opposite of an offset of the table
    exactly when it is that opposite. *)
Ltac reads_whole :=
  unfold reads_as;
  repeat match goal with
         | |- context [Qeq_bool ?a 0] => eval_closed (Qeq_bool a 0)
         | |- context [Qle_bool 0 ?a] => eval_closed (Qle_bool 0 a)
         | |- context [nearest_from ?a] => eval_closed (nearest_from a)
         | |- context [nearest_to ?a] => eval_closed (nearest_to a)
         | |- context [Qpower 2 (-1075)] => eval_closed (Qpower 2 (-1075))
         end;
  cbn beta iota;
  unfold Qle_bool, Qeq_bool, inject_Z, Qabs, Qopp; cbn [Qnum Qden];
  repeat match goal with
         | |- context [Z.leb ?a ?b] => destruct (Z.leb_spec a b)
         | |- context [Z.eqb ?a ?b] => destruct (Z.eqb_spec a b)
         end;
  cbn [andb]; first [reflexivity | exfalso; lia].

Lemma reads_whole_number (z : Z) :
  Forall (fun e => reads_as (Qmake z 1) (Qopp (snd e)) = Qeq_bool (snd e) (inject_Z (- z)))
         TIMEZONE_OFFSETS.
Proof.
  unfold TIMEZONE_OFFSETS. repeat constructor; cbn [snd].
  all: reads_whole.
Qed.


Lemma gmt_at_label minus ds :
  all_chars is_digit ds = true -> ds <> "" ->
  gmt_at (gmtLabel minus ds) = Some (minus, ds, "").
Proof.
  intros D N. unfold gmt_at, gmtLabel.
  change (skip_prefix_ci "GMT" (String.append "GMT" ?x)) with (Some x).
  cbn beta iota.
  rewrite span_cons_false by (now destruct minus). cbn [snd].
  unfold decimal_at.
  assert (E : match String (if minus then "-" else "+")%char ds with
              | String "-" r => (true, r)
              | String "+" r => (false, r)
              | _ => (false, String (if minus then "-" else "+")%char ds)
              end = (minus, ds)) by now destruct minus.
  rewrite E, (span_all is_digit ds D). now destruct ds.
Qed.

(** X11: the label of an offset of whole hours detects the zone on the other
    side.  For "GMT-n" the zone returned is the first zone of the table whose
    offset is +n, for "GMT+n" the first whose offset is -n, and none when
    the table has no such offset: the sign of the label is inverted before
    the table, whose western zones carry negative offsets, is searched. *)
Theorem gmt_label_detects_opposite (minus : bool) (ds : string) :
  all_chars is_digit ds = true -> ds <> "" ->
  let n := digits_value 0 ds in
  detectTimezoneFromGmt (gmtLabel minus ds)
  = zoneWithOffset (inject_Z (if minus then n else - n)).
Proof.
  intros D N n. unfold detectTimezoneFromGmt, zoneWithOffset.
  assert (S : search gmt_at (gmtLabel minus ds) = Some ("", (minus, ds, ""))).
  { pose proof (gmt_at_label minus ds D N) as G. unfold gmtLabel in *.
    rewrite !append_cons, append_nil_l in *. cbn [search]. now rewrite G. }
  rewrite S. unfold written_value. rewrite append_nil_r. fold n.
  change (Z.to_pos (10 ^ Z.of_nat (String.length ""))) with 1%positive.
  rewrite (find_ext _ _ _ (reads_whole_number (if minus then - n else n))).
  now destruct minus; rewrite ?Z.opp_involutive.
Qed.

Lemma gmt_label_detects_opposite_witness :
  detectTimezoneFromGmt "GMT-5" = Some "PKT" /\
  detectTimezoneFromGmt "GMT+5" = Some "EST" /\
  detectTimezoneFromGmt "GMT-6" = None.
Proof.
  split; [|split].
  - apply (gmt_label_detects_opposite true "5"); [reflexivity|discriminate].
  - apply (gmt_label_detects_opposite false "5"); [reflexivity|discriminate].
  - apply (gmt_label_detects_opposite true "6"); [reflexivity|discriminate].
Defined.

(** *** Slots and zones *)

Lemma formatTime12h_number_integers (h m : Z) :
  formatTime12h_number (Int h) (Int m) = formatTime12h h m.
Proof.
  unfold formatTime12h_number, formatTime12h, ge, gt, lt, strict_eq, add, numberString.
  destruct (12 <=? h), (12 <? h); try reflexivity.
  - now destruct (h + -12 =? 0) eqn:E; replace (h - 12) with (h + -12) by lia; rewrite E.
  - now destruct (h =? 0).
  - now destruct (h + -12 =? 0) eqn:E; replace (h - 12) with (h + -12) by lia; rewrite E.
  - now destruct (h =? 0).
Qed.

(** X12: zones that the table does not know convert nothing.  When
    [getTimezoneOffset] has no value for the source or for the target zone,
    [convertSlotsTimezone] returns every slot as it came, without the
    original_time and original_timezone marks and without an error; and in
    every case it returns one slot for each slot given, in order, with the
    gmt text untouched. *)
Theorem unknown_zone_converts_nothing (host : HostDate) (slots : list Slot)
    (sourceTimezone targetTimezone : string) :
  (getTimezoneOffset sourceTimezone = None \/ getTimezoneOffset targetTimezone = None ->
   convertSlotsTimezone host slots sourceTimezone targetTimezone
     = List.map unconverted slots) /\
  List.map c_gmt (convertSlotsTimezone host slots sourceTimezone targetTimezone)
    = List.map slot_gmt slots.
Proof.
  unfold convertSlotsTimezone.
  destruct (String.eqb sourceTimezone "" || String.eqb targetTimezone ""
            || String.eqb sourceTimezone targetTimezone).
  - split; [reflexivity|]. now rewrite List.map_map.
  - split.
    + intros U. apply List.map_ext. intros slot. unfold convertTimezone.
      destruct U as [-> | U]; [reflexivity|].
      rewrite U. now destruct (getTimezoneOffset sourceTimezone).
    + rewrite List.map_map. apply List.map_ext. intros slot.
      now destruct (convertTimezone _ _ _ _ _) as [[d t]|].
Qed.

Lemma unknown_zone_converts_nothing_witness :
  convertSlotsTimezone sampleHost sampleSlots "CST" "america/new_york"
    = List.map unconverted sampleSlots.
Proof.
  apply (unknown_zone_converts_nothing sampleHost sampleSlots "CST" "america/new_york").
  right. reflexivity.
Defined.

(** Abbreviations are found in any case, the other names only as written,
    and a name that every object inherits is taken for an offset. *)
Example getTimezoneOffset_cases :
  getTimezoneOffset "est" = Some (Hours (-5)) /\
  getTimezoneOffset "America/New_York" = Some (Hours (-5)) /\
  getTimezoneOffset "america/new_york" = None /\
  getTimezoneOffset "constructor" = Some InheritedProperty.
Proof. repeat split; reflexivity. Qed.

End TimezoneMoreFacts.


(** ** The parameterized URL: which value a name gets *)

Module UrlFacts.
Import Js BookSlot BookSlotUrl.
Local Open Scope list_scope.

Lemma filter_removed name (l : SearchParams) :
  List.filter (has_name name) (List.filter (fun q => negb (has_name name q)) l) = [].
Proof.
  induction l as [|p l IH]; [reflexivity|]. simpl.
  destruct (has_name name p) eqn:E; simpl; [exact IH|]. now rewrite E.
Qed.

Lemma filter_other name k (l : SearchParams) :
  k <> name ->
  List.filter (has_name name) (List.filter (fun q => negb (has_name k q)) l)
  = List.filter (has_name name) l.
Proof.
  intros N. induction l as [|p l IH]; [reflexivity|]. simpl.
  destruct (has_name k p) eqn:E; simpl.
  - assert (F : has_name name p = false).
    { unfold has_name in *. apply String.eqb_eq in E. apply String.eqb_neq. congruence. }
    now rewrite F.
  - destruct (has_name name p); now rewrite IH.
Qed.

Lemma set_same name v (l : SearchParams) :
  List.filter (has_name name) (params_set name v l) = [(name, v)].
Proof.
  assert (S : has_name name (name, v) = true) by apply String.eqb_refl.
  induction l as [|p l IH]; simpl.
  - now rewrite S.
  - destruct (has_name name p) eqn:E; simpl.
    + now rewrite S, filter_removed.
    + now rewrite E.
Qed.

Lemma set_other name k v (l : SearchParams) :
  k <> name ->
  List.filter (has_name name) (params_set k v l) = List.filter (has_name name) l.
Proof.
  intros N.
  assert (S : has_name name (k, v) = false) by now apply String.eqb_neq.
  induction l as [|p l IH]; simpl.
  - now rewrite S.
  - destruct (has_name k p) eqn:E; simpl.
    + rewrite S, filter_other by exact N.
      assert (F : has_name name p = false).
      { unfold has_name in *. apply String.eqb_eq in E. apply String.eqb_neq. congruence. }
      now rewrite F.
    + destruct (has_name name p); now rewrite IH.
Qed.

Lemma last_value_app name k v (params : SearchParams) :
  last_value name (params ++ [(k, v)]) =
  if String.eqb k name then Some v else last_value name params.
Proof.
  unfold last_value. rewrite rev_app_distr. simpl. unfold has_name at 1. simpl.
  now destruct (String.eqb k name).
Qed.

Lemma merged_by_name (existingParams params : SearchParams) (name : string) :
  List.filter (has_name name) (mergedParams existingParams params) =
  match last_value name params with
  | Some v => [(name, v)]
  | None => List.filter (has_name name) existingParams
  end.
Proof.
  unfold mergedParams. induction params as [|[k v] params IH] using rev_ind.
  - reflexivity.
  - rewrite fold_left_app, last_value_app. simpl.
    destruct (String.eqb_spec k name) as [->|N].
    + apply set_same.
    + now rewrite set_other.
Qed.

Lemma custom_appended (entries : list (string * string)) : forall params : SearchParams,
  fold_left
    (fun params kv =>
       if String.eqb (snd kv) "" then params
       else params_append (fst kv) (snd kv) params)
    entries params
  = params ++ givenEntries entries.
Proof.
  induction entries as [|[k v] entries IH]; intros params; simpl.
  - now rewrite app_nil_r.
  - rewrite IH. unfold givenEntries. simpl. destruct (String.eqb v ""); simpl.
    + reflexivity.
    + unfold params_append. now rewrite <- app_assoc.
Qed.

Lemma last_value_later name (a b : SearchParams) v :
  last_value name b = Some v -> last_value name (a ++ b) = Some v.
Proof.
  unfold last_value. rewrite rev_app_distr.
  induction (rev b) as [|p l IH]; simpl; [discriminate|].
  now destruct (has_name name p).
Qed.

(** X13: in the query of the URL the last writer wins, and nothing else
    changes.  A name that was put in [params] occurs once in the query of
    the URL returned, with the value it was given last, and the pairs of
    every other name are those of the base URL.  The custom parameters are
    written last: one with a value that is not empty replaces a standard
    field, or a pair of the base URL, of the same name. *)
Theorem query_last_writer_wins :
  (forall (existingParams params : SearchParams) (name : string),
     List.filter (has_name name) (mergedParams existingParams params) =
     match last_value name params with
     | Some v => [(name, v)]
     | None => List.filter (has_name name) existingParams
     end) /\
  (forall (firstName lastName email phone phoneFieldId : string)
          (entries : list (string * string)) (existingParams : SearchParams)
          (name v : string),
     last_value name (givenEntries entries) = Some v ->
     List.filter (has_name name)
       (mergedParams existingParams
          (newParams firstName lastName email phone phoneFieldId (Some entries)))
     = [(name, v)]).
Proof.
  split; [exact merged_by_name|].
  intros firstName lastName email phone phoneFieldId entries existingParams name v L.
  rewrite merged_by_name. unfold newParams. cbv zeta.
  rewrite custom_appended. now rewrite (last_value_later _ _ _ _ L).
Qed.

Lemma query_last_writer_wins_witness :
  List.filter (has_name "PersonEmail")
    (mergedParams [("PersonEmail", "old@example.com"); ("utm", "x")]
       (newParams "Ada" "" "ada@example.com" "15550100" "phone-field"
          (Some [("PersonEmail", "other@example.com"); ("note", "")])))
  = [("PersonEmail", "other@example.com")].
Proof.
  apply (proj2 query_last_writer_wins). reflexivity.
Defined.

End UrlFacts.


(** ** Session creation: failures before a handle is held *)

Module CreationFacts.
Import Js BookSlot Trace Samples.
Local Open Scope list_scope.

(** X14: a failure before a handle is held costs nothing.  Without a
    calendar URL, or when the URL cannot be built, [createInstanceForEmail]
    returns null without a single call to the pool or to a browser; when the
    pool gives no handle, its only event is that failed call: the clean-up
    of the catch block finds nothing to release or to close. *)
Theorem early_failure_releases_nothing (env : Env) (a : Args) (h : list event) :
  (chiliPiperUrl a = "" \/ (exists e, env_buildUrl env a = Throw e) ->
   run (createInstanceForEmail env a) h = (Ok None, [])) /\
  (forall url e,
     chiliPiperUrl a <> "" -> env_buildUrl env a = Ok url ->
     env_getBrowser env h = Throw e ->
     run (createInstanceForEmail env a) h = (Ok None, [GetBrowser (Throw e)])).
Proof.
  split.
  - intros [U|[e U]].
    + unfold run, createInstanceForEmail, createBody, try_catch, bind.
      rewrite U. reflexivity.
    + unfold run, createInstanceForEmail, createBody, try_catch, bind, ret, throw.
      destruct (String.eqb (chiliPiperUrl a) ""); [reflexivity|].
      cbn. rewrite U. reflexivity.
  - intros url e N U G.
    unfold run, createInstanceForEmail, createBody, createContext, try_catch, bind,
      ret, throw, getBrowser.
    apply String.eqb_neq in N. rewrite N. cbn. rewrite U. cbn. rewrite G. reflexivity.
Qed.

Lemma early_failure_releases_nothing_witness :
  run (createInstanceForEmail env_ok (mkArgs "ada@example.com" "" "" "" "" [] None)) []
    = (Ok None, []).
Proof.
  apply (early_failure_releases_nothing env_ok
           (mkArgs "ada@example.com" "" "" "" "" [] None) []).
  left. reflexivity.
Defined.

End CreationFacts.


(** ** parseDateTime: the zone at the end *)

Module ZoneFacts.
Import Js TimezoneUtils BookSlot BookSlotText TextFacts ParseFacts.
Local Open Scope string_scope.

Lemma zone_char_not_digit c : is_zone_char c = true -> negb (is_digit c) = true.
Proof. by_chars c. Qed.

Lemma all_chars_cons p c s : all_chars p (String c s) = p c && all_chars p s.
Proof. reflexivity. Qed.

Lemma iana_at_digit t :
  all_chars (fun c => negb (is_digit c)) t = false -> iana_at t = None.
Proof.
  intros N. unfold iana_at.
  pose proof (span_spec is_space t) as (E1 & A1 & _).
  destruct (span is_space t) as [sp r1]. cbn [fst snd] in E1, A1.
  destruct sp as [|c0 sp]; [reflexivity|].
  pose proof (span_spec is_letter r1) as (E2 & A2 & _).
  destruct (span is_letter r1) as [area r2]. cbn [fst snd] in E2, A2.
  destruct area as [|c1 area]; [reflexivity|].
  destruct r2 as [|c r2]; [reflexivity|].
  destruct (Ascii.eqb_spec c "/") as [->|C].
  2:{ destruct c as [[] [] [] [] [] [] [] []]; try reflexivity. now destruct C. }
  pose proof (span_spec is_zone_char r2) as (E3 & A3 & _).
  destruct (span is_zone_char r2) as [city r3]. cbn [fst snd] in E3, A3.
  destruct city as [|c2 city]; [reflexivity|].
  destruct (all_chars is_sep r3) eqn:A4; [|reflexivity].
  exfalso. rewrite E1, E2, E3, !all_chars_app in N.
  rewrite (all_chars_cons _ "/"), all_chars_app in N.
  rewrite (all_chars_impl is_space _ _ space_not_digit A1) in N.
  rewrite (all_chars_impl is_letter _ _ letter_not_digit A2) in N.
  rewrite (all_chars_impl is_zone_char _ _ zone_char_not_digit A3) in N.
  rewrite (all_chars_impl is_sep _ _ sep_not_digit A4) in N.
  discriminate.
Qed.

(** A pattern that cannot match a text with a digit matches after the last
    digit. *)
Lemma search_after_digit {A} (f : string -> option A) p d r :
  (forall t, all_chars (fun c => negb (is_digit c)) t = false -> f t = None) ->
  is_digit d = true ->
  search f (String.append p (String d r)) =
  match search f r with
  | Some (before, x) => Some (String.append p (String d before), x)
  | None => None
  end.
Proof.
  intros Hf D.
  assert (F : forall q, f (String.append q (String d r)) = None).
  { intros q. apply Hf. rewrite all_chars_app. simpl.
    rewrite D. simpl. now rewrite andb_false_r. }
  induction p as [|c p IH].
  - pose proof (F "") as F0. rewrite append_nil_l in *. cbn [search]. rewrite F0.
    now destruct (search f r) as [[b x]|].
  - pose proof (F (String c p)) as Fc. rewrite append_cons in *. cbn [search].
    rewrite Fc, IH.
    now destruct (search f r) as [[b x]|].
Qed.


Lemma letter_not_sep c : is_letter c = true -> is_sep c = false.
Proof. by_chars c. Qed.

Lemma letter_zone_char c : is_letter c = true -> is_zone_char c = true.
Proof. by_chars c. Qed.

Lemma abbreviation_at_nonspace c r : is_space c = false -> abbreviation_at (String c r) = None.
Proof. intros S. unfold abbreviation_at. now rewrite (span_cons_false _ _ _ S). Qed.

Lemma iana_at_nonspace c r : is_space c = false -> iana_at (String c r) = None.
Proof. intros S. unfold iana_at. now rewrite (span_cons_false _ _ _ S). Qed.

Lemma abbreviation_at_zone zone :
  all_chars is_letter zone = true ->
  (2 <= String.length zone <= 4)%nat ->
  abbreviation_at (String " " zone) = Some zone.
Proof.
  intros L [L1 L2]. unfold abbreviation_at.
  rewrite (span_cons_true is_space " ") by reflexivity.
  destruct zone as [|z zone]; [simpl in L1; lia|].
  pose proof L as L0. simpl in L0. apply andb_true_iff in L0. destruct L0 as [L0 _].
  destruct (letter_class z L0) as (S & _).
  rewrite (span_cons_false is_space z _ S). cbn [fst snd].
  rewrite (span_all is_letter _ L).
  apply Nat.leb_le in L1, L2. now rewrite L1, L2.
Qed.

Lemma abbreviation_at_two a b zone :
  is_letter a = true -> is_letter b = true ->
  all_chars is_letter zone = true -> zone <> "" ->
  abbreviation_at (String " " (String a (String b (String " " zone)))) = None.
Proof.
  intros A B L N. unfold abbreviation_at.
  rewrite (span_cons_true is_space " ") by reflexivity.
  destruct (letter_class a A) as (S & _).
  rewrite (span_cons_false is_space a _ S). cbn [fst snd].
  change (String a (String b (String " " zone)))
    with (String.append (String a (String b "")) (String " " zone)).
  rewrite (span_stop is_letter (String a (String b "")) " " zone)
    by (simpl; rewrite ?A, ?B; reflexivity).
  destruct zone as [|z zone]; [congruence|].
  simpl in L. apply andb_true_iff in L. destruct L as [L _].
  cbn [all_chars]. rewrite (letter_not_sep z L). now rewrite !andb_false_r.
Qed.

Lemma iana_at_two a b r :
  is_letter a = true -> is_letter b = true ->
  iana_at (String " " (String a (String b (String " " r)))) = None.
Proof.
  intros A B. unfold iana_at.
  rewrite (span_cons_true is_space " ") by reflexivity.
  destruct (letter_class a A) as (S & _).
  rewrite (span_cons_false is_space a _ S). cbn [fst snd].
  change (String a (String b (String " " r)))
    with (String.append (String a (String b "")) (String " " r)).
  now rewrite (span_stop is_letter (String a (String b "")) " " r)
    by (simpl; rewrite ?A, ?B; reflexivity).
Qed.

Lemma iana_at_zone area city :
  all_chars is_letter area = true -> area <> "" ->
  all_chars is_zone_char city = true -> city <> "" ->
  iana_at (String " " (String.append area (String "/" city)))
    = Some (String.append area (String "/" city)).
Proof.
  intros A An C Cn. unfold iana_at.
  rewrite (span_cons_true is_space " ") by reflexivity.
  destruct area as [|a area]; [congruence|].
  pose proof A as A0. simpl in A0. apply andb_true_iff in A0. destruct A0 as [A0 _].
  destruct (letter_class a A0) as (S & _).
  rewrite append_cons, (span_cons_false is_space a _ S). cbn [fst snd].
  rewrite <- append_cons.
  rewrite (span_stop is_letter (String a area) "/" city A eq_refl).
  rewrite (span_all is_zone_char city C).
  now destruct city.
Qed.

Lemma ampm_letters ampm :
  In ampm ["AM"; "PM"; "am"; "pm"; "Am"; "Pm"; "aM"; "pM"] ->
  exists a b, ampm = String a (String b "") /\ is_letter a = true /\ is_letter b = true.
Proof.
  simpl. intros A.
  repeat (destruct A as [<-|A]; [do 2 eexists; repeat split; reflexivity|]).
  destruct A.
Qed.


(** A written date-time ends with a digit of the minute, a space and AM or
    PM. *)
Lemma written_split with_at month day year hour minute ampm :
  all_chars is_digit minute = true -> String.length minute = 2%nat ->
  exists p m2,
    is_digit m2 = true /\
    written with_at month day year hour minute ampm
      = String.append p (String m2 (String " " ampm)).
Proof.
  intros N1 N2.
  destruct minute as [|m1 [|m2 [|]]]; try discriminate N2.
  simpl in N1. rewrite andb_true_r in N1. apply andb_true_iff in N1. destruct N1 as [_ N4].
  exists (String.append month (String " " (String.append day (String ","
            (String " " (String.append year
               (String.append (if with_at then " at " else " ")
                  (String.append hour (String ":" (String m1 "")))))))))), m2.
  split; [exact N4|]. unfold written.
  repeat (rewrite ?append_assoc, ?append_cons, ?append_nil_l). reflexivity.
Qed.

Lemma written_no_slash with_at month day year hour minute ampm :
  all_chars is_letter month = true ->
  all_chars is_digit day = true ->
  all_chars is_digit year = true ->
  all_chars is_digit hour = true ->
  all_chars is_digit minute = true ->
  In ampm ["AM"; "PM"; "am"; "pm"; "Am"; "Pm"; "aM"; "pM"] ->
  all_chars (fun c => negb (Ascii.eqb c "/"))
    (written with_at month day year hour minute ampm) = true.
Proof.
  intros M D Y H N1 A.
  unfold written. repeat (rewrite ?all_chars_app; cbn [all_chars]).
  rewrite (all_chars_impl _ _ _ letter_no_slash M).
  rewrite (all_chars_impl _ _ _ digit_no_slash D).
  rewrite (all_chars_impl _ _ _ digit_no_slash Y).
  rewrite (all_chars_impl _ _ _ digit_no_slash H).
  rewrite (all_chars_impl _ _ _ digit_no_slash N1).
  simpl in A. destruct with_at;
    repeat (destruct A as [<-|A]; [reflexivity|]); destruct A.
Qed.

Lemma trim_written with_at month day year hour minute ampm :
  all_chars is_letter month = true -> month <> "" ->
  all_chars is_digit minute = true -> String.length minute = 2%nat ->
  In ampm ["AM"; "PM"; "am"; "pm"; "Am"; "Pm"; "aM"; "pM"] ->
  trim (written with_at month day year hour minute ampm)
    = written with_at month day year hour minute ampm.
Proof.
  intros M Mn N1 N2 A. unfold trim.
  assert (S : span is_space (written with_at month day year hour minute ampm)
              = ("", written with_at month day year hour minute ampm)).
  { unfold written. destruct month as [|mc month]; [congruence|].
    rewrite append_cons. apply span_space_letter.
    simpl in M. now apply andb_true_iff in M. }
  rewrite S. cbn [snd].
  destruct (written_split with_at month day year hour minute ampm N1 N2)
    as (p & m2 & _ & ->).
  destruct (ampm_letters ampm A) as (a & b & -> & La & Lb).
  replace (String.append p (String m2 (String " " (String a (String b "")))))
    with (String.append (String.append p (String m2 (String " " "")))
            (String a (String b "")))
    by (now rewrite append_assoc, !append_cons, append_nil_l).
  assert (T : trimEnd (String a (String b "")) = String a (String b "")).
  { apply trimEnd_letters. simpl. now rewrite La, Lb. }
  rewrite trimEnd_keep; rewrite T; [reflexivity|discriminate].
Qed.

(** X15: the zone at the end is cut off and changes nothing.  For a date and
    a time written as documented, an abbreviation of two to four letters
    other than AM and PM, or a name like America/Chicago, after one more
    space gives the result of the string without it: whatever the zone, the
    date and the time returned are those written. *)
Theorem zone_suffix_is_ignored (with_at : bool)
    (month day year hour minute ampm zone : string) :
  all_chars is_letter month = true -> month <> "" ->
  all_chars is_digit day = true ->
  all_chars is_digit year = true ->
  all_chars is_digit hour = true ->
  all_chars is_digit minute = true -> String.length minute = 2%nat ->
  toUpperCase ampm = "AM" \/ toUpperCase ampm = "PM" ->
  (all_chars is_letter zone = true /\ (2 <= String.length zone <= 4)%nat /\
   toUpperCase zone <> "AM" /\ toUpperCase zone <> "PM")
  \/ (exists area city,
        zone = String.append area (String "/" city) /\
        all_chars is_letter area = true /\ area <> "" /\
        all_chars is_zone_char city = true /\ city <> "") ->
  parseDateTime
    (String.append (written with_at month day year hour minute ampm) (String " " zone))
  = parseDateTime (written with_at month day year hour minute ampm).
Proof.
  intros M Mn D Y H N1 N2 A0 Z.
  pose proof (ampm_variants ampm A0) as A.
  set (s := written with_at month day year hour minute ampm).
  (* the string without the zone *)
  assert (R : parseDateTime s =
              match matchDate true s with
              | Some m => parseDateTimeComponents m
              | None =>
                  match matchDate false s with
                  | Some m => parseDateTimeComponents m
                  | None => None
                  end
              end).
  { unfold parseDateTime, s.
    rewrite (written_no_iana with_at month day year hour minute ampm M D Y H N1 A).
    destruct (written_abbreviation with_at month day year hour minute ampm N1 N2 A)
      as (before & ->).
    replace (String.eqb (toUpperCase ampm) "AM" || String.eqb (toUpperCase ampm) "PM")
      with true by (destruct A0 as [-> | ->]; reflexivity).
    unfold written at 1 2. rewrite (stripWeekday_word_space month _ M).
    reflexivity. }
  rewrite R. clear R.
  (* the string with the zone *)
  pose proof (trim_written with_at month day year hour minute ampm M Mn N1 N2 A) as T.
  pose proof (written_no_slash with_at month day year hour minute ampm M D Y H N1 A) as NS.
  destruct (written_split with_at month day year hour minute ampm N1 N2)
    as (p & m2 & D2 & E).
  destruct (ampm_letters ampm A) as (a & b & Eab & La & Lb).
  fold s in T, NS, E.
  assert (E2 : String.append s (String " " zone) =
               String.append p (String m2 (String " " (String a (String b (String " " zone)))))).
  { rewrite E, Eab. now rewrite append_assoc, !append_cons, append_nil_l. }
  assert (E3 : String.append p (String m2 (String " " (String a (String b "")))) = s).
  { now rewrite E, Eab. }
  destruct (letter_class a La) as (Sa & _). destruct (letter_class b Lb) as (Sb & _).
  unfold parseDateTime.
  destruct Z as [(Lz & Len & Z1 & Z2)|(area & city & -> & La2 & An & Lc & Cn)].
  - (* an abbreviation *)
    assert (Zn : zone <> "") by (intros ->; simpl in Len; lia).
    rewrite search_none.
    2:{ intros x y Exy. apply iana_at_slash.
        assert (S : all_chars (fun c => negb (Ascii.eqb c "/"))
                      (String.append s (String " " zone)) = true).
        { rewrite all_chars_app, NS. cbn [all_chars andb negb Ascii.eqb].
          now rewrite (all_chars_impl _ _ _ letter_no_slash Lz). }
        rewrite Exy, all_chars_app in S. now apply andb_true_iff in S. }
    rewrite E2, (search_after_digit abbreviation_at p m2 _ abbreviation_at_digit D2).
    cbn [search].
    rewrite (abbreviation_at_two a b zone La Lb Lz Zn).
    rewrite (abbreviation_at_nonspace a _ Sa), (abbreviation_at_nonspace b _ Sb).
    rewrite (abbreviation_at_zone zone Lz Len).
    apply String.eqb_neq in Z1, Z2. rewrite Z1, Z2. cbn [orb].
    now rewrite E3, T.
  - (* a name with a slash *)
    rewrite E2, (search_after_digit iana_at p m2 _ iana_at_digit D2).
    cbn [search].
    rewrite (iana_at_two a b _ La Lb).
    rewrite (iana_at_nonspace a _ Sa), (iana_at_nonspace b _ Sb).
    rewrite (iana_at_zone area city La2 An Lc Cn).
    now rewrite E3, T.
Qed.

Lemma zone_suffix_is_ignored_witness :
  parseDateTime "November 13, 2025 at 1:25 PM CST"
    = parseDateTime "November 13, 2025 at 1:25 PM" /\
  parseDateTime "November 13, 2025 at 1:25 PM Asia/Tokyo"
    = parseDateTime "November 13, 2025 at 1:25 PM".
Proof.
  split.
  - apply (zone_suffix_is_ignored true "November" "13" "2025" "1" "25" "PM" "CST");
      try reflexivity; try discriminate; [now right|].
    left. repeat split; try discriminate; simpl; lia.
  - apply (zone_suffix_is_ignored true "November" "13" "2025" "1" "25" "PM" "Asia/Tokyo");
      try reflexivity; try discriminate; [now right|].
    right. exists "Asia", "Tokyo". repeat split; discriminate.
Defined.

End ZoneFacts.
